(** * Inbound edit-packet processing of the octree server

    A shallow embedding of
    - [assignment-client/src/octree/OctreeInboundPacketProcessor.cpp]
      (per-sender sequence tracking, the sender registry, the NACK sweep and
      the processing of one inbound packet), and
    - [libraries/octree/src/OctreeDataUtils.cpp] (the snapshot envelope),
    together with the properties of the specification that concern them. *)

From Stdlib Require Import ZArith Lia List Bool.
From Stdlib.Strings Require Import Byte String Ascii.
From stdpp Require Import base decidable numbers countable list sets gmap fin_sets.

Local Open Scope Z_scope.

(** ** Machine integers *)

Definition UINT16_MAX : Z := 65535.
Definition UINT16_RANGE : Z := UINT16_MAX + 1.
Definition UINT64_RANGE : Z := 2 ^ 64.

(** Conversion to [unsigned short]. *)
Definition to_u16 (x : Z) : Z := x mod UINT16_RANGE.
(** Conversion to [quint64]. *)
Definition to_u64 (x : Z) : Z := x mod UINT64_RANGE.

Definition is_u16 (x : Z) : Prop := 0 <= x < UINT16_RANGE.
Definition is_u64 (x : Z) : Prop := 0 <= x < UINT64_RANGE.

(** ** SingleSenderStats *)

Module SingleSenderStats.

Definition MAX_REASONABLE_SEQUENCE_GAP : Z := 1000.
Definition MAX_MISSING_SEQUENCE_SIZE : Z := 100.

(** The members of the class.  The five counters are [quint64], the last
    sequence number an [unsigned short int], the missing numbers a
    [QSet<unsigned short int>]. *)
Record t : Type := mk {
  _totalTransitTime : Z;
  _totalProcessTime : Z;
  _totalLockWaitTime : Z;
  _totalElementsInPacket : Z;
  _totalPackets : Z;
  _incomingLastSequence : Z;
  _missingSequenceNumbers : gset Z
}.

(** The constructor [SingleSenderStats::SingleSenderStats()]. *)
Definition init : t :=
  {| _totalTransitTime := 0;
     _totalProcessTime := 0;
     _totalLockWaitTime := 0;
     _totalElementsInPacket := 0;
     _totalPackets := 0;
     _incomingLastSequence := 0;
     _missingSequenceNumbers := ∅ |}.

(** The line written by [qDebug()] when a packet is ignored. *)
Inductive DebugLine : Type :=
| IgnoringUnreasonablePacket (sequence incomingLastSequence : Z).

(** [for (int missingSequence = expected; missingSequence < incoming; missingSequence++)]
    inserting [missingSequence < 0 ? missingSequence + UINT16_RANGE : missingSequence].
    With [expected] no less than [-UINT16_RANGE] and [incoming] an
    [unsigned short int], as they are in [trackInboundPacket], the number
    inserted is one already. *)
Definition insertSkipped (expected incoming : Z) (missing : gset Z) : gset Z :=
  foldl (fun acc missingSequence =>
           {[ if missingSequence <? 0 then missingSequence + UINT16_RANGE
              else missingSequence ]} ∪ acc)
        missing (seqZ expected (incoming - expected)).

(** The pruning block, run when the set holds more than
    [MAX_MISSING_SEQUENCE_SIZE] numbers.  [foreach] walks a copy of the
    set, so every element is tested once against the same bounds. *)
Definition pruneRemoves (incomingLastSequence missingSequence : Z) : bool :=
  let cutoff := incomingLastSequence - MAX_REASONABLE_SEQUENCE_GAP in
  if 0 <=? cutoff then
    let nonRolloverCutoff := to_u16 cutoff in
    (incomingLastSequence <? missingSequence) || (missingSequence <=? nonRolloverCutoff)
  else
    let rolloverCutoff := to_u16 (cutoff + UINT16_RANGE) in
    (incomingLastSequence <? missingSequence) && (missingSequence <=? rolloverCutoff).

Definition prune (incomingLastSequence : Z) (missing : gset Z) : gset Z :=
  if MAX_MISSING_SEQUENCE_SIZE <? Z.of_nat (size missing) then
    filter (fun m => pruneRemoves incomingLastSequence m = false) missing
  else missing.

(** The trailing "update other stats" block. *)
Definition updateOtherStats (s : t) (transitTime editsInPacket processTime lockWaitTime : Z) : t :=
  {| _totalTransitTime := to_u64 (_totalTransitTime s + transitTime);
     _totalProcessTime := to_u64 (_totalProcessTime s + processTime);
     _totalLockWaitTime := to_u64 (_totalLockWaitTime s + lockWaitTime);
     _totalElementsInPacket := to_u64 (_totalElementsInPacket s + editsInPacket);
     _totalPackets := to_u64 (_totalPackets s + 1);
     _incomingLastSequence := _incomingLastSequence s;
     _missingSequenceNumbers := _missingSequenceNumbers s |}.

Definition setSequenceState (s : t) (last : Z) (missing : gset Z) : t :=
  {| _totalTransitTime := _totalTransitTime s;
     _totalProcessTime := _totalProcessTime s;
     _totalLockWaitTime := _totalLockWaitTime s;
     _totalElementsInPacket := _totalElementsInPacket s;
     _totalPackets := _totalPackets s;
     _incomingLastSequence := last;
     _missingSequenceNumbers := missing |}.

(** The tail of a call that was not ignored: the pruning block, then the
    counters.  No debug line is written. *)
Definition accept (s : t) (last : Z) (missing : gset Z)
    (transitTime editsInPacket processTime lockWaitTime : Z) : t * list DebugLine :=
  (updateOtherStats (setSequenceState s last (prune last missing))
                    transitTime editsInPacket processTime lockWaitTime, []).

(** [SingleSenderStats::trackInboundPacket], for an [incomingSequence]
    that is an [unsigned short int].  The result pairs the new state with
    the debug lines written during the call. *)
Definition trackInboundPacket (s : t)
    (incomingSequence transitTime editsInPacket processTime lockWaitTime : Z)
    : t * list DebugLine :=
  let expectedSequence :=
    if _totalPackets s =? 0 then incomingSequence
    else to_u16 (_incomingLastSequence s + 1) in
  let finish (last : Z) (missing : gset Z) :=
    accept s last missing transitTime editsInPacket processTime lockWaitTime in
  if incomingSequence =? expectedSequence then
    (* on time *)
    finish incomingSequence (_missingSequenceNumbers s)
  else
    (* out of order *)
    let incoming := incomingSequence in
    let expected := expectedSequence in
    let absGap := Z.abs (incoming - expected) in
    let compare (incoming expected : Z) :=
      if expected <? incoming then
        (* early *)
        finish incomingSequence
               (insertSkipped expected incoming (_missingSequenceNumbers s))
      else
        (* late *)
        finish (_incomingLastSequence s)
               (_missingSequenceNumbers s ∖ {[ incomingSequence ]}) in
    if UINT16_RANGE - MAX_REASONABLE_SEQUENCE_GAP <=? absGap then
      (* rollover likely occurred: correct the larger of the two *)
      if expected <? incoming then compare (incoming - UINT16_RANGE) expected
      else compare incoming (expected - UINT16_RANGE)
    else if MAX_REASONABLE_SEQUENCE_GAP <? absGap then
      (* ignore packet if gap is unreasonable *)
      (s, [IgnoringUnreasonablePacket incomingSequence (_incomingLastSequence s)])
    else compare incoming expected.

(** The five arguments of one call of [trackInboundPacket]. *)
Record Observation : Type := mkObservation {
  obs_sequence : Z;
  obs_transitTime : Z;
  obs_editsInPacket : Z;
  obs_processTime : Z;
  obs_lockWaitTime : Z
}.

Definition observe (s : t) (o : Observation) : t * list DebugLine :=
  trackInboundPacket s (obs_sequence o) (obs_transitTime o) (obs_editsInPacket o)
                     (obs_processTime o) (obs_lockWaitTime o).

(** A run of calls on one tracker, with the debug lines in order. *)
Fixpoint observeAll (s : t) (calls : list Observation) : t * list DebugLine :=
  match calls with
  | [] => (s, [])
  | o :: rest =>
      let '(s1, log1) := observe s o in
      let '(s2, log2) := observeAll s1 rest in
      (s2, log1 ++ log2)
  end.

(** The sequence number the tracker expects next. *)
Definition expectedSequence (s : t) (incomingSequence : Z) : Z :=
  if _totalPackets s =? 0 then incomingSequence
  else to_u16 (_incomingLastSequence s + 1).

(** The gap test of the specification: neither close enough to be a
    plain reordering nor far enough to be a rollover. *)
Definition unreasonableGap (s : t) (incomingSequence : Z) : bool :=
  let absGap := Z.abs (incomingSequence - expectedSequence s incomingSequence) in
  (MAX_REASONABLE_SEQUENCE_GAP <? absGap)
  && (absGap <? UINT16_RANGE - MAX_REASONABLE_SEQUENCE_GAP).

(** How many calls of a run meet a tracker that finds their gap
    unreasonable. *)
Fixpoint rejectedCalls (s : t) (calls : list Observation) : nat :=
  match calls with
  | [] => 0%nat
  | o :: rest =>
      ((if unreasonableGap s (obs_sequence o) then 1 else 0)
       + rejectedCalls (fst (observe s o)) rest)%nat
  end.

End SingleSenderStats.

(** ** The vocabulary of the tracker's specification *)

Module TrackerSpec.
Import SingleSenderStats.

(** Being among the [MAX_REASONABLE_SEQUENCE_GAP] numbers that end at
    [last], in modular order. *)
Definition inWindow (last m : Z) : Prop :=
  to_u16 (last - m) < MAX_REASONABLE_SEQUENCE_GAP.

(** The distance between two sequence numbers on the 16-bit circle. *)
Definition circularDistance (a b : Z) : Z :=
  Z.min (to_u16 (a - b)) (to_u16 (b - a)).

Definition pairwiseWithinGap (seqs : list Z) : Prop :=
  forall a b, a ∈ seqs -> b ∈ seqs ->
              circularDistance a b <= MAX_REASONABLE_SEQUENCE_GAP.

(** How far [x] lies ahead of [first] on the circle: negative when it
    lies behind. *)
Definition aheadOf (first x : Z) : Z :=
  let d := to_u16 (x - first) in
  if d <? UINT16_RANGE / 2 then d else d - UINT16_RANGE.

Definition furthestAhead (first : Z) (seqs : list Z) : Z :=
  foldr (fun x acc => Z.max (aheadOf first x) acc) 0 seqs.

(** The numbers from the first one of a run up to the one furthest ahead
    of it, reduced modulo 2^16. *)
Definition rangeSinceFirst (first : Z) (seqs : list Z) : gset Z :=
  list_to_set ((fun k => to_u16 (first + k))
                 <$> seqZ 0 (furthestAhead first seqs + 1)).

(** The numbers on the way from [a] to [b] on the circle, both included,
    when [b] lies at most [MAX_REASONABLE_SEQUENCE_GAP] ahead of [a]. *)
Definition between (a b : Z) : gset Z :=
  let d := to_u16 (b - a) in
  if d <=? MAX_REASONABLE_SEQUENCE_GAP
  then list_to_set ((fun k => to_u16 (a + k)) <$> seqZ 0 (d + 1))
  else ∅.

(** The expected range of a run as the specification words it, without
    regard to the order of arrival: the numbers received and every number
    that lies between two of them. *)
Definition expectedRange (seqs : list Z) : gset Z :=
  ⋃ ((fun a => ⋃ ((fun b => between a b) <$> seqs)) <$> seqs).

(** The state of a tracker that has seen the numbers [seen], the first
    of them [F] and the furthest ahead [F + T]. *)
Record runInv (F T : Z) (seen : list Z) (s : t) : Prop := {
  inv_top : 0 <= T <= MAX_REASONABLE_SEQUENCE_GAP;
  inv_last : _incomingLastSequence s = to_u16 (F + T);
  inv_top_seen : to_u16 (F + T) ∈ seen;
  inv_first_seen : F ∈ seen;
  inv_seen : forall y, y ∈ seen ->
     exists d, T - MAX_REASONABLE_SEQUENCE_GAP <= d <= T /\ y = to_u16 (F + d);
  inv_missing : forall x, x ∈ _missingSequenceNumbers s
     <-> exists k, 0 < k < T /\ x = to_u16 (F + k) /\ x ∉ seen
}.

(** What every call leaves behind: 16-bit contents, and a set that is
    either small or confined to the window behind the last number. *)
Record sizeInv (s : t) : Prop := {
  sz_last : is_u16 (_incomingLastSequence s);
  sz_u16 : forall m, m ∈ _missingSequenceNumbers s -> is_u16 m;
  sz_window : Z.of_nat (size (_missingSequenceNumbers s)) <= MAX_MISSING_SEQUENCE_SIZE
              \/ forall m, m ∈ _missingSequenceNumbers s -> inWindow (_incomingLastSequence s) m
}.

End TrackerSpec.

(** ** OctreeInboundPacketProcessor *)

Module OctreeInboundPacketProcessor.

(** A [QUuid] is a 128-bit identifier, a [PacketType] a small integer, a
    [QByteArray] a string of bytes. *)
Abbreviation QUuid := Z (only parsing).
Abbreviation PacketType := Z (only parsing).
Abbreviation QByteArray := (list Byte.byte) (only parsing).

Definition INT32_RANGE : Z := 2 ^ 32.

(** Conversion to [int]. *)
Definition to_int (x : Z) : Z :=
  (x + INT32_RANGE / 2) mod INT32_RANGE - INT32_RANGE / 2.

(** [sizeof(uint16_t)], [sizeof(unsigned short int)] and [sizeof(quint64)]. *)
Definition sizeof_u16 : Z := 2.
Definition sizeof_u64 : Z := 8.

(** How a call that holds a loop ends: it returns, or the iterations
    granted to the loop run out, or it reads outside an array. *)
Inductive Outcome (A : Type) : Type :=
| Returned (a : A)
| OutOfFuel
| Undefined.
Arguments Returned {A} a.
Arguments OutOfFuel {A}.
Arguments Undefined {A}.

Record Node : Type := mkNode { getUUID : QUuid }.

(** The members the file uses: an [int] count of packets received, the
    [quint64] totals and time of the last NACK sweep, and the
    [QHash<QUuid, SingleSenderStats>] of the senders. *)
Record t : Type := mk {
  _receivedPacketCount : Z;
  _totalTransitTime : Z;
  _totalProcessTime : Z;
  _totalLockWaitTime : Z;
  _totalElementsInPacket : Z;
  _totalPackets : Z;
  _lastNackTime : Z;
  _singleSenderStats : gmap Z SingleSenderStats.t
}.

(** The processor together with the file-level [static QUuid DEFAULT_NODE_ID_REF]. *)
Record Process : Type := mkProcess {
  DEFAULT_NODE_ID_REF : QUuid;
  processor : t
}.

Inductive DebugLine : Type :=
| UnknownPacketIgnored (packetType : PacketType)
| FromSenderStats (line : SingleSenderStats.DebugLine).

(** [OctreeInboundPacketProcessor::trackInboundPacket]. *)
Definition trackInboundPacket (self : t) (nodeUUID : QUuid)
    (sequence transitTime editsInPacket processTime lockWaitTime : Z)
    : t * list SingleSenderStats.DebugLine :=
  let tracked :=
    match _singleSenderStats self !! nodeUUID with
    | None =>
        (* the first we have heard of this node *)
        SingleSenderStats.trackInboundPacket SingleSenderStats.init
          sequence transitTime editsInPacket processTime lockWaitTime
    | Some stats =>
        SingleSenderStats.trackInboundPacket stats
          sequence transitTime editsInPacket processTime lockWaitTime
    end in
  ({| _receivedPacketCount := _receivedPacketCount self;
      _totalTransitTime := to_u64 (_totalTransitTime self + transitTime);
      _totalProcessTime := to_u64 (_totalProcessTime self + processTime);
      _totalLockWaitTime := to_u64 (_totalLockWaitTime self + lockWaitTime);
      _totalElementsInPacket := to_u64 (_totalElementsInPacket self + editsInPacket);
      _totalPackets := to_u64 (_totalPackets self + 1);
      _lastNackTime := _lastNackTime self;
      _singleSenderStats := <[nodeUUID := fst tracked]> (_singleSenderStats self) |},
   snd tracked).

(** *** Reading the packet *)

Definition byteValue (b : Byte.byte) : Z := Z.of_N (Byte.to_N b).

(** Bytes laid out least significant first, the host order of the original. *)
Fixpoint littleEndian (bytes : list Byte.byte) : Z :=
  match bytes with
  | [] => 0
  | b :: rest => byteValue b + 256 * littleEndian rest
  end.

(** [*((T* )(packetData + offset))] for an unsigned [T] of [width] bytes;
    nothing when the bytes are not all inside the packet. *)
Definition readUnsigned (width : nat) (packet : QByteArray) (offset : Z) : option Z :=
  if (0 <=? offset) && (offset + Z.of_nat width <=? Z.of_nat (length packet))
  then Some (littleEndian (take width (drop (Z.to_nat offset) packet)))
  else None.

(** *** The collaborators of [processPacket]

    The clock, the packet header codec, the octree behind its write lock
    and the node list are not part of this file; [World] is whatever they
    keep between calls. [processEditPacketData] stands for the locked call
    on the octree, given the packet, the offset of [editData] in it,
    [maxSize] and the sending node. *)
Record Server : Type := mkServer {
  World : Type;
  usecTimestampNow : World -> Z * World;
  numBytesForPacketHeader : QByteArray -> Z;
  packetTypeForPacket : QByteArray -> PacketType;
  handlesEditPacketType : World -> PacketType -> bool;
  processEditPacketData :
    World -> PacketType -> QByteArray -> Z -> Z -> option Node -> Z * World;
  setLastHeardMicrostamp : Node -> Z -> World -> World
}.

Section ProcessPacket.
Variable server : Server.

(** [while (atByte < packet.size())], one edit record per iteration.  The
    result is the world with [atByte], [editsInPacket], [processTime] and
    [lockWaitTime] as the loop leaves them. *)
Fixpoint processEdits (fuel : nat) (world : World server)
    (packetType : PacketType) (packet : QByteArray) (sendingNode : option Node)
    (atByte editsInPacket processTime lockWaitTime : Z)
    : Outcome (World server * (Z * Z * Z * Z)) :=
  if atByte <? Z.of_nat (length packet) then
    match fuel with
    | O => OutOfFuel
    | S fuel' =>
        let maxSize := Z.of_nat (length packet) - atByte in
        let '(startLock, world) := usecTimestampNow server world in
        let '(startProcess, world) := usecTimestampNow server world in
        let '(editDataBytesRead, world) :=
          processEditPacketData server world packetType packet atByte maxSize sendingNode in
        let '(endProcess, world) := usecTimestampNow server world in
        let thisProcessTime := to_u64 (endProcess - startProcess) in
        let thisLockWaitTime := to_u64 (startProcess - startLock) in
        (* skip to next voxel edit record in the packet *)
        processEdits fuel' world packetType packet sendingNode
          (atByte + editDataBytesRead) (editsInPacket + 1)
          (to_u64 (processTime + thisProcessTime))
          (to_u64 (lockWaitTime + thisLockWaitTime))
    end
  else Returned (world, (atByte, editsInPacket, processTime, lockWaitTime)).

(** [OctreeInboundPacketProcessor::processPacket].  [nodeUUID] is a
    reference to the static [DEFAULT_NODE_ID_REF]: assigning the sender's
    UUID to it writes the static, which is what the call leaves in
    [DEFAULT_NODE_ID_REF].  The verbose debug output is left out. *)
Definition processPacket (fuel : nat) (process : Process) (world : World server)
    (sendingNode : option Node) (packet : QByteArray)
    : Outcome (Process * World server * list DebugLine) :=
  let numBytesPacketHeader := numBytesForPacketHeader server packet in
  let packetType := packetTypeForPacket server packet in
  if handlesEditPacketType server world packetType then
    let self := processor process in
    let self :=
      {| _receivedPacketCount := _receivedPacketCount self + 1;
         _totalTransitTime := _totalTransitTime self;
         _totalProcessTime := _totalProcessTime self;
         _totalLockWaitTime := _totalLockWaitTime self;
         _totalElementsInPacket := _totalElementsInPacket self;
         _totalPackets := _totalPackets self;
         _lastNackTime := _lastNackTime self;
         _singleSenderStats := _singleSenderStats self |} in
    match readUnsigned 2 packet numBytesPacketHeader,
          readUnsigned 8 packet (numBytesPacketHeader + sizeof_u16) with
    | Some sequence, Some sentAt =>
        let '(arrivedAt, world) := usecTimestampNow server world in
        let transitTime := to_u64 (arrivedAt - sentAt) in
        let atByte := numBytesPacketHeader + sizeof_u16 + sizeof_u64 in
        match processEdits fuel world packetType packet sendingNode atByte 0 0 0 with
        | Returned (world, (_, editsInPacket, processTime, lockWaitTime)) =>
            (* Make sure our Node and NodeList knows we've heard from this node. *)
            let '(nodeUUID, world) :=
              match sendingNode with
              | Some node =>
                  let '(now, world) := usecTimestampNow server world in
                  (getUUID node, setLastHeardMicrostamp server node now world)
              | None => (DEFAULT_NODE_ID_REF process, world)
              end in
            let '(self, log) :=
              trackInboundPacket self nodeUUID sequence transitTime editsInPacket
                                 processTime lockWaitTime in
            Returned ({| DEFAULT_NODE_ID_REF := nodeUUID; processor := self |},
                      world, FromSenderStats <$> log)
        | OutOfFuel => OutOfFuel
        | Undefined => Undefined
        end
    | _, _ => Undefined
    end
  else Returned (process, world, [UnknownPacketIgnored packetType]).

End ProcessPacket.

(** *** The NACK sweep *)

(** One datagram handed to [writeUnverifiedDatagram]: the destination
    node, a null pointer when there is [None], the count written after the
    header, the sequence numbers written after the count, and
    [dataAt - packet], the number of bytes sent. *)
Record Datagram : Type := mkDatagram {
  dg_destination : option Node;
  dg_numSequenceNumbers : Z;
  dg_sequenceNumbers : list Z;
  dg_size : Z
}.

Section SendNackPackets.
(** [MAX_PACKET_SIZE] and the length of the header that
    [populatePacketHeader] writes for the NACK type come from the
    networking library; [isAlive] and [hasPacketsToProcessFrom] are asked
    of the node list and of the queue during the sweep.  [nodeHash] is
    [NodeList::getInstance()->getNodeHash().value]: the node of a UUID, or a
    null pointer when the hash holds none. *)
Variable MAX_PACKET_SIZE : Z.
Variable numBytesPacketHeader : Z.
Variable isAlive : QUuid -> bool.
Variable hasPacketsToProcessFrom : QUuid -> bool.
Variable nodeHash : QUuid -> option Node.

(** [for (uint16_t i = 0; i < numSequenceNumbers; i++)]: the numbers
    written, the iterator and [dataAt] after the loop; nothing when the
    iterator is read at the end of the set. *)
Fixpoint packSequenceNumbers (numSequenceNumbers : nat)
    (missingSequenceNumberIterator : list Z) (dataAt : Z)
    : option (list Z * list Z * Z) :=
  match numSequenceNumbers with
  | O => Some ([], missingSequenceNumberIterator, dataAt)
  | S n =>
      match missingSequenceNumberIterator with
      | [] => None
      | sequenceNumber :: iterator =>
          match packSequenceNumbers n iterator (dataAt + sizeof_u16) with
          | Some (packed, iterator, dataAt) =>
              Some (sequenceNumber :: packed, iterator, dataAt)
          | None => None
          end
      end
  end.

(** [(bytesRemaining - sizeof(uint16_t)) / sizeof(unsigned short int)],
    computed in [size_t] and stored in an [int]. *)
Definition numSequenceNumbersRoomFor : Z :=
  let bytesRemaining := MAX_PACKET_SIZE - numBytesPacketHeader in
  to_int (to_u64 (bytesRemaining - sizeof_u16) / sizeof_u16).

(** [while (numSequenceNumbersAvailable > 0)]: the datagrams built for
    one node, in order.  Each is handed to [writeUnverifiedDatagram] with
    [destinationNode] as it is, null or not. *)
Fixpoint packNackPackets (fuel : nat) (destinationNode : option Node)
    (numSequenceNumbersAvailable : Z) (missingSequenceNumberIterator : list Z)
    : Outcome (list Datagram) :=
  if 0 <? numSequenceNumbersAvailable then
    match fuel with
    | O => OutOfFuel
    | S fuel' =>
        (* pack header *)
        let dataAt := 0 + numBytesPacketHeader in
        (* calculate and pack the number of sequence numbers to nack *)
        let numSequenceNumbers :=
          to_u16 (Z.min numSequenceNumbersAvailable numSequenceNumbersRoomFor) in
        let dataAt := dataAt + sizeof_u16 in
        (* pack sequence numbers to nack *)
        match packSequenceNumbers (Z.to_nat numSequenceNumbers)
                                  missingSequenceNumberIterator dataAt with
        | None => Undefined
        | Some (packed, iterator, dataAt) =>
            (* send it *)
            match packNackPackets fuel' destinationNode
                    (numSequenceNumbersAvailable - numSequenceNumbers) iterator with
            | Returned rest =>
                Returned (mkDatagram destinationNode numSequenceNumbers packed dataAt
                          :: rest)
            | OutOfFuel => OutOfFuel
            | Undefined => Undefined
            end
        end
    end
  else Returned [].

(** The datagrams for one node: the node is looked up once, without a
    test of the result, and its missing numbers are packed in the order
    the set yields them. *)
Definition nackPacketsFor (fuel : nat) (nodeUUID : QUuid)
    (nodeStats : SingleSenderStats.t) : Outcome (list Datagram) :=
  let destinationNode := nodeHash nodeUUID in
  let missingSequenceNumbers := SingleSenderStats._missingSequenceNumbers nodeStats in
  packNackPackets fuel destinationNode (Z.of_nat (size missingSequenceNumbers))
                  (elements missingSequenceNumbers).

(** [while (i != _singleSenderStats.end())].  [i] is the part of the map
    still ahead of the iterator; [erase] moves it on, [i++] moves it on,
    and the [continue] of a node with packets waiting leaves it where
    it is. *)
Fixpoint sweepSenders (fuel : nat) (senders : gmap Z SingleSenderStats.t)
    (i : list (Z * SingleSenderStats.t)) (packetsSent : Z) (sent : list Datagram)
    {struct fuel}
    : Outcome (gmap Z SingleSenderStats.t * Z * list Datagram) :=
  match i with
  | [] => Returned (senders, packetsSent, sent)
  | (nodeUUID, nodeStats) :: next =>
      match fuel with
      | O => OutOfFuel
      | S fuel' =>
          if negb (isAlive nodeUUID) then
            (* check if this node is still alive.  Remove its stats if it's dead. *)
            sweepSenders fuel' (delete nodeUUID senders) next packetsSent sent
          else if hasPacketsToProcessFrom nodeUUID then
            (* don't send a NACK since the missing packets may be among those
               waiting packets *)
            sweepSenders fuel' senders i packetsSent sent
          else
            match nackPacketsFor fuel' nodeUUID nodeStats with
            | Returned datagrams =>
                sweepSenders fuel' senders next
                  (packetsSent + Z.of_nat (length datagrams)) (sent ++ datagrams)
            | OutOfFuel => OutOfFuel
            | Undefined => Undefined
            end
      end
  end.

(** [OctreeInboundPacketProcessor::sendNackPackets]: the processor after
    the sweep, [packetsSent], and the datagrams sent. *)
Definition sendNackPackets (fuel : nat) (self : t) : Outcome (t * Z * list Datagram) :=
  match sweepSenders fuel (_singleSenderStats self)
                     (map_to_list (_singleSenderStats self)) 0 [] with
  | Returned (senders, packetsSent, sent) =>
      Returned ({| _receivedPacketCount := _receivedPacketCount self;
                   _totalTransitTime := _totalTransitTime self;
                   _totalProcessTime := _totalProcessTime self;
                   _totalLockWaitTime := _totalLockWaitTime self;
                   _totalElementsInPacket := _totalElementsInPacket self;
                   _totalPackets := _totalPackets self;
                   _lastNackTime := _lastNackTime self;
                   _singleSenderStats := senders |},
                packetsSent, sent)
  | OutOfFuel => OutOfFuel
  | Undefined => Undefined
  end.

End SendNackPackets.

End OctreeInboundPacketProcessor.

(** ** OctreeUtils: the snapshot envelope *)

Module OctreeUtils.

(** What a JSON document holds.  The variants met in this file are read
    from JSON or written to it, so [QJsonValue] and [QVariant] share this
    representation, as do [QJsonObject] and [QVariantMap], [QJsonArray] and
    [QVariantList]; [QJsonObject::fromVariantMap] is the identity on it. *)
#[local] Unset Elimination Schemes.
Inductive QVariant : Type :=
| VInvalid
| VBool (b : bool)
| VNumber (n : Z)
| VString (s : string)
| VList (items : list QVariant)
| VMap (members : list (string * QVariant)).
#[local] Set Elimination Schemes.

Abbreviation QVariantMap := (list (string * QVariant)) (only parsing).
Abbreviation QJsonObject := (list (string * QVariant)) (only parsing).
Abbreviation QVariantList := (list QVariant) (only parsing).

Definition INT64_RANGE : Z := 2 ^ 64.

(** The range of [int]. *)
Definition INT_MIN : Z := - 2 ^ 31.
Definition INT_MAX : Z := 2 ^ 31 - 1.

(** Conversion to [qint64]. *)
Definition to_qint64 (x : Z) : Z :=
  (x + INT64_RANGE / 2) mod INT64_RANGE - INT64_RANGE / 2.

(** [map.contains(key)] *)
Fixpoint contains (map : QVariantMap) (key : string) : bool :=
  match map with
  | [] => false
  | (k, _) :: rest => String.eqb k key || contains rest key
  end.

(** [map[key]] read: the value, or an invalid variant *)
Fixpoint value (map : QVariantMap) (key : string) : QVariant :=
  match map with
  | [] => VInvalid
  | (k, v) :: rest => if String.eqb k key then v else value rest key
  end.

(** [root[key] = v] *)
Fixpoint assign (root : QJsonObject) (key : string) (v : QVariant) : QJsonObject :=
  match root with
  | [] => [(key, v)]
  | (k, x) :: rest =>
      if String.eqb k key then (k, v) :: rest else (k, x) :: assign rest key v
  end.

(** [QVariant::toList]: the list a list variant holds, else an empty one *)
Definition toList (v : QVariant) : QVariantList :=
  match v with
  | VList items => items
  | _ => []
  end.

(** [QVariant::toJsonObject]: the object of a map variant, else an empty one *)
Definition toJsonObject (v : QVariant) : QJsonObject :=
  match v with
  | VMap members => members
  | _ => []
  end.

Definition isObject (v : QVariant) : Prop :=
  match v with
  | VMap _ => True
  | _ => False
  end.

(** *** The collaborators

    Byte arrays are only handed from one collaborator to the next, so their
    type is left to the collaborators: the gzip routines of the shared
    library ([None] for [false]), [QJsonDocument::toJson], the entities
    file parser, and the conversions of [QUuid] and [QVariant]. *)
Record Codec : Type := mkCodec {
  QByteArray : Type;
  emptyByteArray : QByteArray;
  gzip : QByteArray -> option QByteArray;
  gunzip : QByteArray -> option QByteArray;
  toJson : QJsonObject -> QByteArray;
  parseEntities : QByteArray -> option QVariantMap;
  uuidToString : Z -> string;
  toUuid : QVariant -> Z;
  toInt : QVariant -> Z
}.

(** [RawEntityData], with the fields of its base [RawOctreeData]. *)
Record RawEntityData : Type := mkRawEntityData {
  id : Z;
  dataVersion : Z;
  version : Z;
  entityData : QVariantList;
  variantEntityData : QVariantList
}.

Section Snapshot.
Variable codec : Codec.

(** [RawEntityData::readSubclassData(const QVariantMap&)] *)
Definition readSubclassData (self : RawEntityData) (root : QVariantMap) : RawEntityData :=
  {| id := id self;
     dataVersion := dataVersion self;
     version := version self;
     entityData := entityData self;
     variantEntityData := toList (value root "Entities") |}.

(** [RawOctreeData::readOctreeDataInfoFromMap]; it always returns [true]. *)
Definition readOctreeDataInfoFromMap (self : RawEntityData) (map : QVariantMap)
    : RawEntityData :=
  let self :=
    if contains map "Id" && contains map "DataVersion" && contains map "Version" then
      {| id := toUuid codec (value map "Id");
         dataVersion := toInt codec (value map "DataVersion");
         version := toInt codec (value map "Version");
         entityData := entityData self;
         variantEntityData := variantEntityData self |}
    else self in
  readSubclassData self map.

(** [RawOctreeData::readOctreeDataInfoFromData]; [None] for [false]. *)
Definition readOctreeDataInfoFromData (self : RawEntityData) (data : QByteArray codec)
    : option RawEntityData :=
  let data :=
    match gunzip codec data with
    | Some jsonData => jsonData
    | None => data
    end in
  match parseEntities codec data with
  | None => None
  | Some entitiesMap => Some (readOctreeDataInfoFromMap self entitiesMap)
  end.

(** [RawEntityData::writeSubclassData] *)
Definition writeSubclassData (self : RawEntityData) (root : QJsonObject) : QJsonObject :=
  let entitiesJsonArray :=
    (fun entity => VMap (toJsonObject entity)) <$> variantEntityData self in
  assign root "Entities" (VList entitiesJsonArray).

(** [RawOctreeData::toByteArray] *)
Definition toByteArray (self : RawEntityData) : QByteArray codec :=
  let obj :=
    [ ("DataVersion"%string, VNumber (to_qint64 (dataVersion self)));
      ("Id"%string, VString (uuidToString codec (id self)));
      ("Version"%string, VNumber (to_qint64 (version self))) ] in
  toJson codec (writeSubclassData self obj).

(** [RawOctreeData::toGzippedByteArray] *)
Definition toGzippedByteArray (self : RawEntityData) : QByteArray codec :=
  match gzip codec (toByteArray self) with
  | Some gzData => gzData
  | None => emptyByteArray codec
  end.

End Snapshot.

End OctreeUtils.

(** ** The vocabulary of the processor's specification *)

Module ProcessorSpec.
Import OctreeInboundPacketProcessor.

(** Greedy packing: each datagram holds the smaller of what remains and
    what a datagram has room for, and nothing remains after the last. *)
Fixpoint packedGreedily (room remaining : Z) (datagrams : list Datagram) : Prop :=
  match datagrams with
  | [] => remaining = 0
  | d :: rest =>
      dg_numSequenceNumbers d = Z.min remaining room
      /\ Z.of_nat (length (dg_sequenceNumbers d)) = Z.min remaining room
      /\ packedGreedily room (remaining - Z.min remaining room) rest
  end.

(** The sequence numbers a list of datagrams carries, as a set. *)
Definition nackedSequenceNumbers (datagrams : list Datagram) : gset Z :=
  ⋃ ((fun d => list_to_set (dg_sequenceNumbers d)) <$> datagrams).

(** The UUID a call of [processPacket] tracks the packet under. *)
Definition trackedUnder (process : Process) (sendingNode : option Node) : Z :=
  match sendingNode with
  | Some node => getUUID node
  | None => DEFAULT_NODE_ID_REF process
  end.

End ProcessorSpec.

(** ** Concrete collaborators and inputs *)

Module Examples.
Import OctreeInboundPacketProcessor OctreeUtils.

(** A run across the rollover: 65534, 1, then the late 65535. *)
Definition run_across_rollover : list SingleSenderStats.Observation :=
  [SingleSenderStats.mkObservation 65534 10 1 2 3;
   SingleSenderStats.mkObservation 1 11 1 2 3;
   SingleSenderStats.mkObservation 65535 12 2 2 3].

(** A server whose octree consumes [consumed] bytes for every record,
    whose clock advances by one microsecond per reading, and whose packets
    have a one-byte header that is their type; type 1 is an edit. *)
Definition steadyServer (consumed : Z) : Server :=
  {| World := Z;
     usecTimestampNow := fun now => (now, now + 1);
     numBytesForPacketHeader := fun _ => 1;
     packetTypeForPacket :=
       fun packet => match packet with b :: _ => byteValue b | [] => 0 end;
     handlesEditPacketType := fun _ packetType => packetType =? 1;
     processEditPacketData := fun world _ _ _ _ _ => (consumed, world);
     setLastHeardMicrostamp := fun _ _ world => world |}.

Definition emptyProcessor : t :=
  {| _receivedPacketCount := 0;
     _totalTransitTime := 0;
     _totalProcessTime := 0;
     _totalLockWaitTime := 0;
     _totalElementsInPacket := 0;
     _totalPackets := 0;
     _lastNackTime := 0;
     _singleSenderStats := ∅ |}.

(** An edit packet: type 1, the sequence number, sent at 0, and two bytes
    of edit data. *)
Definition editPacket (sequence : Byte.byte) : list Byte.byte :=
  [x01; sequence; x00; x00; x00; x00; x00; x00; x00; x00; x00; xaa; xbb].

(** A tracker with 11, 12 and 13 missing. *)
Definition gappyStats : SingleSenderStats.t :=
  fst (SingleSenderStats.observeAll SingleSenderStats.init
         [SingleSenderStats.mkObservation 10 0 0 0 0;
          SingleSenderStats.mkObservation 14 0 0 0 0]).

(** A node list that holds a node for every UUID. *)
Definition everyNodeListed (nodeUUID : Z) : option Node := Some (mkNode nodeUUID).

(** A processor that knows one sender, node 7. *)
Definition oneSenderProcessor : t :=
  {| _receivedPacketCount := 2;
     _totalTransitTime := 0;
     _totalProcessTime := 0;
     _totalLockWaitTime := 0;
     _totalElementsInPacket := 0;
     _totalPackets := 2;
     _lastNackTime := 0;
     _singleSenderStats := {[ 7 := gappyStats ]} |}.

(** Byte arrays by what they hold: nothing, the text of a JSON document,
    or the gzip of a byte array. *)
Inductive SymbolicBytes : Type :=
| NoBytes
| JsonText (obj : list (string * QVariant))
| Gzipped (inner : SymbolicBytes).

Fixpoint bitsOfPositive (p : positive) : string :=
  match p with
  | xH => EmptyString
  | xO q => String "0" (bitsOfPositive q)
  | xI q => String "1" (bitsOfPositive q)
  end.

Fixpoint positiveOfBits (s : string) : positive :=
  match s with
  | EmptyString => xH
  | String c rest =>
      if Ascii.eqb c "1" then xI (positiveOfBits rest) else xO (positiveOfBits rest)
  end.

(** A codec on symbolic byte arrays: gzip wraps and gunzip unwraps, the
    parser reads what the printer wrote, a UUID is printed as the bits of
    its code, and [toInt] keeps what an [int] holds of a number. *)
Definition referenceCodec : Codec :=
  {| QByteArray := SymbolicBytes;
     emptyByteArray := NoBytes;
     gzip := fun data => Some (Gzipped data);
     gunzip := fun data => match data with Gzipped inner => Some inner | _ => None end;
     toJson := JsonText;
     parseEntities := fun data => match data with JsonText obj => Some obj | _ => None end;
     uuidToString := fun u => bitsOfPositive (encode u);
     toUuid := fun v =>
       match v with
       | VString s => default 0 (decode (positiveOfBits s))
       | _ => 0
       end;
     toInt := fun v =>
       match v with
       | VNumber n => to_int n
       | _ => 0
       end |}.

(** The envelope of scenario S7, and one whose data version is 2^31. *)
Definition smallEnvelope : RawEntityData :=
  mkRawEntityData 5 7 3 []
    [VMap [("A"%string, VNumber 1)]; VMap [("B"%string, VNumber 2)]].

Definition largeVersionEnvelope : RawEntityData :=
  mkRawEntityData 5 (2 ^ 31) 3 []
    [VMap [("A"%string, VNumber 1)]; VMap [("B"%string, VNumber 2)]].

Definition freshEnvelope : RawEntityData := mkRawEntityData 0 (-1) 0 [] [].

End Examples.

(** ** The rest of the two files *)

Module ProcessorLifecycle.
Import OctreeInboundPacketProcessor.
Section Lifecycle.
Variable server : Server.

(** The constructor: every count at zero, and the time of the last NACK
    sweep the time of construction. *)
Definition construct (world : World server) : t * World server :=
  let '(now, world) := usecTimestampNow server world in
  ({| _receivedPacketCount := 0;
      _totalTransitTime := 0;
      _totalProcessTime := 0;
      _totalLockWaitTime := 0;
      _totalElementsInPacket := 0;
      _totalPackets := 0;
      _lastNackTime := now;
      _singleSenderStats := ∅ |}, world).

(** [OctreeInboundPacketProcessor::resetStats] *)
Definition resetStats (self : t) (world : World server) : t * World server :=
  let '(now, world) := usecTimestampNow server world in
  ({| _receivedPacketCount := _receivedPacketCount self;
      _totalTransitTime := 0;
      _totalProcessTime := 0;
      _totalLockWaitTime := 0;
      _totalElementsInPacket := 0;
      _totalPackets := 0;
      _lastNackTime := now;
      _singleSenderStats := ∅ |}, world).
End Lifecycle.
End ProcessorLifecycle.

Module SnapshotFiles.
Import OctreeUtils.
Section Files.
Variable codec : Codec.
(** [QFile::open] and [readAll]: the bytes of the file, or nothing when
    it cannot be opened. *)
Variable readAll : string -> option (QByteArray codec).
(** [QJsonValue::toInt] *)
Variable jsonToInt : QVariant -> Z.

(** [RawEntityData::readSubclassData(const QJsonObject&)] *)
Definition readSubclassDataFromJSON (self : RawEntityData) (root : list (string * QVariant))
    : RawEntityData :=
  if contains root "Entities" then
    {| id := id self;
       dataVersion := dataVersion self;
       version := version self;
       entityData := toList (value root "Entities");
       variantEntityData := variantEntityData self |}
  else self.

(** [RawOctreeData::readOctreeDataInfoFromJSON]; it always returns [true]. *)
Definition readOctreeDataInfoFromJSON (self : RawEntityData) (root : list (string * QVariant))
    : RawEntityData :=
  let self :=
    if contains root "Id" && contains root "DataVersion" && contains root "Version" then
      {| id := toUuid codec (value root "Id");
         dataVersion := jsonToInt (value root "DataVersion");
         version := jsonToInt (value root "Version");
         entityData := entityData self;
         variantEntityData := variantEntityData self |}
    else self in
  readSubclassDataFromJSON self root.

(** [RawOctreeData::readOctreeDataInfoFromFile]; [None] for [false]. *)
Definition readOctreeDataInfoFromFile (self : RawEntityData) (path : string)
    : option RawEntityData :=
  match readAll path with
  | None => None
  | Some data =>
      let jsonData :=
        match gunzip codec data with
        | Some jsonData => jsonData
        | None => data
        end in
      readOctreeDataInfoFromData codec self jsonData
  end.
End Files.
End SnapshotFiles.

(** ** The vocabulary of runs and sweeps *)

Module RunSpec.
Import SingleSenderStats.

(** The calls of a run carry consecutive sequence numbers from [start]
    on, modulo 2^16. *)
Definition isConsecutive (start : Z) (calls : list Observation) : Prop :=
  forall (i : nat) o, calls !! i = Some o -> obs_sequence o = to_u16 (start + Z.of_nat i).

(** The calls of a run that the tracker does not ignore. *)
Fixpoint acceptedCalls (s : t) (calls : list Observation) : list Observation :=
  match calls with
  | [] => []
  | o :: rest =>
      (if unreasonableGap s (obs_sequence o) then [] else [o])
      ++ acceptedCalls (fst (observe s o)) rest
  end.

(** The sum of one argument over a list of calls. *)
Definition sumOf (f : Observation -> Z) (calls : list Observation) : Z :=
  foldr (fun o acc => f o + acc) 0 calls.

End RunSpec.

Module SweepSpec.
Import OctreeInboundPacketProcessor.

(** A run of calls of the processor's [trackInboundPacket], each with the
    UUID of its node. *)
Definition trackAll (self : t) (calls : list (Z * SingleSenderStats.Observation)) : t :=
  foldl (fun self call =>
           fst (trackInboundPacket self call.1
                  (SingleSenderStats.obs_sequence call.2)
                  (SingleSenderStats.obs_transitTime call.2)
                  (SingleSenderStats.obs_editsInPacket call.2)
                  (SingleSenderStats.obs_processTime call.2)
                  (SingleSenderStats.obs_lockWaitTime call.2)))
        self calls.

(** The calls of a run that come from one node, in order. *)
Fixpoint callsFrom (nodeUUID : Z) (calls : list (Z * SingleSenderStats.Observation))
    : list SingleSenderStats.Observation :=
  match calls with
  | [] => []
  | call :: rest =>
      if decide (call.1 = nodeUUID) then call.2 :: callsFrom nodeUUID rest
      else callsFrom nodeUUID rest
  end.


(** The UUID of the last known sender of a run, or what the reference
    held before the run when it has none. *)
Definition lastKnownSender (ref : Z) (senders : list (option Node)) : Z :=
  foldl (fun ref sendingNode =>
           match sendingNode with
           | Some node => getUUID node
           | None => ref
           end)
        ref senders.

Section PacketRuns.
Variable server : Server.

End PacketRuns.

(** A batch of datagrams for one tracked sender: each is handed to what
    [nodeHash] holds for the UUID of the sender, carries at least one
    number and fits a packet; together they carry the missing set of the
    sender, and there is none when that set is empty. *)
Definition batchFor (MAX_PACKET_SIZE : Z) (nodeHash : Z -> option Node)
    (batch : Z * SingleSenderStats.t * list Datagram) : Prop :=
  Forall (fun d => dg_destination d = nodeHash batch.1.1
                   /\ 1 <= dg_numSequenceNumbers d
                   /\ dg_size d <= MAX_PACKET_SIZE)
         batch.2
  /\ ProcessorSpec.nackedSequenceNumbers batch.2
     = SingleSenderStats._missingSequenceNumbers batch.1.2
  /\ (SingleSenderStats._missingSequenceNumbers batch.1.2 = ∅ -> batch.2 = []).

(** The registry once the dead senders among [i] are erased. *)
Definition evictDead (isAlive : Z -> bool) (i : list (Z * SingleSenderStats.t))
    (senders : gmap Z SingleSenderStats.t) : gmap Z SingleSenderStats.t :=
  foldl (fun senders entry => if isAlive entry.1 then senders else delete entry.1 senders)
        senders i.

End SweepSpec.

(** ** More concrete inputs *)

Module MoreExamples.
Import OctreeInboundPacketProcessor OctreeUtils Examples.

(** An in-order run across the rollover. *)
Definition inOrderAcrossRollover : list SingleSenderStats.Observation :=
  [SingleSenderStats.mkObservation 65534 5 1 2 3;
   SingleSenderStats.mkObservation 65535 5 1 2 3;
   SingleSenderStats.mkObservation 0 5 1 2 3;
   SingleSenderStats.mkObservation 1 5 1 2 3].

(** A tracker that has seen 65534 only. *)
Definition statsAt65534 : SingleSenderStats.t :=
  fst (SingleSenderStats.observe SingleSenderStats.init
         (SingleSenderStats.mkObservation 65534 5 1 2 3)).

(** A processor that knows node 7, with 11, 12 and 13 missing, and node
    9, with nothing missing; only node 7 is alive. *)
Definition twoSenderProcessor : t :=
  {| _receivedPacketCount := 3;
     _totalTransitTime := 0;
     _totalProcessTime := 0;
     _totalLockWaitTime := 0;
     _totalElementsInPacket := 0;
     _totalPackets := 3;
     _lastNackTime := 0;
     _singleSenderStats := {[ 7 := gappyStats; 9 := SingleSenderStats.init ]} |}.

Definition onlySevenAlive (nodeUUID : Z) : bool := nodeUUID =? 7.

(** A node list that holds no node. *)
Definition nobodyListed (nodeUUID : Z) : option Node := None.


(** An envelope with a data version beyond [int] and an entity that is
    not an object, and what comes back of it. *)
Definition mixedEnvelope : RawEntityData :=
  mkRawEntityData 5 (2 ^ 31) 3 [] [VNumber 1; VMap [("A"%string, VNumber 1)]].

Definition mixedEnvelopeOnce : RawEntityData :=
  mkRawEntityData 5 (- 2 ^ 31) 3 [] [VMap []; VMap [("A"%string, VNumber 1)]].

(** A map with an id and entities but no version. *)
Definition mapWithoutVersion : list (string * QVariant) :=
  [("Id"%string, VString "1"%string); ("DataVersion"%string, VNumber 4);
   ("Entities"%string, VList [VMap []])].

(** A map with a full header and no entities. *)
Definition mapWithoutEntities : list (string * QVariant) :=
  [("Id"%string, VString "1"%string); ("DataVersion"%string, VNumber 4);
   ("Version"%string, VNumber 2)].

(** A file system with one gzipped file. *)
Definition oneGzippedFile (path : string) : option SymbolicBytes :=
  if String.eqb path "models.json.gz"
  then Some (Gzipped (JsonText mapWithoutEntities))
  else None.

End MoreExamples.

(** * Properties of the sequence tracker *)

Module TrackerFacts.
Import SingleSenderStats TrackerSpec Examples.

Ltac unfold_consts :=
  cbv [MAX_REASONABLE_SEQUENCE_GAP MAX_MISSING_SEQUENCE_SIZE
       UINT16_RANGE UINT16_MAX UINT64_RANGE is_u16 is_u64 to_u16 to_u64] in *.

(** Linear arithmetic with the divisions by constants spelled out. *)
Ltac zmod := unfold_consts; Z.to_euclidean_division_equations; lia.

Lemma to_u16_range x : is_u16 (to_u16 x).
Proof. zmod. Qed.

Lemma to_u16_id x : is_u16 x -> to_u16 x = x.
Proof. zmod. Qed.

Lemma to_u64_range x : is_u64 (to_u64 x).
Proof. zmod. Qed.

Lemma to_u64_add_l x y : to_u64 (to_u64 x + y) = to_u64 (x + y).
Proof. unfold to_u64. apply Zplus_mod_idemp_l. Qed.

(** A call whose gap is unreasonable returns at once: the tracker is
    untouched and one debug line is written. *)
Lemma track_rejected s i tt e p l :
  unreasonableGap s i = true ->
  trackInboundPacket s i tt e p l
  = (s, [IgnoringUnreasonablePacket i (_incomingLastSequence s)]).
Proof.
  unfold unreasonableGap, expectedSequence, trackInboundPacket.
  cbv [MAX_REASONABLE_SEQUENCE_GAP UINT16_RANGE UINT16_MAX]. cbn zeta.
  set (x := if _totalPackets s =? 0 then _ else _).
  intros [H1 H2]%andb_prop. apply Z.ltb_lt in H1, H2.
  destruct (Z.eqb_spec i x) as [Hix|_];
    [rewrite Hix, Z.sub_diag in H1; simpl in H1; lia|].
  destruct (Z.leb_spec (65535 + 1 - 1000) (Z.abs (i - x))); [lia|].
  destruct (Z.ltb_spec 1000 (Z.abs (i - x))); [reflexivity|lia].
Qed.

(** Every other call reaches the final block that updates the counters,
    and writes nothing. *)
Lemma track_accepted s i tt e p l :
  unreasonableGap s i = false ->
  exists last missing,
    trackInboundPacket s i tt e p l
    = (updateOtherStats (setSequenceState s last missing) tt e p l, []).
Proof.
  unfold unreasonableGap, expectedSequence, trackInboundPacket, accept.
  cbv [MAX_REASONABLE_SEQUENCE_GAP UINT16_RANGE UINT16_MAX]. cbn zeta.
  set (x := if _totalPackets s =? 0 then _ else _).
  intros H. apply andb_false_iff in H.
  rewrite !Z.ltb_ge in H.
  destruct (Z.eqb_spec i x); [eauto|].
  destruct (Z.leb_spec (65535 + 1 - 1000) (Z.abs (i - x))).
  - destruct (x <? i); [destruct (x <? i - _)|destruct (x - _ <? i)]; eauto.
  - destruct (Z.ltb_spec 1000 (Z.abs (i - x))); [lia|].
    destruct (x <? i); eauto.
Qed.

Lemma rejectedCalls_le s calls : (rejectedCalls s calls <= length calls)%nat.
Proof.
  revert s. induction calls as [|o rest IH]; intros s; simpl; [lia|].
  specialize (IH (fst (observe s o))).
  destruct (unreasonableGap s (obs_sequence o)); lia.
Qed.

(** The debug log of a run has one line per rejected call. *)
Lemma observeAll_log_length s calls :
  length (snd (observeAll s calls)) = rejectedCalls s calls.
Proof.
  revert s. induction calls as [|o rest IH]; intros s; simpl; [reflexivity|].
  specialize (IH (fst (observe s o))).
  destruct (observe s o) as [s1 log1] eqn:E1. simpl in IH.
  destruct (observeAll s1 rest) as [s2 log2]. simpl in *.
  rewrite length_app, IH. f_equal.
  unfold observe in E1.
  destruct (unreasonableGap s (obs_sequence o)) eqn:G.
  - rewrite track_rejected in E1 by exact G. by inversion E1.
  - destruct (track_accepted s (obs_sequence o) (obs_transitTime o)
                (obs_editsInPacket o) (obs_processTime o) (obs_lockWaitTime o) G)
      as (last & missing & E).
    rewrite E in E1. by inversion E1.
Qed.

(** The counter of a run, modulo the width of [quint64]. *)
Lemma observeAll_totalPackets s calls :
  is_u64 (_totalPackets s) ->
  _totalPackets (fst (observeAll s calls))
  = to_u64 (_totalPackets s
            + (Z.of_nat (length calls) - Z.of_nat (rejectedCalls s calls))).
Proof.
  revert s. induction calls as [|o rest IH]; intros s Hs.
  { simpl. zmod. }
  simpl. specialize (IH (fst (observe s o))).
  destruct (observe s o) as [s1 log1] eqn:E1. simpl in IH.
  destruct (observeAll s1 rest) as [s2 log2]. simpl in *.
  unfold observe in E1.
  destruct (unreasonableGap s (obs_sequence o)) eqn:G.
  - rewrite track_rejected in E1 by exact G. inversion E1; subst.
    rewrite IH by exact Hs. f_equal. lia.
  - destruct (track_accepted s (obs_sequence o) (obs_transitTime o)
                (obs_editsInPacket o) (obs_processTime o) (obs_lockWaitTime o) G)
      as (last & missing & E).
    rewrite E in E1. inversion E1; subst. simpl in IH.
    rewrite IH by apply to_u64_range.
    rewrite to_u64_add_l. f_equal. lia.
Qed.

Lemma elem_of_insertSkipped x expected incoming missing :
  x ∈ insertSkipped expected incoming missing
  <-> x ∈ missing
      \/ exists m, expected <= m < incoming
                   /\ x = (if m <? 0 then m + UINT16_RANGE else m).
Proof.
  unfold insertSkipped.
  assert (G : forall (l : list Z) (M : gset Z),
             x ∈ foldl (fun acc m => {[ if m <? 0 then m + UINT16_RANGE else m ]} ∪ acc) M l
             <-> x ∈ M \/ exists m, m ∈ l /\ x = (if m <? 0 then m + UINT16_RANGE else m)).
  { induction l as [|a l IH]; intros M; simpl.
    - split; [auto|]. intros [?|(m & Hm & _)]; [done|]. by apply elem_of_nil in Hm.
    - rewrite IH, elem_of_union, elem_of_singleton. split.
      + intros [[->|?]|(m & Hm & ->)]; [right; exists a|by left|right; exists m];
          split; auto; [left|by right].
      + intros [?|(m & Hm & ->)]; [left; by right|].
        apply elem_of_cons in Hm as [->|Hm]; [left; by left|right; eauto]. }
  rewrite G. setoid_rewrite elem_of_seqZ.
  split; (intros [?|(m & Hm & ->)]; [by left|right; exists m; split; [lia|done]]).
Qed.

Lemma elem_of_prune x last missing :
  x ∈ prune last missing
  <-> x ∈ missing
      /\ (Z.of_nat (size missing) <= MAX_MISSING_SEQUENCE_SIZE
          \/ pruneRemoves last x = false).
Proof.
  unfold prune.
  destruct (Z.ltb_spec MAX_MISSING_SEQUENCE_SIZE (Z.of_nat (size missing))).
  - rewrite elem_of_filter. split; [intros [? ?]; auto|].
    intros [? [?|?]]; [lia|auto].
  - split; [auto|]. by intros [? _].
Qed.

Lemma pruneRemoves_false last m :
  is_u16 last -> is_u16 m ->
  pruneRemoves last m = false <-> inWindow last m.
Proof.
  intros Hl Hm. unfold pruneRemoves, inWindow. cbn zeta.
  destruct (Z.leb_spec 0 (last - MAX_REASONABLE_SEQUENCE_GAP)).
  - rewrite orb_false_iff, Z.ltb_ge, Z.leb_gt. zmod.
  - rewrite andb_false_iff, Z.ltb_ge, Z.leb_gt. zmod.
Qed.

Section Signed.
Variables (s : t) (L S : Z) (tt e p l : Z).
Hypothesis Htotal : _totalPackets s <> 0.
Hypothesis Hlast : _incomingLastSequence s = to_u16 L.

Let M := _missingSequenceNumbers s.

Lemma track_on_time :
  S = L + 1 ->
  trackInboundPacket s (to_u16 S) tt e p l = accept s (to_u16 S) M tt e p l.
Proof.
  intros ->. unfold trackInboundPacket. cbn zeta.
  destruct (Z.eqb_spec (_totalPackets s) 0); [done|].
  rewrite Hlast.
  replace (to_u16 (to_u16 L + 1)) with (to_u16 (L + 1)) by zmod.
  by rewrite Z.eqb_refl.
Qed.

Lemma track_early :
  L + 1 < S <= L + 1 + MAX_REASONABLE_SEQUENCE_GAP ->
  exists M' : gset Z,
    trackInboundPacket s (to_u16 S) tt e p l = accept s (to_u16 S) M' tt e p l
    /\ forall x, x ∈ M' <-> x ∈ M \/ exists k, L < k < S /\ x = to_u16 k.
Proof.
  intros HD. unfold trackInboundPacket. cbn zeta.
  destruct (Z.eqb_spec (_totalPackets s) 0); [done|].
  rewrite Hlast.
  replace (to_u16 (to_u16 L + 1)) with (to_u16 (L + 1)) by zmod.
  set (i := to_u16 S). set (x := to_u16 (L + 1)).
  assert (Hi : is_u16 i) by apply to_u16_range.
  assert (Hx : is_u16 x) by apply to_u16_range.
  assert (Hd : i - x = S - (L + 1) \/ i - x = S - (L + 1) - UINT16_RANGE)
    by (subst i x; zmod).
  assert (Hsk : forall e' i', i' - e' = S - (L + 1) -> to_u16 e' = x ->
            - UINT16_RANGE <= e' -> i' < UINT16_RANGE ->
            forall y, y ∈ insertSkipped e' i' M
                      <-> y ∈ M \/ exists k, L < k < S /\ y = to_u16 k).
  { intros e' i' H1 H2 H3 H4 y. rewrite elem_of_insertSkipped.
    split; (intros [?|(m & Hm & ->)]; [by left|right]).
    - exists (m - e' + L + 1). split; [lia|].
      subst x. destruct (Z.ltb_spec m 0); zmod.
    - exists (m - (L + 1) + e'). split; [lia|].
      subst x. destruct (Z.ltb_spec (m - (L + 1) + e') 0); zmod. }
  destruct (Z.eqb_spec i x); [unfold_consts; lia|].
  destruct (Z.leb_spec (UINT16_RANGE - MAX_REASONABLE_SEQUENCE_GAP) (Z.abs (i - x))).
  - destruct (Z.ltb_spec x i); [unfold_consts; lia|].
    destruct (Z.ltb_spec (x - UINT16_RANGE) i); [|unfold_consts; lia].
    eexists; split; [reflexivity|]. apply Hsk; [lia|zmod|unfold_consts; lia..].
  - destruct (Z.ltb_spec MAX_REASONABLE_SEQUENCE_GAP (Z.abs (i - x)));
      [unfold_consts; lia|].
    destruct (Z.ltb_spec x i); [|unfold_consts; lia].
    eexists; split; [reflexivity|]. apply Hsk; [unfold_consts; lia|zmod|unfold_consts; lia..].
Qed.

Lemma track_late :
  L - MAX_REASONABLE_SEQUENCE_GAP < S <= L ->
  trackInboundPacket s (to_u16 S) tt e p l
  = accept s (_incomingLastSequence s) (M ∖ {[ to_u16 S ]}) tt e p l.
Proof.
  intros HD. unfold trackInboundPacket. cbn zeta.
  destruct (Z.eqb_spec (_totalPackets s) 0); [done|].
  rewrite Hlast.
  replace (to_u16 (to_u16 L + 1)) with (to_u16 (L + 1)) by zmod.
  set (i := to_u16 S). set (x := to_u16 (L + 1)).
  assert (Hi : is_u16 i) by apply to_u16_range.
  assert (Hx : is_u16 x) by apply to_u16_range.
  assert (Hd : i - x = S - (L + 1) \/ i - x = S - (L + 1) + UINT16_RANGE)
    by (subst i x; zmod).
  destruct (Z.eqb_spec i x); [unfold_consts; lia|].
  destruct (Z.leb_spec (UINT16_RANGE - MAX_REASONABLE_SEQUENCE_GAP) (Z.abs (i - x))).
  - destruct (Z.ltb_spec x i); [|unfold_consts; lia].
    destruct (Z.ltb_spec x (i - UINT16_RANGE)); [unfold_consts; lia|done].
  - destruct (Z.ltb_spec MAX_REASONABLE_SEQUENCE_GAP (Z.abs (i - x)));
      [unfold_consts; lia|].
    destruct (Z.ltb_spec x i); [unfold_consts; lia|done].
Qed.

Lemma track_too_late :
  S = L - MAX_REASONABLE_SEQUENCE_GAP ->
  trackInboundPacket s (to_u16 S) tt e p l
  = (s, [IgnoringUnreasonablePacket (to_u16 S) (_incomingLastSequence s)]).
Proof.
  intros HD. apply track_rejected.
  unfold unreasonableGap, expectedSequence.
  destruct (Z.eqb_spec (_totalPackets s) 0); [done|].
  rewrite Hlast.
  replace (to_u16 (to_u16 L + 1)) with (to_u16 (L + 1)) by zmod.
  set (i := to_u16 S). set (x := to_u16 (L + 1)).
  assert (Hd : i - x = S - (L + 1) \/ i - x = S - (L + 1) + UINT16_RANGE)
    by (subst i x; zmod).
  apply andb_true_iff. rewrite !Z.ltb_lt. unfold_consts; lia.
Qed.
End Signed.

Lemma prune_id last (missing : gset Z) :
  is_u16 last ->
  (forall m, m ∈ missing -> is_u16 m /\ inWindow last m) ->
  prune last missing = missing.
Proof.
  intros Hl H. apply set_eq. intros x. rewrite elem_of_prune.
  split; [by intros [? _]|]. intros Hx. split; [done|right].
  destruct (H x Hx). by apply pruneRemoves_false.
Qed.

Lemma aheadOf_spec F x :
  is_u16 F -> is_u16 x -> circularDistance x F <= MAX_REASONABLE_SEQUENCE_GAP ->
  - MAX_REASONABLE_SEQUENCE_GAP <= aheadOf F x <= MAX_REASONABLE_SEQUENCE_GAP
  /\ x = to_u16 (F + aheadOf F x).
Proof.
  unfold circularDistance, aheadOf. cbn zeta. intros HF Hx.
  destruct (Z.ltb_spec (to_u16 (x - F)) (UINT16_RANGE / 2)); zmod.
Qed.

Lemma circularDistance_offsets F d1 d2 :
  circularDistance (to_u16 (F + d1)) (to_u16 (F + d2)) <= MAX_REASONABLE_SEQUENCE_GAP ->
  Z.abs (d1 - d2) <= 3 * MAX_REASONABLE_SEQUENCE_GAP ->
  Z.abs (d1 - d2) <= MAX_REASONABLE_SEQUENCE_GAP.
Proof. unfold circularDistance. zmod. Qed.

Lemma to_u16_offsets_inj F k d :
  Z.abs (k - d) < UINT16_RANGE -> to_u16 (F + k) = to_u16 (F + d) -> k = d.
Proof. zmod. Qed.

Lemma accept_fields s last M tt e p l :
  let s' := fst (accept s last M tt e p l) in
  _incomingLastSequence s' = last
  /\ _missingSequenceNumbers s' = prune last M
  /\ _totalPackets s' = to_u64 (_totalPackets s + 1).
Proof. done. Qed.

Lemma runInv_step F T seen s x tt e p l :
  is_u16 F -> is_u16 x ->
  _totalPackets s <> 0 ->
  runInv F T seen s ->
  (forall y, y ∈ seen -> circularDistance x y <= MAX_REASONABLE_SEQUENCE_GAP) ->
  exists T', runInv F T' (x :: seen) (fst (trackInboundPacket s x tt e p l)).
Proof.
  intros HF Hx Htot [Htop Hlast Htopseen Hfirst Hseen Hmiss] Hpair.
  destruct (aheadOf_spec F x HF Hx (Hpair _ Hfirst)) as [Hd Hxd].
  revert Hd Hxd. generalize (aheadOf F x). intros d Hd ->.
  assert (HdT : Z.abs (d - T) <= MAX_REASONABLE_SEQUENCE_GAP).
  { apply (circularDistance_offsets F); [by apply Hpair|]. unfold_consts; lia. }
  assert (Hseen' : forall T', T <= T' -> d <= T' -> T' = T \/ T' = d ->
            forall y, y ∈ to_u16 (F + d) :: seen ->
            exists d', T' - MAX_REASONABLE_SEQUENCE_GAP <= d' <= T' /\ y = to_u16 (F + d')).
  { intros T' HT' HdT' HTd y [->|Hy]%elem_of_cons.
    - exists d. split; [unfold_consts; lia|done].
    - destruct (Hseen y Hy) as (dy & Hdy & ->). exists dy. split; [|done].
      destruct HTd as [-> | ->]; [lia|].
      assert (Z.abs (d - dy) <= MAX_REASONABLE_SEQUENCE_GAP).
      { apply (circularDistance_offsets F); [by apply Hpair|]. unfold_consts; lia. }
      unfold_consts; lia. }
  assert (Hprune : forall T' (M' : gset Z), 0 <= T' <= MAX_REASONABLE_SEQUENCE_GAP ->
            (forall z, z ∈ M' -> exists k, 0 < k < T' /\ z = to_u16 (F + k)) ->
            prune (to_u16 (F + T')) M' = M').
  { intros T' M' HT' HM'. apply prune_id; [apply to_u16_range|].
    intros m (k & Hk & ->)%HM'. split; [apply to_u16_range|].
    unfold inWindow. zmod. }
  assert (Hnew : forall k, k <> d -> Z.abs (k - d) < UINT16_RANGE ->
            to_u16 (F + k) <> to_u16 (F + d)).
  { intros k Hne Hk Heq%to_u16_offsets_inj; done. }
  destruct (Z.lt_trichotomy d (T + 1)) as [Hlt|[Heq|Hgt]].
  - destruct (Z.eq_dec d (T - MAX_REASONABLE_SEQUENCE_GAP)) as [Hrej|Hlate].
    + (* ignored *)
      exists T.
      rewrite (track_too_late s (F + T) (F + d)) by (done || lia). simpl.
      split; [done|done|by apply elem_of_cons; right|by apply elem_of_cons; right
             |apply Hseen'; [lia|lia|by left]|].
      intros z. rewrite Hmiss. split; intros (k & Hk & -> & Hn); exists k.
      * split; [done|split; [done|]]. rewrite not_elem_of_cons. split; [|done].
        apply Hnew; unfold_consts; lia.
      * apply not_elem_of_cons in Hn as [_ Hn]. done.
    + (* late *)
      exists T.
      rewrite (track_late s (F + T) (F + d)) by (done || unfold_consts; lia).
      rewrite Hlast.
      destruct (accept_fields s (to_u16 (F + T)) (_missingSequenceNumbers s ∖ {[to_u16 (F + d)]}) tt e p l)
        as (E1 & E2 & _).
      rewrite Hprune in E2; [|done|].
      2:{ intros z [Hz _]%elem_of_difference. apply Hmiss in Hz as (k & ? & ? & _); eauto. }
      split; [done|done|by apply elem_of_cons; right|by apply elem_of_cons; right
             |apply Hseen'; [lia|lia|by left]|].
      intros z. rewrite E2, elem_of_difference, elem_of_singleton, Hmiss.
      split.
      * intros [(k & Hk & -> & Hn) Hne]. exists k.
        rewrite not_elem_of_cons. done.
      * intros (k & Hk & -> & [Hne Hn]%not_elem_of_cons). split; [|done].
        exists k. done.
  - (* on time *)
    exists d.
    rewrite (track_on_time s (F + T) (F + d)) by (done || lia).
    destruct (accept_fields s (to_u16 (F + d)) (_missingSequenceNumbers s) tt e p l) as (E1 & E2 & _).
    rewrite Hprune in E2; [|unfold_consts; lia|].
    2:{ intros z Hz. apply Hmiss in Hz as (k & ? & ? & _). exists k. split; [lia|done]. }
    split; [unfold_consts; lia|done|by apply elem_of_cons; left|by apply elem_of_cons; right
           |apply Hseen'; [lia|lia|by right]|].
    intros z. rewrite E2, Hmiss. split.
    * intros (k & Hk & -> & Hn). exists k. split; [lia|split; [done|]].
      rewrite not_elem_of_cons. split; [|done].
      apply Hnew; unfold_consts; lia.
    * intros (k & Hk & -> & [Hne Hn]%not_elem_of_cons). exists k.
      split; [|done]. destruct (Z.eq_dec k T) as [->|]; [done|lia].
  - (* early *)
    exists d.
    destruct (track_early s (F + T) (F + d) tt e p l Htot Hlast) as (M' & E & HM');
      [unfold_consts; lia|].
    rewrite E.
    destruct (accept_fields s (to_u16 (F + d)) M' tt e p l) as (E1 & E2 & _).
    rewrite Hprune in E2; [|unfold_consts; lia|].
    2:{ intros z Hz. apply HM' in Hz as [Hz|(k & Hk & ->)].
        - apply Hmiss in Hz as (k & ? & ? & _). exists k. split; [lia|done].
        - exists (k - F). split; [lia|f_equal; lia]. }
    split; [unfold_consts; lia|done|by apply elem_of_cons; left|by apply elem_of_cons; right
           |apply Hseen'; [lia|lia|by right]|].
    intros z. rewrite E2, HM', Hmiss. split.
    * intros [(k & Hk & -> & Hn)|(k & Hk & ->)].
      -- exists k. split; [lia|split; [done|]].
         rewrite not_elem_of_cons. split; [|done].
         apply Hnew; unfold_consts; lia.
      -- exists (k - F). replace (F + (k - F)) with k by lia.
         split; [lia|split; [done|]].
         rewrite not_elem_of_cons. split.
         ++ replace k with (F + (k - F)) by lia. apply Hnew; unfold_consts; lia.
         ++ intros (dy & Hdy & Heq')%Hseen.
            replace k with (F + (k - F)) in Heq' by lia.
            apply to_u16_offsets_inj in Heq'; unfold_consts; lia.
    * intros (k & Hk & -> & [Hne Hn]%not_elem_of_cons).
      destruct (Z.lt_trichotomy k T) as [?|[->|?]].
      -- left. exists k. split; [lia|done].
      -- done.
      -- right. exists (F + k). split; [lia|done].
Qed.

Lemma totalPackets_step s x tt e p l (n : Z) :
  1 <= _totalPackets s -> _totalPackets s + n < UINT64_RANGE -> 1 <= n ->
  let s' := fst (trackInboundPacket s x tt e p l) in
  1 <= _totalPackets s' /\ _totalPackets s' + (n - 1) < UINT64_RANGE.
Proof.
  intros H1 H2 Hn. cbn zeta.
  destruct (unreasonableGap s x) eqn:G.
  - rewrite track_rejected by done. simpl. lia.
  - destruct (track_accepted s x tt e p l G) as (last & missing & ->). simpl.
    zmod.
Qed.

Lemma runInv_run F :
  is_u16 F ->
  forall (rest : list Observation) (seen : list Z) (s : t) (T : Z),
    runInv F T seen s ->
    1 <= _totalPackets s ->
    _totalPackets s + Z.of_nat (length rest) < UINT64_RANGE ->
    Forall is_u16 (obs_sequence <$> rest) ->
    pairwiseWithinGap (seen ++ (obs_sequence <$> rest)) ->
    exists T', runInv F T' (reverse (obs_sequence <$> rest) ++ seen) (fst (observeAll s rest)).
Proof.
  intros HF. induction rest as [|o rest IH]; intros seen s T Hinv Htot Hlen Hu Hpair.
  { exists T. done. }
  simpl. rewrite fmap_cons in Hu, Hpair. apply Forall_cons in Hu as [Hx Hu].
  destruct (runInv_step F T seen s (obs_sequence o) (obs_transitTime o)
              (obs_editsInPacket o) (obs_processTime o) (obs_lockWaitTime o))
    as [T1 Hinv1]; [done|done|lia|done| |].
  { intros y Hy. apply Hpair; rewrite elem_of_app, ?elem_of_cons; auto. }
  destruct (totalPackets_step s (obs_sequence o) (obs_transitTime o)
              (obs_editsInPacket o) (obs_processTime o) (obs_lockWaitTime o)
              (Z.of_nat (length (o :: rest)))) as [Ht1 Ht2];
    [done|done|simpl; lia|].
  unfold observe. 
  destruct (trackInboundPacket _ _ _ _ _ _) as [s1 log1]. simpl in *.
  destruct (IH (obs_sequence o :: seen) s1 T1) as [T' HT']; [done|done|lia|done| |].
  { intros a b Ha Hb.
    apply Hpair; [clear Hb; revert Ha|clear Ha; revert Hb];
      repeat (rewrite elem_of_app || rewrite elem_of_cons); tauto. }
  exists T'. destruct (observeAll s1 rest) as [s2 log2]. simpl in *.
  by rewrite reverse_cons, <- app_assoc.
Qed.

Lemma furthestAhead_nonneg F l : 0 <= furthestAhead F l.
Proof. induction l; simpl; lia. Qed.

Lemma furthestAhead_ub F l y : y ∈ l -> aheadOf F y <= furthestAhead F l.
Proof.
  induction l as [|a l IH]; [by intros ?%elem_of_nil|].
  intros [->|Hy]%elem_of_cons; simpl; [lia|]. specialize (IH Hy). lia.
Qed.

Lemma furthestAhead_attained F l :
  furthestAhead F l = 0 \/ exists y, y ∈ l /\ aheadOf F y = furthestAhead F l.
Proof.
  induction l as [|a l IH]; [by left|]. simpl.
  destruct (Z.max_spec (aheadOf F a) (furthestAhead F l)) as [[_ ->]|[_ ->]].
  - destruct IH as [?|(y & Hy & ?)]; [by left|right].
    exists y. split; [by apply elem_of_cons; right|done].
  - right. exists a. split; [by apply elem_of_cons; left|done].
Qed.

Lemma aheadOf_offset F d :
  - MAX_REASONABLE_SEQUENCE_GAP <= d <= MAX_REASONABLE_SEQUENCE_GAP ->
  aheadOf F (to_u16 (F + d)) = d.
Proof.
  intros Hd. unfold aheadOf. cbn zeta.
  destruct (Z.ltb_spec (to_u16 (to_u16 (F + d) - F)) (UINT16_RANGE / 2)); zmod.
Qed.

Lemma runInv_furthestAhead F T seen s :
  runInv F T seen s -> furthestAhead F seen = T.
Proof.
  intros [Htop Hlast Htopseen Hfirst Hseen Hmiss].
  assert (Hub : forall y, y ∈ seen -> aheadOf F y <= T).
  { intros y (d & Hd & ->)%Hseen. rewrite aheadOf_offset; unfold_consts; lia. }
  pose proof (furthestAhead_ub F seen _ Htopseen) as Hge.
  rewrite aheadOf_offset in Hge by (unfold_consts; lia).
  destruct (furthestAhead_attained F seen) as [H0|(y & Hy & Hy')].
  - lia.
  - specialize (Hub y Hy). lia.
Qed.

Lemma furthestAhead_ext F l1 l2 :
  (forall y, y ∈ l1 <-> y ∈ l2) -> furthestAhead F l1 = furthestAhead F l2.
Proof.
  intros H.
  assert (G : forall a b, (forall y, y ∈ a -> y ∈ b) -> furthestAhead F a <= furthestAhead F b).
  { intros a b Hab.
    destruct (furthestAhead_attained F a) as [->|(y & Hy & Hy')].
    - apply furthestAhead_nonneg.
    - rewrite <- Hy'. apply furthestAhead_ub. auto. }
  apply Z.le_antisymm; apply G; intros y; apply H.
Qed.

Lemma observeAll_cons_fst s o rest :
  fst (observeAll s (o :: rest)) = fst (observeAll (fst (observe s o)) rest).
Proof.
  simpl. destruct (observe s o) as [s1 log1]. simpl.
  by destruct (observeAll s1 rest).
Qed.

Lemma elem_of_between (x a b : Z) :
  x ∈ between a b
  <-> to_u16 (b - a) <= MAX_REASONABLE_SEQUENCE_GAP
      /\ exists k, 0 <= k <= to_u16 (b - a) /\ x = to_u16 (a + k).
Proof.
  unfold between. cbn zeta.
  destruct (Z.leb_spec (to_u16 (b - a)) MAX_REASONABLE_SEQUENCE_GAP) as [Hd|Hd].
  - rewrite elem_of_list_to_set, list_elem_of_fmap. setoid_rewrite elem_of_seqZ.
    split.
    + intros (k & -> & Hk). split; [done|]. exists k. split; [lia|done].
    + intros (_ & k & Hk & ->). exists k. split; [done|lia].
  - split; [by intros ?%elem_of_empty|]. intros [? _]. lia.
Qed.

Lemma elem_of_expectedRange (x : Z) (seqs : list Z) :
  x ∈ expectedRange seqs
  <-> exists a b, a ∈ seqs /\ b ∈ seqs /\ x ∈ between a b.
Proof.
  unfold expectedRange. rewrite elem_of_union_list. split.
  - intros (X & (a & -> & Ha)%list_elem_of_fmap & Hx).
    apply elem_of_union_list in Hx as (Y & (b & -> & Hb)%list_elem_of_fmap & Hx).
    eauto.
  - intros (a & b & Ha & Hb & Hx). eexists. split.
    + apply list_elem_of_fmap. exists a. split; [reflexivity|done].
    + apply elem_of_union_list. eexists. split; [|exact Hx].
      apply list_elem_of_fmap. exists b. split; [reflexivity|done].
Qed.

(** C1 (counterexample): 10 and then 8 lie within the gap of each other,
    9 lies between them and was never received, and the tracker does not
    hold it as missing: a late arrival only ever removes a number. *)
Lemma number_behind_first_arrival_not_missing :
  let calls := [mkObservation 10 0 0 0 0; mkObservation 8 0 0 0 0] in
  let seqs := obs_sequence <$> calls in
  let s := fst (observeAll init calls) in
  Forall is_u16 seqs
  /\ pairwiseWithinGap seqs
  /\ 9 ∈ expectedRange seqs ∖ list_to_set seqs
  /\ _missingSequenceNumbers s = ∅
  /\ _missingSequenceNumbers s <> expectedRange seqs ∖ list_to_set seqs.
Proof.
  cbn zeta.
  assert (H9 : 9 ∈ expectedRange (obs_sequence <$> [mkObservation 10 0 0 0 0;
                                                     mkObservation 8 0 0 0 0])
                   ∖ list_to_set (obs_sequence <$> [mkObservation 10 0 0 0 0;
                                                    mkObservation 8 0 0 0 0]))
    by (by vm_compute).
  assert (Hm : _missingSequenceNumbers
                 (fst (observeAll init [mkObservation 10 0 0 0 0; mkObservation 8 0 0 0 0]))
               = ∅) by (by vm_compute).
  split; [repeat constructor; vm_compute; congruence|].
  split.
  { intros a b Ha Hb. simpl in Ha, Hb.
    repeat (apply elem_of_cons in Ha as [-> | Ha]);
      repeat (apply elem_of_cons in Hb as [-> | Hb]);
      try (by apply elem_of_nil in Ha); try (by apply elem_of_nil in Hb);
      vm_compute; congruence. }
  split; [exact H9|]. split; [exact Hm|].
  rewrite Hm. intros E. rewrite <- E in H9. by apply elem_of_empty in H9.
Qed.

(** C1: for a run of calls on a fresh tracker whose sequence numbers lie
    pairwise within [MAX_REASONABLE_SEQUENCE_GAP] of each other on the
    16-bit circle, in any order of on-time, early and late arrivals, the
    tracker ends on the number furthest ahead of the first one, and its
    missing set holds the numbers from the first one received up to the
    furthest ahead, modulo 2^16, that were never received.  These are
    among the numbers of the expected range that were never received, and
    they are all of them when no number lies behind the first one. *)
Theorem missing_is_range_since_first_minus_received
    (first : Observation) (rest : list Observation) :
  let calls := first :: rest in
  let seqs := obs_sequence <$> calls in
  Forall is_u16 seqs ->
  pairwiseWithinGap seqs ->
  Z.of_nat (length calls) < UINT64_RANGE ->
  let s := fst (observeAll init calls) in
  _incomingLastSequence s
    = to_u16 (obs_sequence first + furthestAhead (obs_sequence first) seqs)
  /\ _missingSequenceNumbers s
     = rangeSinceFirst (obs_sequence first) seqs ∖ list_to_set seqs
  /\ _missingSequenceNumbers s ⊆ expectedRange seqs ∖ list_to_set seqs
  /\ ((forall x, x ∈ seqs -> 0 <= aheadOf (obs_sequence first) x) ->
      _missingSequenceNumbers s = expectedRange seqs ∖ list_to_set seqs).
Proof.
  cbn zeta. rewrite fmap_cons. set (F := obs_sequence first).
  intros [HF Hu]%Forall_cons Hpair Hlen.
  assert (E1 : observe init first
               = accept init F ∅ (obs_transitTime first) (obs_editsInPacket first)
                        (obs_processTime first) (obs_lockWaitTime first)).
  { unfold observe, trackInboundPacket. simpl. by rewrite Z.eqb_refl. }
  rewrite observeAll_cons_fst, E1. unfold accept. cbn [fst].
  set (s1 := updateOtherStats _ _ _ _ _).
  assert (Hinv1 : runInv F 0 [F] s1).
  { split; simpl.
    - unfold_consts; lia.
    - rewrite Z.add_0_r. symmetry. by apply to_u16_id.
    - rewrite Z.add_0_r, to_u16_id by done. by apply list_elem_of_singleton.
    - by apply list_elem_of_singleton.
    - intros y ->%list_elem_of_singleton. exists 0.
      rewrite Z.add_0_r, to_u16_id by done. unfold_consts; lia.
    - intros x. split; [by intros [?%elem_of_empty _]%elem_of_prune|].
      intros (k & ? & _). lia. }
  assert (Htot1 : _totalPackets s1 = 1) by reflexivity.
  destruct (runInv_run F HF rest [F] s1 0 Hinv1) as [T Hinv];
    [lia|rewrite Htot1; simpl length in Hlen; lia|done|done|].
  assert (Hmem : forall y, y ∈ reverse (obs_sequence <$> rest) ++ [F]
                           <-> y ∈ F :: (obs_sequence <$> rest)).
  { intros y. rewrite elem_of_app, !elem_of_cons, elem_of_reverse, elem_of_nil. tauto. }
  assert (HT : furthestAhead F (F :: (obs_sequence <$> rest)) = T).
  { rewrite <- (furthestAhead_ext F _ _ Hmem). by eapply runInv_furthestAhead. }
  destruct Hinv as [Htop Hlast Htopseen Hfirst Hseen Hmiss].
  assert (Hrange : _missingSequenceNumbers (fst (observeAll s1 rest))
                   = rangeSinceFirst F (F :: (obs_sequence <$> rest))
                     ∖ list_to_set (F :: (obs_sequence <$> rest))).
  { apply set_eq. intros x. unfold rangeSinceFirst. rewrite HT.
    rewrite Hmiss, elem_of_difference, !elem_of_list_to_set, list_elem_of_fmap.
    setoid_rewrite elem_of_seqZ. rewrite <- Hmem. split.
    - intros (k & Hk & -> & Hn). split; [|done]. exists k. split; [done|lia].
    - intros [(k & -> & Hk) Hn]. exists k. split; [|done].
      destruct (Z.eq_dec k 0) as [->|]; [|destruct (Z.eq_dec k T) as [->|]; [done|lia]].
      exfalso. apply Hn. rewrite Z.add_0_r, to_u16_id by done. done. }
  assert (Hsub : forall x, x ∈ _missingSequenceNumbers (fst (observeAll s1 rest)) ->
                           x ∈ expectedRange (F :: (obs_sequence <$> rest))
                               ∖ list_to_set (F :: (obs_sequence <$> rest))).
  { intros x (k & Hk & -> & Hn)%Hmiss.
    rewrite elem_of_difference, elem_of_list_to_set, <- Hmem. split; [|done].
    apply elem_of_expectedRange. exists F, (to_u16 (F + T)).
    rewrite <- !Hmem. split; [done|]. split; [done|].
    apply elem_of_between.
    assert (Hd : to_u16 (to_u16 (F + T) - F) = T) by zmod.
    rewrite Hd. split; [lia|]. exists k. split; [lia|done]. }
  split; [by rewrite HT|]. split; [exact Hrange|]. split; [exact Hsub|].
  intros Hahead. apply set_eq. intros x. split; [apply Hsub|].
  rewrite elem_of_difference, elem_of_list_to_set, <- Hmem.
  intros [(a & b & Ha & Hb & Hx)%elem_of_expectedRange Hn].
  apply elem_of_between in Hx as (Hd & k & Hk & ->).
  pose proof (Hahead a Ha) as Haa. pose proof (Hahead b Hb) as Hab.
  apply Hmem, Hseen in Ha as (da & Hda & ->).
  apply Hmem, Hseen in Hb as (db & Hdb & ->).
  rewrite aheadOf_offset in Haa by (unfold_consts; lia).
  rewrite aheadOf_offset in Hab by (unfold_consts; lia).
  assert (Hle : da <= db /\ to_u16 (to_u16 (F + db) - to_u16 (F + da)) = db - da) by zmod.
  destruct Hle as [Hle Hdd]. rewrite Hdd in Hk.
  assert (Ex : to_u16 (to_u16 (F + da) + k) = to_u16 (F + (da + k))) by zmod.
  rewrite Ex in Hn |- *.
  apply Hmiss. exists (da + k).
  destruct (Z.eq_dec (da + k) 0) as [E0|].
  { exfalso. apply Hn. rewrite E0, Z.add_0_r, to_u16_id by done. done. }
  destruct (Z.eq_dec (da + k) T) as [ET|].
  { exfalso. apply Hn. rewrite ET. done. }
  split; [lia|]. split; [done|exact Hn].
Qed.

Lemma size_list_to_set_le (l : list Z) :
  (size (list_to_set (C:=gset Z) l) <= length l)%nat.
Proof.
  induction l as [|a l IH].
  - by rewrite list_to_set_nil, size_empty.
  - rewrite list_to_set_cons, size_union_alt, size_singleton. cbn [length].
    pose proof (subseteq_size (list_to_set l ∖ {[a]}) (list_to_set (C:=gset Z) l)) as H.
    assert (list_to_set l ∖ {[a]} ⊆ list_to_set (C:=gset Z) l) as Hs
      by apply subseteq_difference_l, reflexivity.
    specialize (H Hs). lia.
Qed.

Lemma window_size last (missing : gset Z) :
  (forall m, m ∈ missing -> is_u16 m /\ inWindow last m) ->
  Z.of_nat (size missing) <= MAX_REASONABLE_SEQUENCE_GAP.
Proof.
  intros H.
  set (W := list_to_set (C:=gset Z)
              ((fun k => to_u16 (last - k)) <$> seqZ 0 MAX_REASONABLE_SEQUENCE_GAP)).
  assert (Hsub : missing ⊆ W).
  { intros m Hm. destruct (H m Hm) as [Hu Hw]. unfold W.
    rewrite elem_of_list_to_set, list_elem_of_fmap.
    exists (to_u16 (last - m)). rewrite elem_of_seqZ. unfold inWindow in Hw.
    split; zmod. }
  apply subseteq_size in Hsub.
  pose proof (size_list_to_set_le
                ((fun k => to_u16 (last - k)) <$> seqZ 0 MAX_REASONABLE_SEQUENCE_GAP)) as Hle.
  rewrite length_fmap, length_seqZ in Hle. fold W in Hle.
  unfold_consts. lia.
Qed.

Lemma track_shape s x tt e p l :
  is_u16 x -> is_u16 (_incomingLastSequence s) ->
  (forall m, m ∈ _missingSequenceNumbers s -> is_u16 m) ->
  trackInboundPacket s x tt e p l
    = (s, [IgnoringUnreasonablePacket x (_incomingLastSequence s)])
  \/ exists last' (M' : gset Z),
       trackInboundPacket s x tt e p l = accept s last' M' tt e p l
       /\ is_u16 last' /\ forall m, m ∈ M' -> is_u16 m.
Proof.
  intros Hx Hl HM. unfold trackInboundPacket. cbn zeta.
  set (ex := if _totalPackets s =? 0 then _ else _).
  assert (Hex : is_u16 ex).
  { unfold ex. destruct (_ =? 0); [done|apply to_u16_range]. }
  assert (Hsk : forall e' i', - UINT16_RANGE <= e' -> i' <= UINT16_MAX ->
            forall m, m ∈ insertSkipped e' i' (_missingSequenceNumbers s) -> is_u16 m).
  { intros e' i' He' Hi' m [?|(k & Hk & ->)]%elem_of_insertSkipped; [auto|].
    destruct (Z.ltb_spec k 0); unfold_consts; lia. }
  assert (Hrm : forall m, m ∈ _missingSequenceNumbers s ∖ {[x]} -> is_u16 m).
  { intros m [Hm _]%elem_of_difference. auto. }
  destruct (x =? ex); [right; eauto|].
  destruct (_ <=? Z.abs _).
  - destruct (ex <? x).
    + destruct (ex <? x - _); right; do 2 eexists; (split; [reflexivity|split; [done|]]);
        [apply Hsk; unfold_consts; lia|done].
    + destruct (ex - _ <? x); right; do 2 eexists; (split; [reflexivity|split; [done|]]);
        [apply Hsk; unfold_consts; lia|done].
  - destruct (_ <? Z.abs _); [by left|].
    destruct (ex <? x); right; do 2 eexists; (split; [reflexivity|split; [done|]]);
      [apply Hsk; unfold_consts; lia|done].
Qed.

Lemma sizeInv_accept s last' (M' : gset Z) tt e p l :
  is_u16 last' -> (forall m, m ∈ M' -> is_u16 m) ->
  sizeInv (fst (accept s last' M' tt e p l)).
Proof.
  intros Hl HM. split; simpl.
  - done.
  - intros m [Hm _]%elem_of_prune. auto.
  - unfold prune.
    destruct (Z.ltb_spec MAX_MISSING_SEQUENCE_SIZE (Z.of_nat (size M'))); [right|by left].
    intros m [Hf Hm]%elem_of_filter. apply pruneRemoves_false; auto.
Qed.

Lemma sizeInv_step s x tt e p l :
  is_u16 x -> sizeInv s -> sizeInv (fst (trackInboundPacket s x tt e p l)).
Proof.
  intros Hx Hs.
  destruct (track_shape s x tt e p l Hx (sz_last s Hs) (sz_u16 s Hs))
    as [->|(last' & M' & -> & Hl & HM)]; [done|].
  by apply sizeInv_accept.
Qed.

Lemma sizeInv_run calls : forall s,
  Forall is_u16 (obs_sequence <$> calls) -> sizeInv s ->
  sizeInv (fst (observeAll s calls)).
Proof.
  induction calls as [|o rest IH]; intros s Hu Hs; [done|].
  rewrite fmap_cons in Hu. apply Forall_cons in Hu as [Hx Hu].
  rewrite observeAll_cons_fst. apply IH; [done|]. by apply sizeInv_step.
Qed.

Lemma sizeInv_init : sizeInv init.
Proof.
  split.
  - by vm_compute.
  - by intros m ?%elem_of_empty.
  - left. by vm_compute.
Qed.

(** C2 (amended): when a call returns, the missing set holds at most
    [MAX_REASONABLE_SEQUENCE_GAP] numbers, and whenever it holds more than
    [MAX_MISSING_SEQUENCE_SIZE] each of them is among the
    [MAX_REASONABLE_SEQUENCE_GAP] numbers ending at the last sequence number,
    modulo 2^16: the pruning drops by age, not by count. *)
Theorem missing_bounded_by_gap (calls : list Observation) :
  Forall is_u16 (obs_sequence <$> calls) ->
  let s := fst (observeAll init calls) in
  Z.of_nat (size (_missingSequenceNumbers s)) <= MAX_REASONABLE_SEQUENCE_GAP
  /\ (MAX_MISSING_SEQUENCE_SIZE < Z.of_nat (size (_missingSequenceNumbers s)) ->
      forall m, m ∈ _missingSequenceNumbers s ->
                to_u16 (_incomingLastSequence s - m) < MAX_REASONABLE_SEQUENCE_GAP).
Proof.
  intros Hu s.
  destruct (sizeInv_run calls init Hu sizeInv_init) as [Hl HM Hw]. fold s in Hl, HM, Hw.
  split.
  - destruct Hw as [Hw|Hw]; [unfold_consts; lia|].
    apply (window_size (_incomingLastSequence s)). auto.
  - intros Hbig. destruct Hw as [Hw|Hw]; [lia|exact Hw].
Qed.

(** ** The claims about the tracker *)

Lemma missing_is_range_since_first_minus_received_witness :
  Forall is_u16 (obs_sequence <$> run_across_rollover)
  /\ pairwiseWithinGap (obs_sequence <$> run_across_rollover)
  /\ Z.of_nat (length run_across_rollover) < UINT64_RANGE
  /\ _incomingLastSequence (fst (observeAll init run_across_rollover))
     = to_u16 (65534 + furthestAhead 65534 (obs_sequence <$> run_across_rollover))
  /\ _missingSequenceNumbers (fst (observeAll init run_across_rollover))
     = rangeSinceFirst 65534 (obs_sequence <$> run_across_rollover)
       ∖ list_to_set (obs_sequence <$> run_across_rollover)
  /\ _missingSequenceNumbers (fst (observeAll init run_across_rollover))
     ⊆ expectedRange (obs_sequence <$> run_across_rollover)
       ∖ list_to_set (obs_sequence <$> run_across_rollover)
  /\ (forall x, x ∈ obs_sequence <$> run_across_rollover -> 0 <= aheadOf 65534 x)
  /\ _missingSequenceNumbers (fst (observeAll init run_across_rollover))
     = expectedRange (obs_sequence <$> run_across_rollover)
       ∖ list_to_set (obs_sequence <$> run_across_rollover).
Proof.
  assert (Hu : Forall is_u16 (obs_sequence <$> run_across_rollover)).
  { repeat constructor; vm_compute; congruence. }
  assert (Hp : pairwiseWithinGap (obs_sequence <$> run_across_rollover)).
  { intros a b Ha Hb. simpl in Ha, Hb.
    repeat (apply elem_of_cons in Ha as [->|Ha]);
      repeat (apply elem_of_cons in Hb as [->|Hb]);
      try (by apply elem_of_nil in Ha); try (by apply elem_of_nil in Hb);
      vm_compute; congruence. }
  assert (Hl : Z.of_nat (length run_across_rollover) < UINT64_RANGE) by reflexivity.
  assert (Ha : forall x, x ∈ obs_sequence <$> run_across_rollover -> 0 <= aheadOf 65534 x).
  { intros x Hx. simpl in Hx.
    repeat (apply elem_of_cons in Hx as [-> | Hx]);
      try (by apply elem_of_nil in Hx); vm_compute; congruence. }
  split; [exact Hu|split; [exact Hp|split; [exact Hl|]]].
  destruct (missing_is_range_since_first_minus_received
              (mkObservation 65534 10 1 2 3)
              [mkObservation 1 11 1 2 3; mkObservation 65535 12 2 2 3] Hu Hp Hl)
    as (R1 & R2 & R3 & R4).
  split; [exact R1|]. split; [exact R2|]. split; [exact R3|].
  split; [exact Ha|exact (R4 Ha)].
Defined.

(** C2 (counterexample): after 1000 and then 2000 the call returns with
    999 numbers in the missing set, more than [MAX_MISSING_SEQUENCE_SIZE]. *)
Lemma missing_exceeds_max_size :
  let s := fst (observeAll init [mkObservation 1000 0 0 0 0; mkObservation 2000 0 0 0 0]) in
  size (_missingSequenceNumbers s) = 999%nat
  /\ ~ Z.of_nat (size (_missingSequenceNumbers s)) <= MAX_MISSING_SEQUENCE_SIZE.
Proof. split; [by vm_compute|]. vm_compute. congruence. Qed.

Lemma missing_bounded_by_gap_witness :
  Forall is_u16 (obs_sequence <$> [mkObservation 1000 0 0 0 0; mkObservation 2000 0 0 0 0])
  /\ let s := fst (observeAll init [mkObservation 1000 0 0 0 0; mkObservation 2000 0 0 0 0]) in
     Z.of_nat (size (_missingSequenceNumbers s)) <= MAX_REASONABLE_SEQUENCE_GAP
     /\ (MAX_MISSING_SEQUENCE_SIZE < Z.of_nat (size (_missingSequenceNumbers s)) ->
         forall m, m ∈ _missingSequenceNumbers s ->
                   to_u16 (_incomingLastSequence s - m) < MAX_REASONABLE_SEQUENCE_GAP).
Proof.
  assert (Hu : Forall is_u16
                 (obs_sequence <$> [mkObservation 1000 0 0 0 0; mkObservation 2000 0 0 0 0])).
  { repeat constructor; vm_compute; congruence. }
  split; [exact Hu|].
  exact (missing_bounded_by_gap
           [mkObservation 1000 0 0 0 0; mkObservation 2000 0 0 0 0] Hu).
Defined.

(** C3 (counterexample): after 100 and then 5000 the tracker has counted
    one packet, not two. *)
Lemma rejected_packet_not_counted :
  let s := fst (observeAll init [mkObservation 100 7 1 2 3; mkObservation 5000 7 1 2 3]) in
  _incomingLastSequence s = 100
  /\ _missingSequenceNumbers s = ∅
  /\ _totalPackets s = 1
  /\ _totalPackets s <> 2.
Proof. vm_compute. repeat split; congruence. Qed.

(** C3 (amended): on a tracker that has accepted a packet, a call whose gap
    exceeds [MAX_REASONABLE_SEQUENCE_GAP] and stays below
    [UINT16_RANGE - MAX_REASONABLE_SEQUENCE_GAP] returns before anything is
    written: the last sequence number, the missing set and the five counters
    are all as before, and one debug line is emitted.  Observing 100 and then
    5000 ends with last 100, nothing missing and one packet counted. *)
Theorem unreasonable_gap_leaves_tracker_unchanged
    (s : t) (incomingSequence transitTime editsInPacket processTime lockWaitTime : Z)
    (t1 e1 p1 l1 : Z) :
  _totalPackets s <> 0 ->
  MAX_REASONABLE_SEQUENCE_GAP
    < Z.abs (incomingSequence - to_u16 (_incomingLastSequence s + 1))
    < UINT16_RANGE - MAX_REASONABLE_SEQUENCE_GAP ->
  trackInboundPacket s incomingSequence transitTime editsInPacket processTime lockWaitTime
    = (s, [IgnoringUnreasonablePacket incomingSequence (_incomingLastSequence s)])
  /\ (let s2 := fst (observeAll init
                       [mkObservation 100 t1 e1 p1 l1;
                        mkObservation 5000 transitTime editsInPacket processTime lockWaitTime]) in
      _incomingLastSequence s2 = 100
      /\ _missingSequenceNumbers s2 = ∅
      /\ _totalPackets s2 = 1).
Proof.
  intros Htot Hgap. split.
  - apply track_rejected. unfold unreasonableGap, expectedSequence.
    destruct (Z.eqb_spec (_totalPackets s) 0); [done|].
    apply andb_true_iff. rewrite !Z.ltb_lt. exact Hgap.
  - cbn zeta. rewrite observeAll_cons_fst.
    set (s1 := fst (observe init (mkObservation 100 t1 e1 p1 l1))).
    assert (H1 : _totalPackets s1 = 1 /\ _incomingLastSequence s1 = 100
                 /\ _missingSequenceNumbers s1 = ∅) by (by vm_compute).
    destruct H1 as (Ht & Hl & Hm).
    rewrite observeAll_cons_fst. unfold observe at 1. simpl obs_sequence.
    rewrite track_rejected.
    + exact (conj Hl (conj Hm Ht)).
    + unfold unreasonableGap, expectedSequence. rewrite Ht, Hl. by vm_compute.
Qed.

Lemma unreasonable_gap_leaves_tracker_unchanged_witness :
  let s := fst (observe init (mkObservation 100 7 1 2 3)) in
  _totalPackets s <> 0
  /\ MAX_REASONABLE_SEQUENCE_GAP
       < Z.abs (5000 - to_u16 (_incomingLastSequence s + 1))
       < UINT16_RANGE - MAX_REASONABLE_SEQUENCE_GAP
  /\ trackInboundPacket s 5000 8 1 2 3
     = (s, [IgnoringUnreasonablePacket 5000 (_incomingLastSequence s)]).
Proof.
  cbn zeta.
  assert (H1 : _totalPackets (fst (observe init (mkObservation 100 7 1 2 3))) <> 0)
    by (vm_compute; congruence).
  assert (H2 : MAX_REASONABLE_SEQUENCE_GAP
               < Z.abs (5000 - to_u16 (_incomingLastSequence
                                         (fst (observe init (mkObservation 100 7 1 2 3))) + 1))
               < UINT16_RANGE - MAX_REASONABLE_SEQUENCE_GAP)
    by (by vm_compute).
  split; [exact H1|split; [exact H2|]].
  exact (proj1 (unreasonable_gap_leaves_tracker_unchanged
                  (fst (observe init (mkObservation 100 7 1 2 3))) 5000 8 1 2 3
                  7 1 2 3 H1 H2)).
Defined.

(** C4: after any run of calls on a fresh tracker, [_totalPackets] is the
    number of calls minus the number of calls ignored for an unreasonable
    gap (the counter is a [quint64]; the run is shorter than 2^64). *)
Theorem total_packets_counts_accepted_calls (calls : list Observation) :
  Z.of_nat (length calls) < UINT64_RANGE ->
  _totalPackets (fst (observeAll init calls))
  = Z.of_nat (length calls) - Z.of_nat (rejectedCalls init calls).
Proof.
  intros Hlen. rewrite observeAll_totalPackets by (by vm_compute).
  pose proof (rejectedCalls_le init calls).
  change (_totalPackets init) with 0. rewrite Z.add_0_l.
  unfold to_u64. apply Z.mod_small. lia.
Qed.

Lemma total_packets_counts_accepted_calls_witness :
  Z.of_nat (length [mkObservation 100 7 1 2 3; mkObservation 5000 7 1 2 3;
                    mkObservation 101 7 1 2 3]) < UINT64_RANGE
  /\ _totalPackets (fst (observeAll init
                           [mkObservation 100 7 1 2 3; mkObservation 5000 7 1 2 3;
                            mkObservation 101 7 1 2 3]))
     = Z.of_nat (length [mkObservation 100 7 1 2 3; mkObservation 5000 7 1 2 3;
                         mkObservation 101 7 1 2 3])
       - Z.of_nat (rejectedCalls init
                     [mkObservation 100 7 1 2 3; mkObservation 5000 7 1 2 3;
                      mkObservation 101 7 1 2 3]).
Proof.
  assert (Hl : Z.of_nat (length [mkObservation 100 7 1 2 3; mkObservation 5000 7 1 2 3;
                                 mkObservation 101 7 1 2 3]) < UINT64_RANGE)
    by reflexivity.
  split; [exact Hl|].
  exact (total_packets_counts_accepted_calls _ Hl).
Defined.

(** C5: on a fresh tracker, 65534 followed by 1 is taken for a rollover,
    the absolute gap between 1 and the expected 65535 being at least
    [UINT16_RANGE - MAX_REASONABLE_SEQUENCE_GAP]; the run ends with last
    sequence number 1 and the missing set {65535, 0}. *)
Theorem rollover_early_scenario (t1 e1 p1 l1 t2 e2 p2 l2 : Z) :
  let s1 := fst (trackInboundPacket init 65534 t1 e1 p1 l1) in
  let s2 := fst (trackInboundPacket s1 1 t2 e2 p2 l2) in
  expectedSequence s1 1 = 65535
  /\ UINT16_RANGE - MAX_REASONABLE_SEQUENCE_GAP <= Z.abs (1 - expectedSequence s1 1)
  /\ _incomingLastSequence s2 = 1
  /\ _missingSequenceNumbers s2 = {[ 65535; 0 ]}.
Proof. by vm_compute. Qed.

End TrackerFacts.

(** * Properties of the packet processor *)

Module ProcessorFacts.
Import TrackerFacts.
Import OctreeInboundPacketProcessor ProcessorSpec SweepSpec Examples MoreExamples.

Section NackFacts.
Variables (MAX_PACKET_SIZE numBytesPacketHeader : Z).
Variables (isAlive hasPacketsToProcessFrom : Z -> bool).
Variable nodeHash : Z -> option Node.
Hypothesis Hheader : 0 <= numBytesPacketHeader.
Hypothesis Hroom : numBytesPacketHeader + 2 * sizeof_u16 <= MAX_PACKET_SIZE.
Hypothesis Hmax : MAX_PACKET_SIZE <= UINT16_MAX.

Let room := (MAX_PACKET_SIZE - numBytesPacketHeader - sizeof_u16) / sizeof_u16.

Lemma roomFor_eq :
  numSequenceNumbersRoomFor MAX_PACKET_SIZE numBytesPacketHeader = room.
Proof.
  unfold numSequenceNumbersRoomFor, room, to_int, INT32_RANGE, sizeof_u16 in *.
  cbn zeta. zmod.
Qed.

Lemma room_bounds : 1 <= room <= UINT16_MAX.
Proof. unfold room, sizeof_u16 in *. zmod. Qed.

Lemma room_fits : numBytesPacketHeader + sizeof_u16 + sizeof_u16 * room <= MAX_PACKET_SIZE.
Proof. unfold room, sizeof_u16 in *. zmod. Qed.

Lemma packSequenceNumbers_take (n : nat) (iterator : list Z) (dataAt : Z) :
  (n <= length iterator)%nat ->
  packSequenceNumbers n iterator dataAt
  = Some (take n iterator, drop n iterator, dataAt + sizeof_u16 * Z.of_nat n).
Proof.
  revert iterator dataAt. induction n as [|n IH]; intros iterator dataAt Hn.
  - simpl. rewrite drop_0. do 2 f_equal. unfold sizeof_u16. lia.
  - destruct iterator as [|x iterator]; [simpl in Hn; lia|].
    simpl in Hn. simpl. rewrite IH by lia. do 2 f_equal. unfold sizeof_u16. lia.
Qed.

Lemma packNackPackets_spec (fuel : nat) (destinationNode : option Node) :
  forall iterator : list Z,
  (length iterator <= fuel)%nat ->
  exists datagrams,
    packNackPackets MAX_PACKET_SIZE numBytesPacketHeader fuel destinationNode
                    (Z.of_nat (length iterator)) iterator
    = Returned datagrams
    /\ packedGreedily room (Z.of_nat (length iterator)) datagrams
    /\ Forall (fun d => dg_size d <= MAX_PACKET_SIZE) datagrams
    /\ Forall (fun d => dg_destination d = destinationNode) datagrams
    /\ concat (dg_sequenceNumbers <$> datagrams) = iterator.
Proof.
  pose proof room_bounds as Hrb. pose proof room_fits as Hrf.
  induction fuel as [|fuel IH]; intros iterator Hlen.
  - destruct iterator; [|simpl in Hlen; lia].
    exists []. simpl. repeat split; constructor.
  - destruct (decide (iterator = [])) as [->|Hne].
    { exists []. simpl. repeat split; constructor. }
    assert (Hpos : 0 < Z.of_nat (length iterator)).
    { destruct iterator; [done|simpl; lia]. }
    cbn [packNackPackets]. rewrite roomFor_eq.
    destruct (Z.ltb_spec 0 (Z.of_nat (length iterator))); [|lia].
    set (count := Z.min (Z.of_nat (length iterator)) room).
    assert (Hcount : 1 <= count <= UINT16_MAX /\ count <= Z.of_nat (length iterator)
                     /\ count <= room) by (unfold count; lia).
    rewrite (to_u16_id count) by (unfold_consts; lia).
    rewrite packSequenceNumbers_take by lia.
    destruct (IH (drop (Z.to_nat count) iterator)) as (rest & E & Hg & Hs & Hd & Hc).
    { rewrite length_drop. lia. }
    rewrite length_drop in E, Hg.
    replace (Z.of_nat (length iterator - Z.to_nat count))
      with (Z.of_nat (length iterator) - count) in E, Hg by lia.
    rewrite E. eexists. split; [reflexivity|].
    split; [|split; [|split]].
    + simpl. rewrite length_take. fold count. repeat split; [lia|done].
    + constructor; [|done]. simpl. rewrite Z2Nat.id by lia.
      unfold sizeof_u16 in *. nia.
    + constructor; done.
    + rewrite fmap_cons. cbn [concat dg_sequenceNumbers]. rewrite Hc. apply take_drop.
Qed.

Lemma nackedSequenceNumbers_concat (datagrams : list Datagram) :
  nackedSequenceNumbers datagrams
  = list_to_set (concat (dg_sequenceNumbers <$> datagrams)).
Proof.
  unfold nackedSequenceNumbers. induction datagrams as [|d rest IH].
  - done.
  - rewrite !fmap_cons. cbn [concat]. rewrite list_to_set_app_L, <- IH. done.
Qed.

(** C6: for a live sender with no packets waiting and a non-empty missing
    set, the sweep hands the node to the packing loop; each datagram the loop
    builds holds the smaller of the sequence numbers remaining and
    [(MAX_PACKET_SIZE - header - sizeof(u16)) / sizeof(u16)], none is longer
    than [MAX_PACKET_SIZE] bytes, and together they carry exactly the
    missing set. *)
Theorem nack_datagrams_for_live_sender
    (fuel : nat) (nodeUUID : Z) (nodeStats : SingleSenderStats.t) :
  let missing := SingleSenderStats._missingSequenceNumbers nodeStats in
  isAlive nodeUUID = true ->
  hasPacketsToProcessFrom nodeUUID = false ->
  missing <> ∅ ->
  (size missing <= fuel)%nat ->
  exists datagrams,
    nackPacketsFor MAX_PACKET_SIZE numBytesPacketHeader nodeHash fuel nodeUUID nodeStats
    = Returned datagrams
    /\ (forall senders next packetsSent sent,
          sweepSenders MAX_PACKET_SIZE numBytesPacketHeader isAlive hasPacketsToProcessFrom
                       nodeHash (S fuel) senders ((nodeUUID, nodeStats) :: next) packetsSent sent
          = sweepSenders MAX_PACKET_SIZE numBytesPacketHeader isAlive hasPacketsToProcessFrom
                         nodeHash fuel senders next
                         (packetsSent + Z.of_nat (length datagrams)) (sent ++ datagrams))
    /\ datagrams <> []
    /\ packedGreedily ((MAX_PACKET_SIZE - numBytesPacketHeader - sizeof_u16) / sizeof_u16)
                      (Z.of_nat (size missing)) datagrams
    /\ Forall (fun d => dg_size d <= MAX_PACKET_SIZE) datagrams
    /\ nackedSequenceNumbers datagrams = missing.
Proof.
  intros missing Halive Hpending Hne Hfuel.
  assert (Hsize : size missing = length (elements missing)) by done.
  destruct (packNackPackets_spec fuel (nodeHash nodeUUID) (elements missing))
    as (datagrams & E & Hg & Hs & _ & Hc); [lia|].
  rewrite <- Hsize in E, Hg.
  exists datagrams.
  assert (En : nackPacketsFor MAX_PACKET_SIZE numBytesPacketHeader nodeHash fuel
                              nodeUUID nodeStats
               = Returned datagrams) by exact E.
  split; [exact En|].
  split; [|split; [|split; [|split]]].
  - intros senders next packetsSent sent.
    cbn [sweepSenders]. rewrite Halive, Hpending, En. done.
  - intros ->. simpl in Hg.
    apply Hne, leibniz_equiv, size_empty_inv. lia.
  - exact Hg.
  - exact Hs.
  - rewrite nackedSequenceNumbers_concat, Hc. apply list_to_set_elements_L.
Qed.

(** A live sender with packets waiting holds the iterator where it is. *)
Lemma sweepSenders_stuck (fuel : nat) :
  forall senders (i : list (Z * SingleSenderStats.t)) packetsSent sent,
    (exists nodeUUID nodeStats,
        (nodeUUID, nodeStats) ∈ i
        /\ isAlive nodeUUID = true /\ hasPacketsToProcessFrom nodeUUID = true) ->
    forall result,
      sweepSenders MAX_PACKET_SIZE numBytesPacketHeader isAlive hasPacketsToProcessFrom
                   nodeHash fuel senders i packetsSent sent
      <> Returned result.
Proof.
  induction fuel as [|fuel IH];
    intros senders i packetsSent sent (u & st & Hin & Halive & Hpending) result.
  - destruct i as [|[u' st'] next]; [by apply elem_of_nil in Hin|]. done.
  - destruct i as [|[u' st'] next]; [by apply elem_of_nil in Hin|].
    cbn [sweepSenders].
    destruct (isAlive u') eqn:Ea; cbn [negb].
    + destruct (hasPacketsToProcessFrom u') eqn:Ep.
      * apply IH. eauto 6.
      * assert (Hnext : (u, st) ∈ next).
        { apply elem_of_cons in Hin as [Heq|?]; [|done]. congruence. }
        destruct (nackPacketsFor _ _ _ _ _ _); [|done..].
        apply IH. eauto 6.
    + assert (Hnext : (u, st) ∈ next).
      { apply elem_of_cons in Hin as [Heq|?]; [|done]. congruence. }
      apply IH. eauto 6.
Qed.

Lemma sendNackPackets_stuck (fuel : nat) (self : t) (nodeUUID : Z) :
  is_Some (_singleSenderStats self !! nodeUUID) ->
  isAlive nodeUUID = true ->
  hasPacketsToProcessFrom nodeUUID = true ->
  forall result,
    sendNackPackets MAX_PACKET_SIZE numBytesPacketHeader isAlive hasPacketsToProcessFrom
                    nodeHash fuel self
    <> Returned result.
Proof.
  intros [st Hst] Halive Hpending result. unfold sendNackPackets.
  destruct (sweepSenders _ _ _ _ _ _ _ _ _ _) as [r| |] eqn:E; [|done..].
  exfalso. revert E. apply sweepSenders_stuck.
  exists nodeUUID, st. split; [|done]. by apply elem_of_map_to_list.
Qed.

(** Without a live sender that has packets waiting, the sweep returns,
    its count being the number of datagrams it sent. *)
Lemma sweepSenders_returns (bound : nat) :
  forall (i : list (Z * SingleSenderStats.t)) (fuel : nat) senders packetsSent sent,
    Forall (fun entry => isAlive entry.1 = true -> hasPacketsToProcessFrom entry.1 = false) i ->
    Forall (fun entry => (size (SingleSenderStats._missingSequenceNumbers entry.2) <= bound)%nat) i ->
    (length i + bound <= fuel)%nat ->
    exists senders' datagrams,
      sweepSenders MAX_PACKET_SIZE numBytesPacketHeader isAlive hasPacketsToProcessFrom
                   nodeHash fuel senders i packetsSent sent
      = Returned (senders', packetsSent + Z.of_nat (length datagrams), sent ++ datagrams).
Proof.
  induction i as [|[u st] next IH]; intros fuel senders packetsSent sent Hp Hb Hfuel.
  - exists senders, []. destruct fuel; simpl; by rewrite Z.add_0_r, app_nil_r.
  - apply Forall_cons in Hp as [Hp1 Hp]. apply Forall_cons in Hb as [Hb1 Hb].
    simpl in Hp1, Hb1, Hfuel.
    destruct fuel as [|fuel]; [lia|]. cbn [sweepSenders].
    destruct (isAlive u) eqn:Ea; cbn [negb].
    + rewrite Hp1 by done.
      destruct (packNackPackets_spec fuel (nodeHash u)
                  (elements (SingleSenderStats._missingSequenceNumbers st)))
        as (datagrams & E & _).
      { change (length (elements ?X)) with (size X). lia. }
      unfold nackPacketsFor.
      change (size (SingleSenderStats._missingSequenceNumbers st))
        with (length (elements (SingleSenderStats._missingSequenceNumbers st))).
      rewrite E.
      destruct (IH fuel senders (packetsSent + Z.of_nat (length datagrams)) (sent ++ datagrams))
        as (senders' & more & E'); [done|done|lia|].
      exists senders', (datagrams ++ more). rewrite E', length_app, app_assoc.
      do 3 f_equal. lia.
    + apply IH; [done|done|lia].
Qed.
End NackFacts.

(** C6 (witness): node 7 with 11, 12 and 13 missing, 24-byte datagrams
    and a 17-byte header, so that a datagram has room for two numbers. *)
Lemma nack_datagrams_for_live_sender_witness :
  0 <= 17
  /\ 17 + 2 * sizeof_u16 <= 24
  /\ 24 <= UINT16_MAX
  /\ SingleSenderStats._missingSequenceNumbers gappyStats <> ∅
  /\ (size (SingleSenderStats._missingSequenceNumbers gappyStats) <= 3)%nat
  /\ exists datagrams,
       nackPacketsFor 24 17 everyNodeListed 3 7 gappyStats = Returned datagrams
       /\ length datagrams = 2%nat
       /\ packedGreedily ((24 - 17 - sizeof_u16) / sizeof_u16)
            (Z.of_nat (size (SingleSenderStats._missingSequenceNumbers gappyStats)))
            datagrams
       /\ Forall (fun d => dg_size d <= 24) datagrams
       /\ nackedSequenceNumbers datagrams
          = SingleSenderStats._missingSequenceNumbers gappyStats.
Proof.
  assert (H1 : 0 <= 17) by lia.
  assert (H2 : 17 + 2 * sizeof_u16 <= 24) by (unfold sizeof_u16; lia).
  assert (H3 : 24 <= UINT16_MAX) by (unfold UINT16_MAX; lia).
  assert (H4 : SingleSenderStats._missingSequenceNumbers gappyStats <> ∅).
  { intros H. apply (f_equal size) in H. vm_compute in H. discriminate. }
  assert (H5 : (size (SingleSenderStats._missingSequenceNumbers gappyStats) <= 3)%nat).
  { vm_compute. lia. }
  split; [exact H1|split; [exact H2|split; [exact H3|split; [exact H4|split; [exact H5|]]]]].
  destruct (nack_datagrams_for_live_sender 24 17 (fun _ => true) (fun _ => false)
              everyNodeListed H1 H2 H3 3%nat 7 gappyStats eq_refl eq_refl H4 H5)
    as (datagrams & E & _ & _ & Hg & Hs & Hu).
  exists datagrams. split; [exact E|].
  split; [|split; [exact Hg|split; [exact Hs|exact Hu]]].
  vm_compute in E. injection E as <-. reflexivity.
Defined.

(** The processor's own totals are updated before the tracker of the
    sender sees the packet, whatever the tracker decides. *)
Lemma processor_totals_count_every_packet (self : t) (nodeUUID : Z)
    (sequence transitTime editsInPacket processTime lockWaitTime : Z) :
  _totalPackets (fst (trackInboundPacket self nodeUUID sequence transitTime
                                         editsInPacket processTime lockWaitTime))
  = to_u64 (_totalPackets self + 1).
Proof. reflexivity. Qed.

(** Observing 100 and then 5000 from one node: the processor has counted
    two packets, the tracker of the node one. *)
Lemma processor_counts_rejected_packet :
  let self1 := fst (trackInboundPacket emptyProcessor 7 100 0 1 0 0) in
  let self2 := fst (trackInboundPacket self1 7 5000 0 1 0 0) in
  _totalPackets self2 = 2
  /\ SingleSenderStats._totalPackets <$> (_singleSenderStats self2 !! 7) = Some 1.
Proof. by vm_compute. Qed.

(** C7 (failing input): node 7 is alive and has packets waiting.  The
    sweep never gets past it: whatever the number of iterations granted,
    they run out. *)
Theorem nack_sweep_stuck_on_pending_sender :
  forall fuel : nat,
    sendNackPackets 1500 17 (fun _ => true) (fun _ => true) everyNodeListed
                    fuel oneSenderProcessor
    = OutOfFuel.
Proof.
  intros fuel. unfold sendNackPackets.
  change (_singleSenderStats oneSenderProcessor) with ({[ 7 := gappyStats ]} : gmap Z _).
  rewrite map_to_list_singleton.
  assert (H : forall senders packetsSent sent,
             sweepSenders 1500 17 (fun _ => true) (fun _ => true) everyNodeListed
                          fuel senders [(7, gappyStats)] packetsSent sent = OutOfFuel).
  { induction fuel as [|fuel IH]; intros senders packetsSent sent; [done|].
    cbn [sweepSenders negb]. apply IH. }
  by rewrite H.
Qed.

Section EditLoop.
Variable server : Server.

Lemma processEdits_zero_stays (fuel : nat) (world : World server) packetType
    (packet : list Byte.byte) sendingNode (atByte editsInPacket processTime lockWaitTime : Z) :
  atByte < Z.of_nat (length packet) ->
  let '(startLock, w1) := usecTimestampNow server world in
  let '(startProcess, w2) := usecTimestampNow server w1 in
  let '(editDataBytesRead, w3) :=
    processEditPacketData server w2 packetType packet atByte
                          (Z.of_nat (length packet) - atByte) sendingNode in
  let '(endProcess, w4) := usecTimestampNow server w3 in
  editDataBytesRead = 0 ->
  processEdits server (S fuel) world packetType packet sendingNode
               atByte editsInPacket processTime lockWaitTime
  = processEdits server fuel w4 packetType packet sendingNode
                 atByte (editsInPacket + 1)
                 (to_u64 (processTime + to_u64 (endProcess - startProcess)))
                 (to_u64 (lockWaitTime + to_u64 (startProcess - startLock))).
Proof.
  intros Hlt. cbn [processEdits].
  destruct (Z.ltb_spec atByte (Z.of_nat (length packet))); [|lia].
  destruct (usecTimestampNow server world) as [startLock w1].
  destruct (usecTimestampNow server w1) as [startProcess w2].
  destruct (processEditPacketData _ _ _ _ _ _ _) as [n w3].
  destruct (usecTimestampNow server w3) as [endProcess w4].
  intros ->. by rewrite Z.add_0_r.
Qed.

Lemma processEdits_progress packetType (packet : list Byte.byte) sendingNode :
  (forall world atByte maxSize,
      1 <= fst (processEditPacketData server world packetType packet atByte maxSize sendingNode)) ->
  forall (fuel : nat) (world : World server) (atByte editsInPacket processTime lockWaitTime : Z),
    Z.of_nat (length packet) - atByte <= Z.of_nat fuel ->
    exists world' atByte' editsInPacket' processTime' lockWaitTime',
      processEdits server fuel world packetType packet sendingNode
                   atByte editsInPacket processTime lockWaitTime
      = Returned (world', (atByte', editsInPacket', processTime', lockWaitTime'))
      /\ Z.of_nat (length packet) <= atByte'
      /\ editsInPacket <= editsInPacket' <= editsInPacket + Z.of_nat fuel.
Proof.
  intros Hprog. induction fuel as [|fuel IH]; intros world atByte e p l Hfuel.
  - cbn [processEdits]. destruct (Z.ltb_spec atByte (Z.of_nat (length packet))); [lia|].
    do 5 eexists. split; [reflexivity|]. lia.
  - cbn [processEdits]. destruct (Z.ltb_spec atByte (Z.of_nat (length packet))).
    + destruct (usecTimestampNow server world) as [startLock w1].
      destruct (usecTimestampNow server w1) as [startProcess w2].
      pose proof (Hprog w2 atByte (Z.of_nat (length packet) - atByte)) as Hn.
      destruct (processEditPacketData _ _ _ _ _ _ _) as [n w3]. simpl in Hn.
      destruct (usecTimestampNow server w3) as [endProcess w4].
      edestruct (IH w4 (atByte + n) (e + 1)) as (w' & a' & e' & p' & l' & E & Ha & He);
        [lia|].
      rewrite E. do 5 eexists. split; [reflexivity|]. lia.
    + do 5 eexists. split; [reflexivity|]. lia.
Qed.
End EditLoop.

(** C8 (counterexample): the octree of [steadyServer 0] consumes no byte;
    on a packet with two bytes of edit data the call returns for no number
    of iterations. *)
Lemma zero_bytes_consumed_never_ends :
  ~ exists fuel result,
      processPacket (steadyServer 0) fuel (mkProcess 0 emptyProcessor) 0 None
                    (editPacket x05)
      = Returned result.
Proof.
  intros (fuel & result & E).
  assert (H : forall fuel world e p l,
             processEdits (steadyServer 0) fuel world 1 (editPacket x05) None 11 e p l
             = OutOfFuel).
  { clear. induction fuel as [|fuel IH]; intros world e p l; [done|].
    cbn [processEdits]. change (11 <? Z.of_nat (length (editPacket x05))) with true.
    cbn iota. cbn [steadyServer usecTimestampNow processEditPacketData].
    rewrite Z.add_0_r. apply IH. }
  unfold processPacket in E.
  cbn [steadyServer numBytesForPacketHeader packetTypeForPacket handlesEditPacketType
       usecTimestampNow] in E.
  change (byteValue x01 =? 1) with true in E. cbn iota in E.
  change (readUnsigned 2 (editPacket x05) 1) with (Some 5) in E.
  change (readUnsigned 8 (editPacket x05) (1 + sizeof_u16)) with (Some 0) in E.
  cbn iota beta in E.
  change (1 + sizeof_u16 + sizeof_u64) with 11 in E.
  change (byteValue x01) with 1 in E.
  rewrite H in E. done.
Qed.

(** C8 (amended): the loop over the edit records has no exit for a record
    that consumes nothing.  When the octree returns 0 while unread bytes
    remain, the next iteration starts at the same byte with one more edit
    counted; the loop ends once [atByte] reaches the size of the packet,
    which it does within as many iterations as bytes are unread when every
    record consumes at least one byte. *)
Theorem edit_loop_ends_only_at_packet_end
    (server : Server) (packetType : Z) (packet : list Byte.byte)
    (sendingNode : option Node) :
  (forall (fuel : nat) (world : World server)
          (atByte editsInPacket processTime lockWaitTime : Z),
      atByte < Z.of_nat (length packet) ->
      let '(startLock, w1) := usecTimestampNow server world in
      let '(startProcess, w2) := usecTimestampNow server w1 in
      let '(editDataBytesRead, w3) :=
        processEditPacketData server w2 packetType packet atByte
                              (Z.of_nat (length packet) - atByte) sendingNode in
      let '(endProcess, w4) := usecTimestampNow server w3 in
      editDataBytesRead = 0 ->
      processEdits server (S fuel) world packetType packet sendingNode
                   atByte editsInPacket processTime lockWaitTime
      = processEdits server fuel w4 packetType packet sendingNode
                     atByte (editsInPacket + 1)
                     (to_u64 (processTime + to_u64 (endProcess - startProcess)))
                     (to_u64 (lockWaitTime + to_u64 (startProcess - startLock))))
  /\ ((forall world atByte maxSize,
          1 <= fst (processEditPacketData server world packetType packet
                                          atByte maxSize sendingNode)) ->
      forall (fuel : nat) (world : World server)
             (atByte editsInPacket processTime lockWaitTime : Z),
        Z.of_nat (length packet) - atByte <= Z.of_nat fuel ->
        exists world' atByte' editsInPacket' processTime' lockWaitTime',
          processEdits server fuel world packetType packet sendingNode
                       atByte editsInPacket processTime lockWaitTime
          = Returned (world', (atByte', editsInPacket', processTime', lockWaitTime'))
          /\ Z.of_nat (length packet) <= atByte'
          /\ editsInPacket <= editsInPacket' <= editsInPacket + Z.of_nat fuel).
Proof.
  split.
  - intros fuel world atByte e p l. apply processEdits_zero_stays.
  - apply processEdits_progress.
Qed.

Lemma edit_loop_ends_only_at_packet_end_witness :
  (11 < Z.of_nat (length (editPacket x05))
   /\ fst (processEditPacketData (steadyServer 0) 2 1 (editPacket x05) 11 2 None) = 0
   /\ processEdits (steadyServer 0) 3 0 1 (editPacket x05) None 11 0 0 0
      = processEdits (steadyServer 0) 2 3 1 (editPacket x05) None 11 1 0 1)
  /\ ((forall world atByte maxSize,
          1 <= fst (processEditPacketData (steadyServer 1) world 1 (editPacket x05)
                                          atByte maxSize None))
      /\ exists world' atByte' editsInPacket' processTime' lockWaitTime',
           processEdits (steadyServer 1) 2 0 1 (editPacket x05) None 11 0 0 0
           = Returned (world', (atByte', editsInPacket', processTime', lockWaitTime'))
           /\ Z.of_nat (length (editPacket x05)) <= atByte'
           /\ 0 <= editsInPacket' <= 0 + Z.of_nat 2).
Proof.
  assert (H1 : 11 < Z.of_nat (length (editPacket x05))) by reflexivity.
  assert (H2 : forall world atByte maxSize : Z,
             1 <= fst (processEditPacketData (steadyServer 1) world 1 (editPacket x05)
                                             atByte maxSize None)).
  { intros world atByte maxSize. simpl. lia. }
  assert (H3 : Z.of_nat (length (editPacket x05)) - 11 <= Z.of_nat 2) by (simpl; lia).
  split.
  - split; [exact H1|]. split; [reflexivity|].
    exact (proj1 (edit_loop_ends_only_at_packet_end (steadyServer 0) 1 (editPacket x05) None)
                 2%nat 0 11 0 0 0 H1 eq_refl).
  - split; [exact H2|].
    exact (proj2 (edit_loop_ends_only_at_packet_end (steadyServer 1) 1 (editPacket x05) None)
                 H2 2%nat 0 11 0 0 0 H3).
Defined.

Lemma byteValue_range b : 0 <= byteValue b < 256.
Proof. unfold byteValue. pose proof (Byte.to_N_bounded b). lia. Qed.

Lemma littleEndian_range bytes : 0 <= littleEndian bytes < 256 ^ Z.of_nat (length bytes).
Proof.
  induction bytes as [|b rest IH]; [simpl; lia|].
  cbn [littleEndian length]. rewrite Nat2Z.inj_succ, Z.pow_succ_r by lia.
  pose proof (byteValue_range b). nia.
Qed.

Lemma readUnsigned_range width (packet : list Byte.byte) offset v :
  readUnsigned width packet offset = Some v -> 0 <= v < 256 ^ Z.of_nat width.
Proof.
  unfold readUnsigned. destruct (_ && _); [|done]. intros [= <-].
  pose proof (littleEndian_range (take width (drop (Z.to_nat offset) packet))) as H.
  assert (Hl : (length (take width (drop (Z.to_nat offset) packet)) <= width)%nat)
    by (rewrite length_take; lia).
  assert (256 ^ Z.of_nat (length (take width (drop (Z.to_nat offset) packet)))
          <= 256 ^ Z.of_nat width) by (apply Z.pow_le_mono_r; lia).
  lia.
Qed.

Lemma readUnsigned_Some width (packet : list Byte.byte) offset :
  0 <= offset -> offset + Z.of_nat width <= Z.of_nat (length packet) ->
  is_Some (readUnsigned width packet offset).
Proof.
  intros H1 H2. unfold readUnsigned.
  destruct (Z.leb_spec 0 offset); [|lia].
  destruct (Z.leb_spec (offset + Z.of_nat width) (Z.of_nat (length packet))); [|lia].
  simpl. eauto.
Qed.

Lemma lastKnownSender_app (ref : Z) (senders more : list (option Node)) :
  lastKnownSender ref (senders ++ more)
  = lastKnownSender (lastKnownSender ref senders) more.
Proof. apply foldl_app. Qed.


Section Attribution.
Variable server : Server.

Lemma processEdits_counts packetType (packet : list Byte.byte) sendingNode :
  (forall world atByte maxSize,
      1 <= fst (processEditPacketData server world packetType packet atByte maxSize sendingNode)) ->
  forall (fuel : nat) (world : World server) (atByte editsInPacket processTime lockWaitTime : Z),
    Z.of_nat (length packet) - atByte <= Z.of_nat fuel ->
    exists world' atByte' editsInPacket' processTime' lockWaitTime',
      processEdits server fuel world packetType packet sendingNode
                   atByte editsInPacket processTime lockWaitTime
      = Returned (world', (atByte', editsInPacket', processTime', lockWaitTime'))
      /\ editsInPacket <= editsInPacket'
         <= editsInPacket + Z.max 0 (Z.of_nat (length packet) - atByte).
Proof.
  intros Hprog. induction fuel as [|fuel IH]; intros world atByte e p l Hfuel.
  - cbn [processEdits]. destruct (Z.ltb_spec atByte (Z.of_nat (length packet))); [lia|].
    do 5 eexists. split; [reflexivity|]. lia.
  - cbn [processEdits]. destruct (Z.ltb_spec atByte (Z.of_nat (length packet))).
    + destruct (usecTimestampNow server world) as [startLock w1].
      destruct (usecTimestampNow server w1) as [startProcess w2].
      pose proof (Hprog w2 atByte (Z.of_nat (length packet) - atByte)) as Hn.
      destruct (processEditPacketData _ _ _ _ _ _ _) as [n w3]. simpl in Hn.
      destruct (usecTimestampNow server w3) as [endProcess w4].
      edestruct (IH w4 (atByte + n) (e + 1)) as (w' & a' & e' & p' & l' & E & He);
        [lia|].
      rewrite E. do 5 eexists. split; [reflexivity|]. lia.
    + do 5 eexists. split; [reflexivity|]. lia.
Qed.

(** A call that can read its packet and whose records advance returns,
    having tracked the packet once. *)
Lemma processPacket_returns
    (fuel : nat) (process : Process) (world : World server)
    (sendingNode : option Node) (packet : list Byte.byte) :
  let header := numBytesForPacketHeader server packet in
  let packetType := packetTypeForPacket server packet in
  handlesEditPacketType server world packetType = true ->
  0 <= header ->
  header + sizeof_u16 + sizeof_u64 <= Z.of_nat (length packet) ->
  (forall world atByte maxSize,
      1 <= fst (processEditPacketData server world packetType packet
                                      atByte maxSize sendingNode)) ->
  Z.of_nat (length packet) - (header + sizeof_u16 + sizeof_u64) <= Z.of_nat fuel ->
  exists process' world' log sequence transitTime editsInPacket processTime lockWaitTime,
    processPacket server fuel process world sendingNode packet
    = Returned (process', world', log)
    /\ readUnsigned 2 packet header = Some sequence
    /\ is_u16 sequence
    /\ 0 <= editsInPacket <= Z.of_nat (length packet) - (header + sizeof_u16 + sizeof_u64)
    /\ DEFAULT_NODE_ID_REF process' = trackedUnder process sendingNode
    /\ _receivedPacketCount (processor process')
       = _receivedPacketCount (processor process) + 1
    /\ _totalPackets (processor process')
       = to_u64 (_totalPackets (processor process) + 1)
    /\ _totalElementsInPacket (processor process')
       = to_u64 (_totalElementsInPacket (processor process) + editsInPacket)
    /\ _singleSenderStats (processor process')
       = _singleSenderStats
           (fst (trackInboundPacket (processor process)
                   (trackedUnder process sendingNode)
                   sequence transitTime editsInPacket processTime lockWaitTime)).
Proof.
  intros header packetType Hh Hhdr Hlen Hprog Hfuel.
  destruct (readUnsigned_Some 2 packet header) as [sequence Hs];
    [lia|unfold sizeof_u16, sizeof_u64 in *; lia|].
  destruct (readUnsigned_Some 8 packet (header + sizeof_u16)) as [sentAt Ht];
    [unfold sizeof_u16; lia|unfold sizeof_u16, sizeof_u64 in *; lia|].
  unfold processPacket. fold header packetType. rewrite Hh, Hs, Ht.
  destruct (usecTimestampNow server world) as [arrivedAt w1].
  destruct (processEdits_counts packetType packet sendingNode Hprog
              fuel w1 (header + sizeof_u16 + sizeof_u64) 0 0 0)
    as (w2 & a & e & p & l & E & He); [lia|].
  rewrite E.
  assert (exists w3,
             (match sendingNode with
              | Some node =>
                  let '(now, world) := usecTimestampNow server w2 in
                  (getUUID node, setLastHeardMicrostamp server node now world)
              | None => (DEFAULT_NODE_ID_REF process, w2)
              end) = (trackedUnder process sendingNode, w3)) as [w3 Hn].
  { destruct sendingNode as [node|]; simpl; [|eauto].
    destruct (usecTimestampNow server w2). eauto. }
  rewrite Hn. unfold trackInboundPacket. cbn [_singleSenderStats fst snd].
  do 3 eexists. exists sequence, (to_u64 (arrivedAt - sentAt)), e, p, l.
  split; [reflexivity|]. split; [done|].
  split; [apply (readUnsigned_range 2 packet header sequence Hs)|].
  split; [lia|].
  cbn [DEFAULT_NODE_ID_REF processor _receivedPacketCount _totalPackets
       _totalElementsInPacket _singleSenderStats].
  repeat split.
Qed.



End Attribution.


End ProcessorFacts.

(** * Properties of the snapshot envelope *)

Module SnapshotFacts.
Import OctreeInboundPacketProcessor OctreeUtils Examples.

Lemma positiveOfBits_bitsOfPositive p : positiveOfBits (bitsOfPositive p) = p.
Proof. induction p; simpl; congruence. Qed.

Section RoundTrip.
Variable codec : Codec.
Hypothesis gunzip_gzip : forall data gzData,
  gzip codec data = Some gzData -> gunzip codec gzData = Some data.
Hypothesis parse_toJson : forall obj,
  parseEntities codec (toJson codec obj) = Some obj.
Hypothesis toUuid_toString : forall u,
  toUuid codec (VString (uuidToString codec u)) = u.
Hypothesis toInt_number : forall n,
  INT_MIN <= n <= INT_MAX -> toInt codec (VNumber n) = n.

Lemma objects_unchanged (entities : list QVariant) :
  Forall isObject entities ->
  (fun entity => VMap (toJsonObject entity)) <$> entities = entities.
Proof.
  induction 1 as [|entity rest He _ IH]; [done|].
  rewrite fmap_cons, IH. by destruct entity.
Qed.

(** C9 (amended): with a gzip that succeeds and a gunzip that undoes it, a
    parser that reads back what the JSON printer wrote and a UUID that
    reads back from its string, an envelope whose data version and version
    are within the range of [int] and whose entities are all objects comes
    back from write, gzip, gunzip and read with the same id, data version,
    version and entities in order. *)
Theorem snapshot_round_trip (self target : RawEntityData) :
  is_Some (gzip codec (toByteArray codec self)) ->
  INT_MIN <= dataVersion self <= INT_MAX ->
  INT_MIN <= version self <= INT_MAX ->
  Forall isObject (variantEntityData self) ->
  exists result,
    readOctreeDataInfoFromData codec target (toGzippedByteArray codec self) = Some result
    /\ id result = id self
    /\ dataVersion result = dataVersion self
    /\ version result = version self
    /\ variantEntityData result = variantEntityData self.
Proof.
  intros [gzData Hgz] Hdv Hv Hobj.
  unfold toGzippedByteArray, readOctreeDataInfoFromData.
  rewrite Hgz, (gunzip_gzip _ _ Hgz).
  unfold toByteArray. rewrite parse_toJson.
  eexists. split; [reflexivity|].
  unfold readOctreeDataInfoFromMap, readSubclassData, writeSubclassData.
  cbn. rewrite toUuid_toString.
  rewrite !toInt_number, objects_unchanged by
    (try done; unfold to_qint64, INT64_RANGE, INT_MIN, INT_MAX in *;
     Z.to_euclidean_division_equations; lia).
  unfold to_qint64, INT64_RANGE, INT_MIN, INT_MAX in *.
  repeat split; Z.to_euclidean_division_equations; lia.
Qed.

(** No 32-bit [toInt] gives back a data version beyond [INT_MAX]. *)
Lemma large_data_version_not_preserved (self target result : RawEntityData) :
  (forall v, INT_MIN <= toInt codec v <= INT_MAX) ->
  INT_MAX < dataVersion self ->
  readOctreeDataInfoFromData codec target (toGzippedByteArray codec self) = Some result ->
  is_Some (gzip codec (toByteArray codec self)) ->
  dataVersion result <> dataVersion self.
Proof.
  intros Hrange Hbig E [gzData Hgz].
  unfold toGzippedByteArray, readOctreeDataInfoFromData in E.
  rewrite Hgz, (gunzip_gzip _ _ Hgz) in E.
  unfold toByteArray in E. rewrite parse_toJson in E.
  inversion E; subst; clear E.
  unfold readOctreeDataInfoFromMap, readSubclassData, writeSubclassData. cbn.
  specialize (Hrange (VNumber (to_qint64 (dataVersion self)))). lia.
Qed.
End RoundTrip.



(** C9 (counterexample): the data version 2^31 is read back through
    [toInt] as -2^31, the rest of the envelope being preserved. *)
Lemma data_version_beyond_int_lost :
  exists result,
    readOctreeDataInfoFromData referenceCodec freshEnvelope
      (toGzippedByteArray referenceCodec largeVersionEnvelope) = Some result
    /\ id result = id largeVersionEnvelope
    /\ version result = version largeVersionEnvelope
    /\ variantEntityData result = variantEntityData largeVersionEnvelope
    /\ dataVersion result = - 2 ^ 31
    /\ dataVersion result <> dataVersion largeVersionEnvelope.
Proof. eexists. split; [reflexivity|]. vm_compute. repeat split; congruence. Qed.
(** An entity that is not an object is written as an empty object. *)
Lemma non_object_entity_becomes_empty_object :
  exists result,
    readOctreeDataInfoFromData referenceCodec freshEnvelope
      (toGzippedByteArray referenceCodec (mkRawEntityData 5 7 3 [] [VNumber 1]))
    = Some result
    /\ variantEntityData result = [VMap []].
Proof. eexists. split; reflexivity. Qed.

Lemma referenceCodec_toInt n :
  INT_MIN <= n <= INT_MAX -> toInt referenceCodec (VNumber n) = n.
Proof.
  unfold INT_MIN, INT_MAX. simpl. unfold to_int, INT32_RANGE. intros H.
  Z.to_euclidean_division_equations; lia.
Qed.

Lemma referenceCodec_toUuid u :
  toUuid referenceCodec (VString (uuidToString referenceCodec u)) = u.
Proof.
  cbn [referenceCodec toUuid uuidToString].
  by rewrite positiveOfBits_bitsOfPositive, decode_encode.
Qed.

Lemma snapshot_round_trip_witness :
  (forall data gzData,
      gzip referenceCodec data = Some gzData -> gunzip referenceCodec gzData = Some data)
  /\ (forall obj, parseEntities referenceCodec (toJson referenceCodec obj) = Some obj)
  /\ (forall u, toUuid referenceCodec (VString (uuidToString referenceCodec u)) = u)
  /\ (forall n, INT_MIN <= n <= INT_MAX -> toInt referenceCodec (VNumber n) = n)
  /\ is_Some (gzip referenceCodec (toByteArray referenceCodec smallEnvelope))
  /\ INT_MIN <= dataVersion smallEnvelope <= INT_MAX
  /\ INT_MIN <= version smallEnvelope <= INT_MAX
  /\ Forall isObject (variantEntityData smallEnvelope)
  /\ exists result,
       readOctreeDataInfoFromData referenceCodec freshEnvelope
         (toGzippedByteArray referenceCodec smallEnvelope) = Some result
       /\ id result = id smallEnvelope
       /\ dataVersion result = dataVersion smallEnvelope
       /\ version result = version smallEnvelope
       /\ variantEntityData result = variantEntityData smallEnvelope.
Proof.
  assert (L1 : forall data gzData,
             gzip referenceCodec data = Some gzData
             -> gunzip referenceCodec gzData = Some data).
  { intros data gzData H. simpl in H. injection H as <-. reflexivity. }
  assert (L2 : forall obj, parseEntities referenceCodec (toJson referenceCodec obj) = Some obj)
    by reflexivity.
  assert (H1 : is_Some (gzip referenceCodec (toByteArray referenceCodec smallEnvelope)))
    by (eexists; reflexivity).
  assert (H2 : INT_MIN <= dataVersion smallEnvelope <= INT_MAX)
    by (unfold INT_MIN, INT_MAX; simpl; lia).
  assert (H3 : INT_MIN <= version smallEnvelope <= INT_MAX)
    by (unfold INT_MIN, INT_MAX; simpl; lia).
  assert (H4 : Forall isObject (variantEntityData smallEnvelope))
    by (repeat constructor).
  split; [exact L1|split; [exact L2|split; [exact referenceCodec_toUuid|
    split; [exact referenceCodec_toInt|split; [exact H1|split; [exact H2|
    split; [exact H3|split; [exact H4|]]]]]]]].
  exact (snapshot_round_trip referenceCodec L1 L2 referenceCodec_toUuid
           referenceCodec_toInt smallEnvelope freshEnvelope H1 H2 H3 H4).
Defined.

End SnapshotFacts.

(** * Further properties of the sequence tracker *)

Module TrackerCoverage.
Import SingleSenderStats TrackerSpec RunSpec Examples MoreExamples TrackerFacts.

Lemma track_first x tt e p l :
  trackInboundPacket init x tt e p l = accept init x ∅ tt e p l.
Proof. unfold trackInboundPacket. simpl. by rewrite Z.eqb_refl. Qed.

Lemma prune_empty last : prune last ∅ = ∅.
Proof.
  apply set_eq. intros x. rewrite elem_of_prune.
  split; [by intros [? _]|by intros ?%elem_of_empty].
Qed.

Lemma observeAll_cons s o rest :
  observeAll s (o :: rest)
  = (fst (observeAll (fst (observe s o)) rest),
     snd (observe s o) ++ snd (observeAll (fst (observe s o)) rest)).
Proof.
  simpl. destruct (observe s o) as [s1 log1]. simpl.
  by destruct (observeAll s1 rest).
Qed.

Lemma isConsecutive_cons start o rest :
  isConsecutive start (o :: rest) ->
  obs_sequence o = to_u16 start /\ isConsecutive (start + 1) rest.
Proof.
  intros H. split.
  - rewrite (H 0%nat o eq_refl). f_equal. lia.
  - intros i o' Hi. rewrite (H (S i) o' Hi). f_equal. lia.
Qed.

Lemma in_order_run (calls : list Observation) : forall (s : t) (L : Z),
  1 <= _totalPackets s ->
  _totalPackets s + Z.of_nat (length calls) < UINT64_RANGE ->
  _incomingLastSequence s = to_u16 L ->
  _missingSequenceNumbers s = ∅ ->
  isConsecutive (L + 1) calls ->
  let r := observeAll s calls in
  _incomingLastSequence (fst r) = to_u16 (L + Z.of_nat (length calls))
  /\ _missingSequenceNumbers (fst r) = ∅
  /\ _totalPackets (fst r) = _totalPackets s + Z.of_nat (length calls)
  /\ snd r = [].
Proof.
  induction calls as [|o rest IH]; intros s L Ht Hlen Hl Hm Hc.
  { simpl. rewrite Z.add_0_r. rewrite Z.add_0_r. done. }
  apply isConsecutive_cons in Hc as [Ho Hc].
  cbn zeta. rewrite observeAll_cons. cbn [fst snd].
  assert (E : observe s o
              = accept s (to_u16 (L + 1)) ∅ (obs_transitTime o) (obs_editsInPacket o)
                       (obs_processTime o) (obs_lockWaitTime o)).
  { unfold observe. rewrite Ho, <- Hm. apply (track_on_time s L); [lia|done|done]. }
  rewrite E. unfold accept. cbn [fst snd].
  set (s1 := updateOtherStats _ _ _ _ _).
  assert (Ht1 : _totalPackets s1 = _totalPackets s + 1).
  { unfold s1. simpl. simpl in Hlen. zmod. }
  destruct (IH s1 (L + 1)) as (R1 & R2 & R3 & R4).
  - lia.
  - rewrite Ht1. simpl length in Hlen. lia.
  - done.
  - unfold s1. simpl. apply prune_empty.
  - done.
  - rewrite R1, R2, R3, R4, Ht1. simpl length.
    repeat split; [f_equal; lia|lia].
Qed.

(** X1: a new tracker fed a run of consecutive sequence numbers, from any
    start and across any number of rollovers, ends on the last number of
    the run with nothing missing, every call counted and no debug line. *)
Theorem in_order_stream_has_no_missing (start : Z) (calls : list Observation) :
  calls <> [] ->
  isConsecutive start calls ->
  Z.of_nat (length calls) < UINT64_RANGE ->
  let r := observeAll init calls in
  _incomingLastSequence (fst r) = to_u16 (start + Z.of_nat (length calls) - 1)
  /\ _missingSequenceNumbers (fst r) = ∅
  /\ _totalPackets (fst r) = Z.of_nat (length calls)
  /\ snd r = [].
Proof.
  intros Hne Hc Hlen. destruct calls as [|o rest]; [done|]. clear Hne.
  apply isConsecutive_cons in Hc as [Ho Hc].
  cbn zeta. rewrite observeAll_cons. cbn [fst snd].
  unfold observe. rewrite track_first. unfold accept. cbn [fst snd].
  set (s1 := updateOtherStats _ _ _ _ _).
  destruct (in_order_run rest s1 start) as (R1 & R2 & R3 & R4).
  - by vm_compute.
  - change (_totalPackets s1) with 1. simpl length in Hlen. lia.
  - exact Ho.
  - unfold s1. simpl. apply prune_empty.
  - exact Hc.
  - change (_totalPackets s1) with 1 in R3.
    rewrite R1, R2, R3, R4. simpl length.
    repeat split; [f_equal; lia|lia].
Qed.

Lemma in_order_stream_has_no_missing_witness :
  inOrderAcrossRollover <> []
  /\ isConsecutive 65534 inOrderAcrossRollover
  /\ Z.of_nat (length inOrderAcrossRollover) < UINT64_RANGE
  /\ _incomingLastSequence (fst (observeAll init inOrderAcrossRollover)) = 1
  /\ _missingSequenceNumbers (fst (observeAll init inOrderAcrossRollover)) = ∅
  /\ _totalPackets (fst (observeAll init inOrderAcrossRollover)) = 4
  /\ snd (observeAll init inOrderAcrossRollover) = [].
Proof.
  assert (H1 : inOrderAcrossRollover <> []) by done.
  assert (H2 : isConsecutive 65534 inOrderAcrossRollover).
  { intros i o Hi.
    do 4 (destruct i as [|i]; [injection Hi as <-; reflexivity|]). done. }
  assert (H3 : Z.of_nat (length inOrderAcrossRollover) < UINT64_RANGE) by reflexivity.
  split; [exact H1|split; [exact H2|split; [exact H3|]]].
  exact (in_order_stream_has_no_missing 65534 inOrderAcrossRollover H1 H2 H3).
Defined.

(** X2: a packet that arrives early, at most 1000 numbers after the
    expected one modulo 2^16, is accepted, and the missing set given to the
    pruning block is the old one with exactly the skipped numbers added:
    the expected number up to the one before the packet's, rollover
    included. *)
Theorem early_packet_records_gap (s : t) (x tt e p l : Z) :
  _totalPackets s <> 0 ->
  is_u16 (_incomingLastSequence s) ->
  is_u16 x ->
  1 <= to_u16 (x - (_incomingLastSequence s + 1)) <= MAX_REASONABLE_SEQUENCE_GAP ->
  exists M' : gset Z,
    trackInboundPacket s x tt e p l = accept s x M' tt e p l
    /\ forall m, m ∈ M'
         <-> m ∈ _missingSequenceNumbers s
             \/ exists k, 1 <= k <= to_u16 (x - (_incomingLastSequence s + 1))
                          /\ m = to_u16 (_incomingLastSequence s + k).
Proof.
  intros Ht Hl Hx Hd.
  set (last := _incomingLastSequence s) in *.
  set (d := to_u16 (x - (last + 1))) in *.
  destruct (track_early s last (last + 1 + d) tt e p l Ht) as (M' & E & HM');
    [by rewrite to_u16_id|unfold_consts; lia|].
  replace (to_u16 (last + 1 + d)) with x in E by (subst d; zmod).
  exists M'. split; [exact E|].
  intros m. rewrite HM'. split; (intros [?|(k & Hk & ->)]; [by left|right]).
  - exists (k - last). split; [lia|f_equal; lia].
  - exists (last + k). split; [lia|done].
Qed.

Lemma early_packet_records_gap_witness :
  _totalPackets statsAt65534 <> 0
  /\ is_u16 (_incomingLastSequence statsAt65534)
  /\ is_u16 1
  /\ 1 <= to_u16 (1 - (_incomingLastSequence statsAt65534 + 1))
     <= MAX_REASONABLE_SEQUENCE_GAP
  /\ exists M' : gset Z,
       trackInboundPacket statsAt65534 1 5 1 2 3 = accept statsAt65534 1 M' 5 1 2 3
       /\ forall m, m ∈ M'
            <-> m ∈ _missingSequenceNumbers statsAt65534
                \/ exists k, 1 <= k <= 2 /\ m = to_u16 (65534 + k).
Proof.
  assert (H1 : _totalPackets statsAt65534 <> 0) by done.
  assert (H2 : is_u16 (_incomingLastSequence statsAt65534)) by (vm_compute; done).
  assert (H3 : is_u16 1) by (vm_compute; done).
  assert (H4 : 1 <= to_u16 (1 - (_incomingLastSequence statsAt65534 + 1))
               <= MAX_REASONABLE_SEQUENCE_GAP) by (vm_compute; done).
  split; [exact H1|split; [exact H2|split; [exact H3|split; [exact H4|]]]].
  exact (early_packet_records_gap statsAt65534 1 5 1 2 3 H1 H2 H3 H4).
Defined.

(** X3: a packet less than 1000 numbers behind the last one modulo 2^16
    is accepted as late: the last sequence number stays, the packet's number
    leaves the missing set, nothing joins it, and no debug line is
    written. *)
Theorem late_packet_fills_gap (s : t) (x tt e p l : Z) :
  _totalPackets s <> 0 ->
  is_u16 (_incomingLastSequence s) ->
  is_u16 x ->
  to_u16 (_incomingLastSequence s - x) < MAX_REASONABLE_SEQUENCE_GAP ->
  let r := trackInboundPacket s x tt e p l in
  r = accept s (_incomingLastSequence s) (_missingSequenceNumbers s ∖ {[ x ]}) tt e p l
  /\ _incomingLastSequence (fst r) = _incomingLastSequence s
  /\ (x ∉ _missingSequenceNumbers (fst r))
  /\ _missingSequenceNumbers (fst r) ⊆ _missingSequenceNumbers s
  /\ snd r = [].
Proof.
  intros Ht Hl Hx Hb. cbn zeta.
  set (last := _incomingLastSequence s) in *.
  pose proof (track_late s last (last - to_u16 (last - x)) tt e p l Ht) as E.
  replace (to_u16 (last - to_u16 (last - x))) with x in E by zmod.
  fold last in E. rewrite E; [|by rewrite to_u16_id|unfold_consts; zmod].
  split; [done|]. unfold accept. cbn [fst snd]. simpl.
  split; [done|]. split; [|split; [|done]].
  - intros [[_ Hn]%elem_of_difference _]%elem_of_prune. apply Hn. by apply elem_of_singleton.
  - intros m [[Hm _]%elem_of_difference _]%elem_of_prune. done.
Qed.

Lemma late_packet_fills_gap_witness :
  _totalPackets gappyStats <> 0
  /\ is_u16 (_incomingLastSequence gappyStats)
  /\ is_u16 12
  /\ to_u16 (_incomingLastSequence gappyStats - 12) < MAX_REASONABLE_SEQUENCE_GAP
  /\ let r := trackInboundPacket gappyStats 12 5 1 2 3 in
     r = accept gappyStats (_incomingLastSequence gappyStats)
                (_missingSequenceNumbers gappyStats ∖ {[ 12 ]}) 5 1 2 3
     /\ _incomingLastSequence (fst r) = _incomingLastSequence gappyStats
     /\ (12 ∉ _missingSequenceNumbers (fst r))
     /\ _missingSequenceNumbers (fst r) ⊆ _missingSequenceNumbers gappyStats
     /\ snd r = [].
Proof.
  assert (H1 : _totalPackets gappyStats <> 0) by done.
  assert (H2 : is_u16 (_incomingLastSequence gappyStats)) by (vm_compute; done).
  assert (H3 : is_u16 12) by (vm_compute; done).
  assert (H4 : to_u16 (_incomingLastSequence gappyStats - 12) < MAX_REASONABLE_SEQUENCE_GAP)
    by reflexivity.
  split; [exact H1|split; [exact H2|split; [exact H3|split; [exact H4|]]]].
  exact (late_packet_fills_gap gappyStats 12 5 1 2 3 H1 H2 H3 H4).
Defined.

Lemma unreasonableGap_window (s : t) (x : Z) :
  _totalPackets s <> 0 ->
  is_u16 (_incomingLastSequence s) ->
  is_u16 x ->
  unreasonableGap s x = true
  <-> MAX_REASONABLE_SEQUENCE_GAP + 1 < to_u16 (x - _incomingLastSequence s)
      /\ MAX_REASONABLE_SEQUENCE_GAP <= to_u16 (_incomingLastSequence s - x).
Proof.
  intros Ht Hl Hx. unfold unreasonableGap, expectedSequence.
  destruct (Z.eqb_spec (_totalPackets s) 0); [done|].
  rewrite andb_true_iff, !Z.ltb_lt.
  set (last := _incomingLastSequence s) in *. clearbody last.
  unfold_consts. split; intros H; Z.to_euclidean_division_equations; lia.
Qed.

(** X4: once a tracker has seen a packet, a call is ignored exactly when
    the incoming number is more than 1001 ahead of the last one and at least
    1000 behind it, both modulo 2^16. *)
Theorem packet_ignored_exactly_outside_window (s : t) (x tt e p l : Z) :
  _totalPackets s <> 0 ->
  is_u16 (_incomingLastSequence s) ->
  is_u16 x ->
  trackInboundPacket s x tt e p l
  = (s, [IgnoringUnreasonablePacket x (_incomingLastSequence s)])
  <-> MAX_REASONABLE_SEQUENCE_GAP + 1 < to_u16 (x - _incomingLastSequence s)
      /\ MAX_REASONABLE_SEQUENCE_GAP <= to_u16 (_incomingLastSequence s - x).
Proof.
  intros Ht Hl Hx. rewrite <- (unreasonableGap_window s x Ht Hl Hx).
  split.
  - intros E. destruct (unreasonableGap s x) eqn:Eg; [done|].
    destruct (track_accepted s x tt e p l Eg) as (last & missing & E').
    rewrite E' in E. discriminate E.
  - apply track_rejected.
Qed.

Lemma packet_ignored_exactly_outside_window_witness :
  _totalPackets gappyStats <> 0
  /\ is_u16 (_incomingLastSequence gappyStats)
  /\ is_u16 5000
  /\ (trackInboundPacket gappyStats 5000 5 1 2 3
      = (gappyStats, [IgnoringUnreasonablePacket 5000 (_incomingLastSequence gappyStats)])
      <-> MAX_REASONABLE_SEQUENCE_GAP + 1 < to_u16 (5000 - _incomingLastSequence gappyStats)
          /\ MAX_REASONABLE_SEQUENCE_GAP <= to_u16 (_incomingLastSequence gappyStats - 5000)).
Proof.
  assert (H1 : _totalPackets gappyStats <> 0) by done.
  assert (H2 : is_u16 (_incomingLastSequence gappyStats)) by (vm_compute; done).
  assert (H3 : is_u16 5000) by (vm_compute; done).
  split; [exact H1|split; [exact H2|split; [exact H3|]]].
  exact (packet_ignored_exactly_outside_window gappyStats 5000 5 1 2 3 H1 H2 H3).
Defined.

(** X5: whatever the call, a number that is missing afterwards was
    missing before or lies strictly between the last sequence number and
    the incoming one, which is then at most 1001 ahead. *)
Theorem additions_lie_between (s : t) (x tt e p l m : Z) :
  is_u16 (_incomingLastSequence s) ->
  is_u16 x ->
  m ∈ _missingSequenceNumbers (fst (trackInboundPacket s x tt e p l)) ->
  m ∈ _missingSequenceNumbers s
  \/ (0 < to_u16 (m - _incomingLastSequence s) < to_u16 (x - _incomingLastSequence s)
      /\ to_u16 (x - _incomingLastSequence s) <= MAX_REASONABLE_SEQUENCE_GAP + 1).
Proof.
  intros Hl Hx. unfold trackInboundPacket. cbn zeta.
  set (last := _incomingLastSequence s) in *.
  set (M := _missingSequenceNumbers s).
  assert (Hacc : forall lst M', m ∈ _missingSequenceNumbers (fst (accept s lst M' tt e p l))
                                -> m ∈ M').
  { intros lst M'. unfold accept. simpl. by intros [? _]%elem_of_prune. }
  destruct (Z.eqb_spec (_totalPackets s) 0) as [|Ht].
  { rewrite Z.eqb_refl. intros ?%Hacc. by left. }
  set (ex := to_u16 (last + 1)).
  assert (Hex : is_u16 ex) by apply to_u16_range.
  assert (Hsk : forall e' i', (e' = ex \/ e' = ex - UINT16_RANGE) -> i' = x ->
            0 < i' - e' <= MAX_REASONABLE_SEQUENCE_GAP ->
            m ∈ insertSkipped e' i' M ->
            m ∈ M \/ (0 < to_u16 (m - last) < to_u16 (x - last)
                      /\ to_u16 (x - last) <= MAX_REASONABLE_SEQUENCE_GAP + 1)).
  { intros e' i' He' -> Hgap [?|(k & Hk & ->)]%elem_of_insertSkipped; [by left|right].
    subst ex. clearbody last.
    destruct (Z.ltb_spec k 0); destruct He' as [-> | ->]; zmod. }
  destruct (Z.eqb_spec x ex); [intros ?%Hacc; by left|].
  destruct (Z.leb_spec (UINT16_RANGE - MAX_REASONABLE_SEQUENCE_GAP) (Z.abs (x - ex))).
  - destruct (Z.ltb_spec ex x).
    + destruct (Z.ltb_spec ex (x - UINT16_RANGE)); [unfold_consts; lia|].
      intros [? _]%Hacc%elem_of_difference. by left.
    + destruct (Z.ltb_spec (ex - UINT16_RANGE) x).
      * intros ?%Hacc. eapply Hsk; [by right|done| |done]. unfold_consts; lia.
      * intros [? _]%Hacc%elem_of_difference. by left.
  - destruct (Z.ltb_spec MAX_REASONABLE_SEQUENCE_GAP (Z.abs (x - ex))); [by left|].
    destruct (Z.ltb_spec ex x).
    + intros ?%Hacc. eapply Hsk; [by left|done| |done]. unfold_consts; lia.
    + intros [? _]%Hacc%elem_of_difference. by left.
Qed.

Lemma additions_lie_between_witness :
  is_u16 (_incomingLastSequence gappyStats)
  /\ is_u16 20
  /\ 17 ∈ _missingSequenceNumbers (fst (trackInboundPacket gappyStats 20 5 1 2 3))
  /\ (17 ∈ _missingSequenceNumbers gappyStats
      \/ (0 < to_u16 (17 - _incomingLastSequence gappyStats)
              < to_u16 (20 - _incomingLastSequence gappyStats)
          /\ to_u16 (20 - _incomingLastSequence gappyStats)
             <= MAX_REASONABLE_SEQUENCE_GAP + 1)).
Proof.
  assert (H1 : is_u16 (_incomingLastSequence gappyStats)) by (vm_compute; done).
  assert (H2 : is_u16 20) by (vm_compute; done).
  assert (H3 : 17 ∈ _missingSequenceNumbers (fst (trackInboundPacket gappyStats 20 5 1 2 3)))
    by (by vm_compute).
  split; [exact H1|split; [exact H2|split; [exact H3|]]].
  exact (additions_lie_between gappyStats 20 5 1 2 3 17 H1 H2 H3).
Defined.

Lemma sumOf_app f l1 l2 : sumOf f (l1 ++ l2) = sumOf f l1 + sumOf f l2.
Proof. induction l1 as [|o l1 IH]; simpl; [done|]. unfold sumOf in *. simpl. lia. Qed.

Lemma totals_run (calls : list Observation) : forall s : t,
  let r := fst (observeAll s calls) in
  let accepted := acceptedCalls s calls in
  to_u64 (_totalTransitTime r)
    = to_u64 (_totalTransitTime s + sumOf obs_transitTime accepted)
  /\ to_u64 (_totalProcessTime r)
     = to_u64 (_totalProcessTime s + sumOf obs_processTime accepted)
  /\ to_u64 (_totalLockWaitTime r)
     = to_u64 (_totalLockWaitTime s + sumOf obs_lockWaitTime accepted)
  /\ to_u64 (_totalElementsInPacket r)
     = to_u64 (_totalElementsInPacket s + sumOf obs_editsInPacket accepted).
Proof.
  induction calls as [|o rest IH]; intros s; cbn zeta.
  { simpl. rewrite !Z.add_0_r. done. }
  rewrite observeAll_cons_fst. cbn [acceptedCalls].
  specialize (IH (fst (observe s o))). cbn zeta in IH.
  destruct IH as (I1 & I2 & I3 & I4). rewrite I1, I2, I3, I4.
  rewrite !sumOf_app. unfold observe.
  destruct (unreasonableGap s (obs_sequence o)) eqn:G.
  - rewrite track_rejected by done. cbn [fst sumOf foldr]. rewrite !Z.add_0_l. done.
  - destruct (track_accepted s (obs_sequence o) (obs_transitTime o)
                (obs_editsInPacket o) (obs_processTime o) (obs_lockWaitTime o) G)
      as (last & missing & ->).
    cbn [fst sumOf foldr updateOtherStats setSequenceState
         _totalTransitTime _totalProcessTime _totalLockWaitTime _totalElementsInPacket].
    rewrite !Z.add_0_r, !to_u64_add_l, !Z.add_assoc. done.
Qed.

(** X6: after any run from a new tracker, each of the four totals is the
    sum of its argument over the accepted calls and the packet count is
    their number, modulo 2^64; ignored calls add nothing. *)
Theorem totals_sum_over_accepted_calls (calls : list Observation) :
  let s := fst (observeAll init calls) in
  let accepted := acceptedCalls init calls in
  _totalTransitTime s = to_u64 (sumOf obs_transitTime accepted)
  /\ _totalProcessTime s = to_u64 (sumOf obs_processTime accepted)
  /\ _totalLockWaitTime s = to_u64 (sumOf obs_lockWaitTime accepted)
  /\ _totalElementsInPacket s = to_u64 (sumOf obs_editsInPacket accepted)
  /\ _totalPackets s = to_u64 (Z.of_nat (length accepted)).
Proof.
  cbn zeta.
  assert (Hu : forall calls s,
             is_u64 (_totalTransitTime s) /\ is_u64 (_totalProcessTime s)
             /\ is_u64 (_totalLockWaitTime s) /\ is_u64 (_totalElementsInPacket s) ->
             let r := fst (observeAll s calls) in
             is_u64 (_totalTransitTime r) /\ is_u64 (_totalProcessTime r)
             /\ is_u64 (_totalLockWaitTime r) /\ is_u64 (_totalElementsInPacket r)).
  { clear. induction calls as [|o rest IH]; intros s Hs; [done|].
    cbn zeta. rewrite observeAll_cons_fst. apply IH. unfold observe.
    destruct (unreasonableGap s (obs_sequence o)) eqn:G.
    - by rewrite track_rejected.
    - destruct (track_accepted s (obs_sequence o) (obs_transitTime o)
                  (obs_editsInPacket o) (obs_processTime o) (obs_lockWaitTime o) G)
        as (last & missing & ->).
      simpl. repeat split; apply to_u64_range. }
  destruct (Hu calls init) as (U1 & U2 & U3 & U4); [by vm_compute|].
  destruct (totals_run calls init) as (T1 & T2 & T3 & T4).
  cbn zeta in *. change (_totalTransitTime init) with 0 in T1.
  change (_totalProcessTime init) with 0 in T2.
  change (_totalLockWaitTime init) with 0 in T3.
  change (_totalElementsInPacket init) with 0 in T4.
  rewrite Z.add_0_l in T1, T2, T3, T4.
  rewrite <- T1, <- T2, <- T3, <- T4.
  repeat split; try (symmetry; unfold to_u64; apply Z.mod_small; assumption).
  assert (Hlen : forall calls s,
             Z.of_nat (length (acceptedCalls s calls))
             = Z.of_nat (length calls) - Z.of_nat (rejectedCalls s calls)).
  { clear. induction calls as [|o rest IH]; intros s; [done|].
    cbn [acceptedCalls rejectedCalls]. rewrite length_app, Nat2Z.inj_add, IH.
    destruct (unreasonableGap s (obs_sequence o)); simpl length; lia. }
  rewrite observeAll_totalPackets by (by vm_compute).
  rewrite Hlen. done.
Qed.
End TrackerCoverage.

(** * Further properties of the packet processor *)

Module ProcessorCoverage.
Import TrackerFacts.
Import OctreeInboundPacketProcessor ProcessorSpec SweepSpec ProcessorLifecycle.
Import Examples MoreExamples ProcessorFacts.

Lemma trackInboundPacket_lookup (self : t) (u v : Z) (o : SingleSenderStats.Observation) :
  _singleSenderStats
    (fst (trackInboundPacket self u
            (SingleSenderStats.obs_sequence o) (SingleSenderStats.obs_transitTime o)
            (SingleSenderStats.obs_editsInPacket o) (SingleSenderStats.obs_processTime o)
            (SingleSenderStats.obs_lockWaitTime o))) !! v
  = if decide (u = v)
    then Some (fst (SingleSenderStats.observe
                      (default SingleSenderStats.init (_singleSenderStats self !! u)) o))
    else _singleSenderStats self !! v.
Proof.
  unfold trackInboundPacket. cbn [fst _singleSenderStats].
  rewrite lookup_insert. destruct (decide (u = v)); [|done].
  unfold SingleSenderStats.observe. by destruct (_singleSenderStats self !! u).
Qed.

(** X7: after any interleaving of calls from any nodes, the registry holds
    for each node the tracker that its own calls alone produce, in their
    order, starting from the tracker it had or from a new one; a node that
    made no call keeps what it had. *)
Theorem senders_are_tracked_apart (calls : list (Z * SingleSenderStats.Observation)) :
  forall (self : t) (nodeUUID : Z),
    _singleSenderStats (trackAll self calls) !! nodeUUID
    = match callsFrom nodeUUID calls with
      | [] => _singleSenderStats self !! nodeUUID
      | own =>
          Some (fst (SingleSenderStats.observeAll
                       (default SingleSenderStats.init
                                (_singleSenderStats self !! nodeUUID))
                       own))
      end.
Proof.
  induction calls as [|[u o] rest IH]; intros self v; [done|].
  cbn [trackAll foldl callsFrom fst snd]. fold (trackAll
    (fst (trackInboundPacket self u
            (SingleSenderStats.obs_sequence o) (SingleSenderStats.obs_transitTime o)
            (SingleSenderStats.obs_editsInPacket o) (SingleSenderStats.obs_processTime o)
            (SingleSenderStats.obs_lockWaitTime o))) rest).
  rewrite IH, trackInboundPacket_lookup.
  destruct (decide (u = v)) as [->|Hne].
  - rewrite observeAll_cons_fst. cbn [default].
    by destruct (callsFrom v rest).
  - done.
Qed.

(** X8: the processor's own packet and element totals grow with every
    call, whoever sent it and whatever its tracker decides; the count of
    received packets and the time of the last NACK sweep are left alone. *)
Theorem processor_totals_sum_over_all_calls
    (calls : list (Z * SingleSenderStats.Observation)) (self : t) :
  let edits := foldr (fun call acc => SingleSenderStats.obs_editsInPacket call.2 + acc) 0 calls in
  to_u64 (_totalPackets (trackAll self calls))
    = to_u64 (_totalPackets self + Z.of_nat (length calls))
  /\ to_u64 (_totalElementsInPacket (trackAll self calls))
     = to_u64 (_totalElementsInPacket self + edits)
  /\ _receivedPacketCount (trackAll self calls) = _receivedPacketCount self
  /\ _lastNackTime (trackAll self calls) = _lastNackTime self.
Proof.
  revert self. induction calls as [|[u o] rest IH]; intros self; cbn zeta.
  { simpl. by rewrite !Z.add_0_r. }
  cbn [trackAll foldl foldr length fst snd]. fold (trackAll
    (fst (trackInboundPacket self u
            (SingleSenderStats.obs_sequence o) (SingleSenderStats.obs_transitTime o)
            (SingleSenderStats.obs_editsInPacket o) (SingleSenderStats.obs_processTime o)
            (SingleSenderStats.obs_lockWaitTime o))) rest).
  destruct (IH (fst (trackInboundPacket self u
            (SingleSenderStats.obs_sequence o) (SingleSenderStats.obs_transitTime o)
            (SingleSenderStats.obs_editsInPacket o) (SingleSenderStats.obs_processTime o)
            (SingleSenderStats.obs_lockWaitTime o)))) as (I1 & I2 & I3 & I4).
  rewrite I1, I2, I3, I4. unfold trackInboundPacket.
  cbn [fst _totalPackets _totalElementsInPacket _receivedPacketCount _lastNackTime].
  rewrite !to_u64_add_l. repeat split; f_equal; lia.
Qed.

Section Returns.
Variable server : Server.

(** X9: for a packet of a handled type that holds its header, sequence
    number and timestamp, when every record consumes at least one byte,
    [processPacket] returns: the packet is counted as received, one call of
    [trackInboundPacket] is made under the sender's UUID or, without a
    sending node, the UUID of the packet before, with the sequence number
    read behind the header and a number of edits that is at most the payload
    length. *)
Theorem processPacket_returns_when_records_advance
    (fuel : nat) (process : Process) (world : World server)
    (sendingNode : option Node) (packet : list Byte.byte) :
  let header := numBytesForPacketHeader server packet in
  let packetType := packetTypeForPacket server packet in
  handlesEditPacketType server world packetType = true ->
  0 <= header ->
  header + sizeof_u16 + sizeof_u64 <= Z.of_nat (length packet) ->
  (forall world atByte maxSize,
      1 <= fst (processEditPacketData server world packetType packet
                                      atByte maxSize sendingNode)) ->
  Z.of_nat (length packet) - (header + sizeof_u16 + sizeof_u64) <= Z.of_nat fuel ->
  exists process' world' log sequence transitTime editsInPacket processTime lockWaitTime,
    processPacket server fuel process world sendingNode packet
    = Returned (process', world', log)
    /\ readUnsigned 2 packet header = Some sequence
    /\ is_u16 sequence
    /\ 0 <= editsInPacket <= Z.of_nat (length packet) - (header + sizeof_u16 + sizeof_u64)
    /\ DEFAULT_NODE_ID_REF process' = trackedUnder process sendingNode
    /\ _receivedPacketCount (processor process')
       = _receivedPacketCount (processor process) + 1
    /\ _totalPackets (processor process')
       = to_u64 (_totalPackets (processor process) + 1)
    /\ _totalElementsInPacket (processor process')
       = to_u64 (_totalElementsInPacket (processor process) + editsInPacket)
    /\ _singleSenderStats (processor process') !! trackedUnder process sendingNode
       = Some (fst (SingleSenderStats.trackInboundPacket
                      (default SingleSenderStats.init
                         (_singleSenderStats (processor process)
                            !! trackedUnder process sendingNode))
                      sequence transitTime editsInPacket processTime lockWaitTime)).
Proof.
  intros header packetType Hh Hhdr Hlen Hprog Hfuel.
  destruct (processPacket_returns server fuel process world sendingNode packet
              Hh Hhdr Hlen Hprog Hfuel)
    as (process' & world' & log & sequence & tt & e & p & l
        & E & Hs & Hu & He & Hd & Hr & Ht & Hel & Hreg).
  exists process', world', log, sequence, tt, e, p, l.
  split; [exact E|]. split; [exact Hs|]. split; [exact Hu|]. split; [exact He|].
  split; [exact Hd|]. split; [exact Hr|]. split; [exact Ht|]. split; [exact Hel|].
  rewrite Hreg. unfold trackInboundPacket. cbn [fst _singleSenderStats].
  rewrite lookup_insert_eq.
  by destruct (_singleSenderStats (processor process) !! trackedUnder process sendingNode).
Qed.
End Returns.

Lemma processPacket_returns_when_records_advance_witness :
  handlesEditPacketType (steadyServer 1) 0
    (packetTypeForPacket (steadyServer 1) (editPacket x05)) = true
  /\ 0 <= numBytesForPacketHeader (steadyServer 1) (editPacket x05)
  /\ numBytesForPacketHeader (steadyServer 1) (editPacket x05) + sizeof_u16 + sizeof_u64
     <= Z.of_nat (length (editPacket x05))
  /\ (forall world atByte maxSize,
         1 <= fst (processEditPacketData (steadyServer 1) world
                     (packetTypeForPacket (steadyServer 1) (editPacket x05))
                     (editPacket x05) atByte maxSize (Some (mkNode 42))))
  /\ Z.of_nat (length (editPacket x05))
     - (numBytesForPacketHeader (steadyServer 1) (editPacket x05) + sizeof_u16 + sizeof_u64)
     <= Z.of_nat 2
  /\ exists process' world' log,
       processPacket (steadyServer 1) 2 (mkProcess 0 emptyProcessor) 0
                     (Some (mkNode 42)) (editPacket x05)
       = Returned (process', world', log)
       /\ DEFAULT_NODE_ID_REF process' = 42
       /\ _receivedPacketCount (processor process') = 1
       /\ is_Some (_singleSenderStats (processor process') !! 42).
Proof.
  assert (H1 : handlesEditPacketType (steadyServer 1) 0
                 (packetTypeForPacket (steadyServer 1) (editPacket x05)) = true)
    by reflexivity.
  assert (H2 : 0 <= numBytesForPacketHeader (steadyServer 1) (editPacket x05))
    by (simpl; lia).
  assert (H3 : numBytesForPacketHeader (steadyServer 1) (editPacket x05)
               + sizeof_u16 + sizeof_u64 <= Z.of_nat (length (editPacket x05)))
    by (vm_compute; done).
  assert (H4 : forall world atByte maxSize,
             1 <= fst (processEditPacketData (steadyServer 1) world
                         (packetTypeForPacket (steadyServer 1) (editPacket x05))
                         (editPacket x05) atByte maxSize (Some (mkNode 42)))).
  { intros world atByte maxSize. simpl. lia. }
  assert (H5 : Z.of_nat (length (editPacket x05))
               - (numBytesForPacketHeader (steadyServer 1) (editPacket x05)
                  + sizeof_u16 + sizeof_u64) <= Z.of_nat 2)
    by (vm_compute; done).
  split; [exact H1|split; [exact H2|split; [exact H3|split; [exact H4|split; [exact H5|]]]]].
  destruct (processPacket_returns_when_records_advance (steadyServer 1) 2
              (mkProcess 0 emptyProcessor) 0 (Some (mkNode 42)) (editPacket x05)
              H1 H2 H3 H4 H5)
    as (process' & world' & log & sequence & transitTime & editsInPacket & processTime
        & lockWaitTime & E & _ & _ & _ & Hd & Hr & _ & _ & Hl).
  exists process', world', log.
  split; [exact E|]. split; [exact Hd|]. split; [exact Hr|].
  eexists. exact Hl.
Defined.

Section PackFacts.
Variables (MAX_PACKET_SIZE numBytesPacketHeader : Z).
Hypothesis Hheader : 0 <= numBytesPacketHeader.
Hypothesis Hroom : numBytesPacketHeader + 2 * sizeof_u16 <= MAX_PACKET_SIZE.
Hypothesis Hmax : MAX_PACKET_SIZE <= UINT16_MAX.

Let room := (MAX_PACKET_SIZE - numBytesPacketHeader - sizeof_u16) / sizeof_u16.

Lemma ceil_step (n : Z) :
  0 < n -> 1 <= room ->
  (n + room - 1) / room = 1 + (n - Z.min n room + room - 1) / room.
Proof.
  intros Hn Hr. destruct (Z.le_gt_cases n room).
  - rewrite Z.min_l by lia.
    replace (n - n + room - 1) with (room - 1) by lia.
    rewrite (Z.div_small (room - 1)) by lia.
    replace (n + room - 1) with ((n - 1) + 1 * room) by lia.
    rewrite Z.div_add by lia. rewrite Z.div_small by lia. lia.
  - rewrite Z.min_r by lia.
    replace (n + room - 1) with ((n - room + room - 1) + 1 * room) by lia.
    rewrite Z.div_add by lia. lia.
Qed.

Lemma packNackPackets_layout (fuel : nat) (destinationNode : option Node) :
  forall iterator : list Z,
  (length iterator <= fuel)%nat ->
  exists datagrams,
    packNackPackets MAX_PACKET_SIZE numBytesPacketHeader fuel destinationNode
                    (Z.of_nat (length iterator)) iterator
    = Returned datagrams
    /\ Z.of_nat (length datagrams)
       = (Z.of_nat (length iterator)
          + (MAX_PACKET_SIZE - numBytesPacketHeader - sizeof_u16) / sizeof_u16 - 1)
         / ((MAX_PACKET_SIZE - numBytesPacketHeader - sizeof_u16) / sizeof_u16)
    /\ Forall (fun d =>
                 dg_destination d = destinationNode
                 /\ 1 <= dg_numSequenceNumbers d
                 /\ dg_numSequenceNumbers d = Z.of_nat (length (dg_sequenceNumbers d))
                 /\ dg_size d = numBytesPacketHeader + sizeof_u16
                                + sizeof_u16 * dg_numSequenceNumbers d
                 /\ dg_size d <= MAX_PACKET_SIZE)
              datagrams
    /\ concat (dg_sequenceNumbers <$> datagrams) = iterator.
Proof.
  fold room.
  assert (Hrb : 1 <= room <= UINT16_MAX) by (unfold room, sizeof_u16 in *; zmod).
  assert (Hrf : numBytesPacketHeader + sizeof_u16 + sizeof_u16 * room <= MAX_PACKET_SIZE)
    by (unfold room, sizeof_u16 in *; zmod).
  assert (Hrm : numSequenceNumbersRoomFor MAX_PACKET_SIZE numBytesPacketHeader = room).
  { unfold numSequenceNumbersRoomFor, room, to_int, INT32_RANGE, sizeof_u16 in *.
    cbn zeta. zmod. }
  induction fuel as [|fuel IH]; intros iterator Hlen.
  - destruct iterator; [|simpl in Hlen; lia].
    exists []. simpl. fold room. repeat split; [|constructor].
    rewrite Z.div_small; lia.
  - destruct (decide (iterator = [])) as [->|Hne].
    { exists []. simpl. fold room. repeat split; [|constructor]. rewrite Z.div_small; lia. }
    assert (Hpos : 0 < Z.of_nat (length iterator)).
    { destruct iterator; [done|simpl; lia]. }
    cbn [packNackPackets]. rewrite Hrm.
    destruct (Z.ltb_spec 0 (Z.of_nat (length iterator))); [|lia].
    set (count := Z.min (Z.of_nat (length iterator)) room).
    assert (Hcount : 1 <= count <= UINT16_MAX /\ count <= Z.of_nat (length iterator)
                     /\ count <= room) by (unfold count; lia).
    rewrite (to_u16_id count) by (unfold_consts; lia).
    rewrite (packSequenceNumbers_take 0 0) by lia.
    destruct (IH (drop (Z.to_nat count) iterator)) as (rest & E & Hn & Hs & Hc).
    { rewrite length_drop. lia. }
    rewrite length_drop in E, Hn.
    replace (Z.of_nat (length iterator - Z.to_nat count))
      with (Z.of_nat (length iterator) - count) in E, Hn by lia.
    rewrite E. eexists. split; [reflexivity|].
    split; [|split].
    + cbn [length]. rewrite Nat2Z.inj_succ, Hn.
      rewrite (ceil_step (Z.of_nat (length iterator))) by lia. fold count. lia.
    + constructor; [|done]. cbn [dg_destination dg_numSequenceNumbers dg_sequenceNumbers dg_size].
      rewrite length_take, Z2Nat.id by lia.
      repeat split; unfold sizeof_u16 in *; nia.
    + rewrite fmap_cons. cbn [concat dg_sequenceNumbers]. rewrite Hc. apply take_drop.
Qed.

Variable nodeHash : Z -> option Node.

(** X10: the packing loop makes as many datagrams for a node as the size of
    its missing set divided by the room of one datagram, rounded up: none
    for an empty set.  Each is handed to what the one lookup before the
    loop found in the node list for the UUID, a null pointer when the list
    holds no such node, since the result is not tested; each carries at
    least one number, announces as many as it carries, and is header, count
    and numbers long.  Together they carry every missing number once and
    nothing else, in whatever order the set yields them. *)
Theorem nack_datagram_layout (fuel : nat) (nodeUUID : Z) (nodeStats : SingleSenderStats.t) :
  let missing := SingleSenderStats._missingSequenceNumbers nodeStats in
  let room := (MAX_PACKET_SIZE - numBytesPacketHeader - sizeof_u16) / sizeof_u16 in
  (size missing <= fuel)%nat ->
  exists datagrams,
    nackPacketsFor MAX_PACKET_SIZE numBytesPacketHeader nodeHash fuel nodeUUID nodeStats
    = Returned datagrams
    /\ Z.of_nat (length datagrams) = (Z.of_nat (size missing) + room - 1) / room
    /\ Forall (fun d =>
                 dg_destination d = nodeHash nodeUUID
                 /\ 1 <= dg_numSequenceNumbers d
                 /\ dg_numSequenceNumbers d = Z.of_nat (length (dg_sequenceNumbers d))
                 /\ dg_size d = numBytesPacketHeader + sizeof_u16
                                + sizeof_u16 * dg_numSequenceNumbers d
                 /\ dg_size d <= MAX_PACKET_SIZE)
              datagrams
    /\ NoDup (concat (dg_sequenceNumbers <$> datagrams))
    /\ forall sequenceNumber,
         sequenceNumber ∈ concat (dg_sequenceNumbers <$> datagrams)
         <-> sequenceNumber ∈ missing.
Proof.
  intros missing room0 Hfuel.
  destruct (packNackPackets_layout fuel (nodeHash nodeUUID) (elements missing) Hfuel)
    as (datagrams & E & Hn & Hd & Hc).
  exists datagrams. split; [exact E|]. split; [exact Hn|]. split; [exact Hd|].
  rewrite Hc. split; [apply NoDup_elements|]. intros x. apply elem_of_elements.
Qed.
End PackFacts.

(** X10 (witness): node 7 with 11, 12 and 13 missing and a node list that
    holds no node: two datagrams are handed to a null pointer. *)
Lemma nack_datagram_layout_witness :
  0 <= 17
  /\ 17 + 2 * sizeof_u16 <= 24
  /\ 24 <= UINT16_MAX
  /\ (size (SingleSenderStats._missingSequenceNumbers gappyStats) <= 3)%nat
  /\ exists datagrams,
       nackPacketsFor 24 17 nobodyListed 3 7 gappyStats = Returned datagrams
       /\ Z.of_nat (length datagrams) = 2
       /\ Forall (fun d =>
                    dg_destination d = None
                    /\ dg_size d = 17 + sizeof_u16 + sizeof_u16 * dg_numSequenceNumbers d)
                 datagrams
       /\ NoDup (concat (dg_sequenceNumbers <$> datagrams))
       /\ forall sequenceNumber,
            sequenceNumber ∈ concat (dg_sequenceNumbers <$> datagrams)
            <-> sequenceNumber ∈ SingleSenderStats._missingSequenceNumbers gappyStats.
Proof.
  assert (H1 : 0 <= 17) by lia.
  assert (H2 : 17 + 2 * sizeof_u16 <= 24) by (unfold sizeof_u16; lia).
  assert (H3 : 24 <= UINT16_MAX) by (unfold UINT16_MAX; lia).
  assert (H4 : (size (SingleSenderStats._missingSequenceNumbers gappyStats) <= 3)%nat)
    by (vm_compute; lia).
  split; [exact H1|split; [exact H2|split; [exact H3|split; [exact H4|]]]].
  destruct (nack_datagram_layout 24 17 H1 H2 H3 nobodyListed 3%nat 7 gappyStats H4)
    as (datagrams & E & Hn & Hd & Hnd & Hc).
  exists datagrams. split; [exact E|]. split; [exact Hn|].
  split; [|split; [exact Hnd|exact Hc]].
  eapply Forall_impl; [exact Hd|]. intros d (Hdest & _ & _ & Hs & _).
  split; [exact Hdest|exact Hs].
Defined.

Lemma lookup_evictDead (isAlive : Z -> bool) (i : list (Z * SingleSenderStats.t)) :
  forall (senders : gmap Z SingleSenderStats.t) (u : Z),
    evictDead isAlive i senders !! u
    = if isAlive u then senders !! u
      else if decide (u ∈ i.*1) then None else senders !! u.
Proof.
  induction i as [|[v st] next IH]; intros senders u.
  { cbn [evictDead foldl]. destruct (isAlive u); [done|].
    case_decide as Hin; [|done]. by apply elem_of_nil in Hin. }
  cbn [evictDead foldl fst]. fold (evictDead isAlive next
    (if isAlive v then senders else delete v senders)).
  rewrite IH. rewrite fmap_cons. cbn [fst].
  destruct (isAlive u) eqn:Eu.
  - destruct (isAlive v) eqn:Ev; [done|].
    rewrite lookup_delete_ne; [done|]. intros ->. congruence.
  - repeat case_decide; try done.
    + exfalso. set_unfold. tauto.
    + assert (u = v) as -> by (set_unfold; tauto).
      by rewrite Eu, lookup_delete_eq.
    + assert (v <> u) by (set_unfold; intros ->; tauto).
      destruct (isAlive v); [done|]. by rewrite lookup_delete_ne.
Qed.

Section SweepFacts.
Variables (MAX_PACKET_SIZE numBytesPacketHeader : Z).
Variables (isAlive hasPacketsToProcessFrom : Z -> bool).
Variable nodeHash : Z -> option Node.
Hypothesis Hheader : 0 <= numBytesPacketHeader.
Hypothesis Hroom : numBytesPacketHeader + 2 * sizeof_u16 <= MAX_PACKET_SIZE.
Hypothesis Hmax : MAX_PACKET_SIZE <= UINT16_MAX.

Lemma sweepSenders_spec (bound : nat) :
  forall (i : list (Z * SingleSenderStats.t)) (fuel : nat) senders packetsSent sent,
    Forall (fun entry => isAlive entry.1 = true -> hasPacketsToProcessFrom entry.1 = false) i ->
    Forall (fun entry => (size (SingleSenderStats._missingSequenceNumbers entry.2) <= bound)%nat) i ->
    (length i + bound <= fuel)%nat ->
    exists batches : list (Z * SingleSenderStats.t * list Datagram),
      sweepSenders MAX_PACKET_SIZE numBytesPacketHeader isAlive hasPacketsToProcessFrom
                   nodeHash fuel senders i packetsSent sent
      = Returned (evictDead isAlive i senders,
                  packetsSent + Z.of_nat (length (concat batches.*2)),
                  sent ++ concat batches.*2)
      /\ batches.*1 = filter (fun entry => isAlive entry.1 = true) i
      /\ Forall (batchFor MAX_PACKET_SIZE nodeHash) batches.
Proof.
  assert (Hrb : 1 <= (MAX_PACKET_SIZE - numBytesPacketHeader - sizeof_u16) / sizeof_u16).
  { unfold sizeof_u16 in *. zmod. }
  induction i as [|[u st] next IH]; intros fuel senders packetsSent sent Hp Hb Hfuel.
  - exists []. split; [|split; [done|constructor]].
    destruct fuel; simpl; by rewrite Z.add_0_r, app_nil_r.
  - apply Forall_cons in Hp as [Hp1 Hp]. apply Forall_cons in Hb as [Hb1 Hb].
    simpl in Hp1, Hb1, Hfuel.
    destruct fuel as [|fuel]; [lia|]. cbn [sweepSenders evictDead foldl fst].
    fold (evictDead isAlive next (if isAlive u then senders else delete u senders)).
    destruct (isAlive u) eqn:Ea; cbn [negb].
    + rewrite Hp1 by done.
      destruct (packNackPackets_layout MAX_PACKET_SIZE numBytesPacketHeader Hheader Hroom Hmax
                  fuel (nodeHash u) (elements (SingleSenderStats._missingSequenceNumbers st)))
        as (datagrams & E & Hn & Hd & Hc).
      { change (length (elements ?X)) with (size X). lia. }
      unfold nackPacketsFor. cbn zeta.
      change (size (SingleSenderStats._missingSequenceNumbers st))
        with (length (elements (SingleSenderStats._missingSequenceNumbers st))).
      rewrite E.
      destruct (IH fuel senders (packetsSent + Z.of_nat (length datagrams)) (sent ++ datagrams))
        as (more & E' & Hf & Hm); [done|done|lia|].
      exists ((u, st, datagrams) :: more). rewrite E'.
      rewrite !fmap_cons. cbn [fst snd concat]. rewrite length_app, app_assoc.
      split; [do 3 f_equal; lia|]. split.
      * rewrite filter_cons_True by done. by rewrite Hf.
      * constructor; [|exact Hm]. unfold batchFor. cbn [fst snd].
        split; [|split].
        -- eapply Forall_impl; [exact Hd|]. intros d (? & ? & _ & _ & ?). done.
        -- rewrite nackedSequenceNumbers_concat, Hc. apply list_to_set_elements_L.
        -- intros Hempty. rewrite Hempty, elements_empty in Hn.
           cbn [length] in Hn. rewrite Z.div_small in Hn by lia.
           destruct datagrams; [done|simpl in Hn; lia].
    + destruct (IH fuel (delete u senders) packetsSent sent) as (more & E' & Hf & Hm);
        [done|done|lia|].
      exists more. split; [exact E'|]. split; [|exact Hm].
      rewrite filter_cons_False by (cbn [fst]; congruence). exact Hf.
Qed.

(** X11: when no live sender has packets waiting, the whole sweep returns
    and reports as many packets as it sent.  It erases the trackers of the
    dead nodes and keeps those of the live ones unchanged.  What it sent
    falls into one batch for each live tracked sender: the datagrams of a
    batch are handed to what the node list holds for the UUID of the
    sender, a null pointer when it holds no such node, they carry exactly
    the missing set of the sender, and there are none when that set is
    empty. *)
Theorem nack_sweep_evicts_dead_and_nacks_live (self : t) (bound fuel : nat) :
  (forall u st, _singleSenderStats self !! u = Some st ->
                isAlive u = true -> hasPacketsToProcessFrom u = false) ->
  (forall u st, _singleSenderStats self !! u = Some st ->
                (size (SingleSenderStats._missingSequenceNumbers st) <= bound)%nat) ->
  (size (_singleSenderStats self) + bound <= fuel)%nat ->
  exists self' (batches : list (Z * SingleSenderStats.t * list Datagram)),
    sendNackPackets MAX_PACKET_SIZE numBytesPacketHeader isAlive hasPacketsToProcessFrom
                    nodeHash fuel self
    = Returned (self', Z.of_nat (length (concat batches.*2)), concat batches.*2)
    /\ (forall u, _singleSenderStats self' !! u
                  = if isAlive u then _singleSenderStats self !! u else None)
    /\ NoDup batches.*1.*1
    /\ (forall u st, (u, st) ∈ batches.*1
                     <-> _singleSenderStats self !! u = Some st /\ isAlive u = true)
    /\ Forall (batchFor MAX_PACKET_SIZE nodeHash) batches.
Proof.
  intros Hp Hb Hfuel.
  destruct (sweepSenders_spec bound
              (map_to_list (_singleSenderStats self)) fuel (_singleSenderStats self) 0 [])
    as (batches & E & Hf & Hm).
  - apply Forall_forall. intros [u st] Hin%elem_of_map_to_list. simpl. eauto.
  - apply Forall_forall. intros [u st] Hin%elem_of_map_to_list. simpl. eauto.
  - rewrite length_map_to_list. exact Hfuel.
  - unfold sendNackPackets. rewrite E. rewrite Z.add_0_l, app_nil_l.
    eexists _, batches. split; [reflexivity|]. cbn [_singleSenderStats].
    split; [|split; [|split; [|exact Hm]]].
    + intros u. rewrite lookup_evictDead. destruct (isAlive u); [done|].
      case_decide as Hin; [done|].
      destruct (_singleSenderStats self !! u) as [st|] eqn:El; [|done].
      exfalso. apply Hin. apply list_elem_of_fmap. exists (u, st).
      split; [done|]. by apply elem_of_map_to_list.
    + rewrite Hf. apply (sublist_NoDup _ (map_to_list (_singleSenderStats self)).*1);
        [apply NoDup_fst_map_to_list|apply fmap_sublist, sublist_filter].
    + intros u st. rewrite Hf, list_elem_of_filter, elem_of_map_to_list. cbn [fst]. tauto.
Qed.
End SweepFacts.

(** X11 (witness): node 7, alive and listed, with 11, 12 and 13 missing,
    and node 9, dead. *)
Lemma nack_sweep_evicts_dead_and_nacks_live_witness :
  0 <= 17
  /\ 17 + 2 * sizeof_u16 <= 24
  /\ 24 <= UINT16_MAX
  /\ (forall u st, _singleSenderStats twoSenderProcessor !! u = Some st ->
                   onlySevenAlive u = true -> (fun _ : Z => false) u = false)
  /\ (forall u st, _singleSenderStats twoSenderProcessor !! u = Some st ->
                   (size (SingleSenderStats._missingSequenceNumbers st) <= 3)%nat)
  /\ (size (_singleSenderStats twoSenderProcessor) + 3 <= 5)%nat
  /\ exists self' (batches : list (Z * SingleSenderStats.t * list Datagram)),
       sendNackPackets 24 17 onlySevenAlive (fun _ => false) everyNodeListed
                       5 twoSenderProcessor
       = Returned (self', Z.of_nat (length (concat batches.*2)), concat batches.*2)
       /\ _singleSenderStats self' !! 7 = Some gappyStats
       /\ _singleSenderStats self' !! 9 = None
       /\ NoDup batches.*1.*1
       /\ (7, gappyStats) ∈ batches.*1
       /\ Forall (batchFor 24 everyNodeListed) batches.
Proof.
  assert (H1 : 0 <= 17) by lia.
  assert (H2 : 17 + 2 * sizeof_u16 <= 24) by (unfold sizeof_u16; lia).
  assert (H3 : 24 <= UINT16_MAX) by (unfold UINT16_MAX; lia).
  assert (H4 : forall u st, _singleSenderStats twoSenderProcessor !! u = Some st ->
                            onlySevenAlive u = true -> (fun _ : Z => false) u = false)
    by reflexivity.
  assert (H5 : forall u st, _singleSenderStats twoSenderProcessor !! u = Some st ->
                 (size (SingleSenderStats._missingSequenceNumbers st) <= 3)%nat).
  { intros u st Hu. cbn [twoSenderProcessor _singleSenderStats] in Hu.
    apply lookup_insert_Some in Hu as [[_ <-]|[_ Hu]]; [vm_compute; lia|].
    apply lookup_singleton_Some in Hu as [_ <-]. vm_compute; lia. }
  assert (H6 : (size (_singleSenderStats twoSenderProcessor) + 3 <= 5)%nat)
    by (vm_compute; lia).
  split; [exact H1|split; [exact H2|split; [exact H3|split; [exact H4|
    split; [exact H5|split; [exact H6|]]]]]].
  destruct (nack_sweep_evicts_dead_and_nacks_live 24 17 onlySevenAlive (fun _ => false)
              everyNodeListed H1 H2 H3 twoSenderProcessor 3%nat 5%nat H4 H5 H6)
    as (self' & batches & E & Hl & Hnd & Hin & Hb).
  exists self', batches. split; [exact E|].
  split; [exact (Hl 7)|]. split; [exact (Hl 9)|]. split; [exact Hnd|].
  split; [exact (proj2 (Hin 7 gappyStats) (conj eq_refl eq_refl))|exact Hb].
Defined.

(** X12: [resetStats] zeroes the totals, stamps the time of the reset as
    the time of the last NACK sweep and clears the registry, but leaves the
    count of received packets: only a processor that has received nothing
    is reset to what the constructor makes.  The next packet, whatever its
    sequence number, meets a new tracker and is accepted with nothing
    missing. *)
Theorem reset_forgets_every_sender (server : Server) (self : t) (world : World server)
    (nodeUUID sequence transitTime editsInPacket processTime lockWaitTime : Z) :
  let self0 := fst (resetStats server self world) in
  let r := trackInboundPacket self0 nodeUUID sequence transitTime editsInPacket
                              processTime lockWaitTime in
  (resetStats server self world = construct server world <-> _receivedPacketCount self = 0)
  /\ _receivedPacketCount self0 = _receivedPacketCount self
  /\ _lastNackTime self0 = fst (usecTimestampNow server world)
  /\ _totalPackets (fst r) = 1
  /\ snd r = []
  /\ exists stats,
       _singleSenderStats (fst r) = {[ nodeUUID := stats ]}
       /\ SingleSenderStats._incomingLastSequence stats = sequence
       /\ SingleSenderStats._missingSequenceNumbers stats = ∅
       /\ SingleSenderStats._totalPackets stats = 1.
Proof.
  cbn zeta. unfold resetStats, construct.
  destruct (usecTimestampNow server world) as [now w1]. cbn [fst snd].
  split; [split; [by intros [= ->]|by intros ->]|]. split; [done|]. split; [done|].
  unfold trackInboundPacket. cbn [fst snd _singleSenderStats _totalPackets].
  rewrite lookup_empty.
  assert (E : SingleSenderStats.trackInboundPacket SingleSenderStats.init sequence
                transitTime editsInPacket processTime lockWaitTime
              = SingleSenderStats.accept SingleSenderStats.init sequence ∅
                  transitTime editsInPacket processTime lockWaitTime).
  { unfold SingleSenderStats.trackInboundPacket. simpl. by rewrite Z.eqb_refl. }
  rewrite E. unfold SingleSenderStats.accept. cbn [fst snd].
  split; [done|]. split; [done|].
  eexists. split; [by rewrite insert_empty|].
  cbn. split; [done|]. split; [|done].
  apply set_eq. intros x. rewrite elem_of_prune.
  split; [by intros [? _]|by intros ?%elem_of_empty].
Qed.

End ProcessorCoverage.

(** * Further properties of the snapshot envelope *)

Module SnapshotCoverage.
Import OctreeUtils SnapshotFiles Examples MoreExamples SnapshotFacts.

Lemma value_not_contains (map : list (string * QVariant)) (key : string) :
  contains map key = false -> value map key = VInvalid.
Proof.
  induction map as [|[k v] rest IH]; [done|]. simpl.
  destruct (String.eqb k key); [done|]. exact IH.
Qed.

Lemma objects_stay_objects (entities : list QVariant) :
  (fun entity => VMap (toJsonObject entity))
    <$> ((fun entity => VMap (toJsonObject entity)) <$> entities)
  = (fun entity => VMap (toJsonObject entity)) <$> entities.
Proof. induction entities as [|entity rest IH]; [done|]. rewrite !fmap_cons, IH. done. Qed.

Section Reads.
Variable codec : Codec.

(** X13: bytes that are a gzip of data that is itself no gzip are read
    exactly as that data is. *)
Theorem plain_and_gzipped_bytes_read_alike
    (self : RawEntityData) (data gzData : QByteArray codec) :
  gunzip codec data = None ->
  gunzip codec gzData = Some data ->
  readOctreeDataInfoFromData codec self gzData
  = readOctreeDataInfoFromData codec self data.
Proof. intros Hplain Hgz. unfold readOctreeDataInfoFromData. by rewrite Hplain, Hgz. Qed.

(** X14: a map that lacks one of the three header keys leaves id, data
    version and version as they were, yet the read goes on and takes the
    entities of the map. *)
Theorem incomplete_header_is_left_alone
    (self : RawEntityData) (map : list (string * QVariant)) (key : string) :
  key = "Id"%string \/ key = "DataVersion"%string \/ key = "Version"%string ->
  contains map key = false ->
  let r := readOctreeDataInfoFromMap codec self map in
  id r = id self
  /\ dataVersion r = dataVersion self
  /\ version r = version self
  /\ entityData r = entityData self
  /\ variantEntityData r = toList (value map "Entities").
Proof.
  intros Hkey Hmissing. cbn zeta. unfold readOctreeDataInfoFromMap.
  assert (contains map "Id" && contains map "DataVersion" && contains map "Version" = false)
    as ->.
  { destruct Hkey as [-> | [-> | ->]]; rewrite Hmissing;
      [done|by rewrite andb_false_r|by rewrite andb_false_r]. }
  done.
Qed.

(** X15: a map without entities empties the entity list of the envelope
    instead of keeping it. *)
Theorem map_without_entities_empties_the_list
    (self : RawEntityData) (map : list (string * QVariant)) :
  contains map "Entities" = false ->
  variantEntityData (readOctreeDataInfoFromMap codec self map) = []
  /\ entityData (readOctreeDataInfoFromMap codec self map) = entityData self.
Proof.
  intros Hmissing. unfold readOctreeDataInfoFromMap, readSubclassData.
  cbn [variantEntityData entityData]. rewrite (value_not_contains _ _ Hmissing).
  split; [done|]. by destruct (_ && _).
Qed.

Section WithFiles.
Variable readAll : string -> option (QByteArray codec).
Variable jsonToInt : QVariant -> Z.

(** X16: reading a file is reading its bytes, or a failure when the file
    cannot be opened, provided the file is not gzipped twice: the file
    reader unzips once and the data reader once more. *)
Theorem file_read_is_data_read (self : RawEntityData) (path : string) :
  (forall data jsonData,
      readAll path = Some data -> gunzip codec data = Some jsonData ->
      gunzip codec jsonData = None) ->
  readOctreeDataInfoFromFile codec readAll self path
  = match readAll path with
    | None => None
    | Some data => readOctreeDataInfoFromData codec self data
    end.
Proof.
  intros Honce. unfold readOctreeDataInfoFromFile.
  destruct (readAll path) as [data|] eqn:Ef; [|done].
  unfold readOctreeDataInfoFromData.
  destruct (gunzip codec data) as [jsonData|] eqn:Eg.
  - by rewrite (Honce data jsonData eq_refl Eg).
  - by rewrite Eg.
Qed.

(** X17: the entities read from a JSON object go to a list that the
    writer never looks at: what is written afterwards holds the entities
    the envelope had before. *)
Theorem json_entities_are_not_written
    (self : RawEntityData) (root : list (string * QVariant)) :
  let r := readOctreeDataInfoFromJSON codec jsonToInt self root in
  variantEntityData r = variantEntityData self
  /\ entityData r = (if contains root "Entities" then toList (value root "Entities")
                     else entityData self)
  /\ forall obj, writeSubclassData r obj = writeSubclassData self obj.
Proof.
  cbn zeta. unfold readOctreeDataInfoFromJSON, readSubclassDataFromJSON, writeSubclassData.
  destruct (contains root "Entities"); destruct (_ && _); done.
Qed.
End WithFiles.

Hypothesis gunzip_gzip : forall data gzData,
  gzip codec data = Some gzData -> gunzip codec gzData = Some data.
Hypothesis parse_toJson : forall obj,
  parseEntities codec (toJson codec obj) = Some obj.
Hypothesis toUuid_toString : forall u,
  toUuid codec (VString (uuidToString codec u)) = u.

Lemma round_trip_result (self target : RawEntityData) :
  is_Some (gzip codec (toByteArray codec self)) ->
  readOctreeDataInfoFromData codec target (toGzippedByteArray codec self)
  = Some {| id := id self;
            dataVersion := toInt codec (VNumber (to_qint64 (dataVersion self)));
            version := toInt codec (VNumber (to_qint64 (version self)));
            entityData := entityData target;
            variantEntityData :=
              (fun entity => VMap (toJsonObject entity)) <$> variantEntityData self |}.
Proof.
  intros [gzData Hgz].
  unfold toGzippedByteArray, readOctreeDataInfoFromData.
  rewrite Hgz, (gunzip_gzip _ _ Hgz).
  unfold toByteArray. rewrite parse_toJson.
  unfold readOctreeDataInfoFromMap, readSubclassData, writeSubclassData.
  cbn. by rewrite toUuid_toString.
Qed.

(** X18: writing an envelope gzipped and reading it back always succeeds
    when gzip does, with the id, the two versions as [toInt] gives them,
    and the same number of entities, each of them an object: the entity
    itself when it was one, the empty object otherwise. *)
Theorem round_trip_normal_form (self target : RawEntityData) :
  is_Some (gzip codec (toByteArray codec self)) ->
  exists result,
    readOctreeDataInfoFromData codec target (toGzippedByteArray codec self) = Some result
    /\ id result = id self
    /\ dataVersion result = toInt codec (VNumber (to_qint64 (dataVersion self)))
    /\ version result = toInt codec (VNumber (to_qint64 (version self)))
    /\ entityData result = entityData target
    /\ length (variantEntityData result) = length (variantEntityData self)
    /\ Forall isObject (variantEntityData result)
    /\ forall (i : nat) entity,
         variantEntityData self !! i = Some entity ->
         variantEntityData result !! i = Some (VMap (toJsonObject entity)).
Proof.
  intros Hgz. rewrite (round_trip_result self target Hgz).
  eexists. split; [reflexivity|]. cbn [id dataVersion version entityData variantEntityData].
  repeat split.
  - by rewrite length_fmap.
  - apply Forall_fmap, Forall_forall. intros entity _. done.
  - intros i entity Hi. by rewrite list_lookup_fmap, Hi.
Qed.

(** X19: whatever a first round trip returns, a second round trip returns
    again: id, versions and entities are then all preserved. *)
Theorem second_round_trip_changes_nothing (self target target' once : RawEntityData) :
  (forall v, INT_MIN <= toInt codec v <= INT_MAX) ->
  (forall n, INT_MIN <= n <= INT_MAX -> toInt codec (VNumber n) = n) ->
  is_Some (gzip codec (toByteArray codec self)) ->
  is_Some (gzip codec (toByteArray codec once)) ->
  readOctreeDataInfoFromData codec target (toGzippedByteArray codec self) = Some once ->
  exists twice,
    readOctreeDataInfoFromData codec target' (toGzippedByteArray codec once) = Some twice
    /\ id twice = id once
    /\ dataVersion twice = dataVersion once
    /\ version twice = version once
    /\ variantEntityData twice = variantEntityData once.
Proof.
  intros Hrange Hint Hgz Hgz' E1.
  rewrite (round_trip_result self target Hgz) in E1. injection E1 as <-.
  rewrite (round_trip_result _ target' Hgz').
  eexists. split; [reflexivity|]. cbn [id dataVersion version entityData variantEntityData].
  assert (Hq : forall n, INT_MIN <= n <= INT_MAX -> to_qint64 n = n).
  { intros n. unfold to_qint64, INT64_RANGE, INT_MIN, INT_MAX. intros Hn.
    Z.to_euclidean_division_equations; lia. }
  rewrite (Hq (toInt codec (VNumber (to_qint64 (dataVersion self))))) by apply Hrange.
  rewrite (Hq (toInt codec (VNumber (to_qint64 (version self))))) by apply Hrange.
  split; [done|]. split; [apply Hint, Hrange|]. split; [apply Hint, Hrange|].
  apply objects_stay_objects.
Qed.
End Reads.

Lemma referenceCodec_toInt_range v : INT_MIN <= toInt referenceCodec v <= INT_MAX.
Proof.
  unfold INT_MIN, INT_MAX. destruct v; simpl; try lia.
  unfold OctreeInboundPacketProcessor.to_int, OctreeInboundPacketProcessor.INT32_RANGE.
  Z.to_euclidean_division_equations; lia.
Qed.

Lemma referenceCodec_gunzip_gzip data gzData :
  gzip referenceCodec data = Some gzData -> gunzip referenceCodec gzData = Some data.
Proof. intros H. simpl in H. injection H as <-. reflexivity. Qed.

Lemma plain_and_gzipped_bytes_read_alike_witness :
  gunzip referenceCodec (JsonText mapWithoutEntities) = None
  /\ gunzip referenceCodec (Gzipped (JsonText mapWithoutEntities))
     = Some (JsonText mapWithoutEntities)
  /\ readOctreeDataInfoFromData referenceCodec freshEnvelope
       (Gzipped (JsonText mapWithoutEntities))
     = readOctreeDataInfoFromData referenceCodec freshEnvelope (JsonText mapWithoutEntities).
Proof.
  split; [reflexivity|]. split; [reflexivity|].
  exact (plain_and_gzipped_bytes_read_alike referenceCodec freshEnvelope
           (JsonText mapWithoutEntities) (Gzipped (JsonText mapWithoutEntities))
           eq_refl eq_refl).
Defined.

Lemma incomplete_header_is_left_alone_witness :
  ("Version"%string = "Id"%string \/ "Version"%string = "DataVersion"%string
   \/ "Version"%string = "Version"%string)
  /\ contains mapWithoutVersion "Version" = false
  /\ let r := readOctreeDataInfoFromMap referenceCodec smallEnvelope mapWithoutVersion in
     id r = id smallEnvelope
     /\ dataVersion r = dataVersion smallEnvelope
     /\ version r = version smallEnvelope
     /\ entityData r = entityData smallEnvelope
     /\ variantEntityData r = toList (value mapWithoutVersion "Entities").
Proof.
  assert (H1 : "Version"%string = "Id"%string \/ "Version"%string = "DataVersion"%string
               \/ "Version"%string = "Version"%string) by (right; right; reflexivity).
  assert (H2 : contains mapWithoutVersion "Version" = false) by reflexivity.
  split; [exact H1|split; [exact H2|]].
  exact (incomplete_header_is_left_alone referenceCodec smallEnvelope mapWithoutVersion
           "Version" H1 H2).
Defined.

Lemma map_without_entities_empties_the_list_witness :
  contains mapWithoutEntities "Entities" = false
  /\ variantEntityData (readOctreeDataInfoFromMap referenceCodec smallEnvelope
                          mapWithoutEntities) = []
  /\ entityData (readOctreeDataInfoFromMap referenceCodec smallEnvelope mapWithoutEntities)
     = entityData smallEnvelope.
Proof.
  split; [reflexivity|].
  exact (map_without_entities_empties_the_list referenceCodec smallEnvelope
           mapWithoutEntities eq_refl).
Defined.

Lemma file_read_is_data_read_witness :
  (forall data jsonData,
      oneGzippedFile "models.json.gz" = Some data ->
      gunzip referenceCodec data = Some jsonData ->
      gunzip referenceCodec jsonData = None)
  /\ readOctreeDataInfoFromFile referenceCodec oneGzippedFile freshEnvelope "models.json.gz"
     = match oneGzippedFile "models.json.gz" with
       | None => None
       | Some data => readOctreeDataInfoFromData referenceCodec freshEnvelope data
       end.
Proof.
  assert (H1 : forall data jsonData,
             oneGzippedFile "models.json.gz" = Some data ->
             gunzip referenceCodec data = Some jsonData ->
             gunzip referenceCodec jsonData = None).
  { intros data jsonData Hf Hg. vm_compute in Hf. injection Hf as <-.
    simpl in Hg. injection Hg as <-. reflexivity. }
  split; [exact H1|].
  exact (file_read_is_data_read referenceCodec oneGzippedFile freshEnvelope
           "models.json.gz" H1).
Defined.

Lemma round_trip_normal_form_witness :
  (forall data gzData,
      gzip referenceCodec data = Some gzData -> gunzip referenceCodec gzData = Some data)
  /\ (forall obj, parseEntities referenceCodec (toJson referenceCodec obj) = Some obj)
  /\ (forall u, toUuid referenceCodec (VString (uuidToString referenceCodec u)) = u)
  /\ is_Some (gzip referenceCodec (toByteArray referenceCodec mixedEnvelope))
  /\ exists result,
       readOctreeDataInfoFromData referenceCodec freshEnvelope
         (toGzippedByteArray referenceCodec mixedEnvelope) = Some result
       /\ id result = 5
       /\ dataVersion result = - 2 ^ 31
       /\ version result = 3
       /\ Forall isObject (variantEntityData result)
       /\ variantEntityData result !! 0%nat = Some (VMap [])
       /\ variantEntityData result !! 1%nat = Some (VMap [("A"%string, VNumber 1)]).
Proof.
  assert (L2 : forall obj, parseEntities referenceCodec (toJson referenceCodec obj) = Some obj)
    by reflexivity.
  assert (H1 : is_Some (gzip referenceCodec (toByteArray referenceCodec mixedEnvelope)))
    by (eexists; reflexivity).
  split; [exact referenceCodec_gunzip_gzip|split; [exact L2|
    split; [exact referenceCodec_toUuid|split; [exact H1|]]]].
  destruct (round_trip_normal_form referenceCodec referenceCodec_gunzip_gzip L2
              referenceCodec_toUuid mixedEnvelope freshEnvelope H1)
    as (result & E & Hid & Hdv & Hv & _ & _ & Ho & He).
  exists result. split; [exact E|]. split; [exact Hid|]. split; [exact Hdv|].
  split; [exact Hv|]. split; [exact Ho|].
  split; [exact (He 0%nat _ eq_refl)|exact (He 1%nat _ eq_refl)].
Defined.

Lemma second_round_trip_changes_nothing_witness :
  (forall data gzData,
      gzip referenceCodec data = Some gzData -> gunzip referenceCodec gzData = Some data)
  /\ (forall obj, parseEntities referenceCodec (toJson referenceCodec obj) = Some obj)
  /\ (forall u, toUuid referenceCodec (VString (uuidToString referenceCodec u)) = u)
  /\ (forall v, INT_MIN <= toInt referenceCodec v <= INT_MAX)
  /\ (forall n, INT_MIN <= n <= INT_MAX -> toInt referenceCodec (VNumber n) = n)
  /\ is_Some (gzip referenceCodec (toByteArray referenceCodec mixedEnvelope))
  /\ is_Some (gzip referenceCodec (toByteArray referenceCodec mixedEnvelopeOnce))
  /\ readOctreeDataInfoFromData referenceCodec freshEnvelope
       (toGzippedByteArray referenceCodec mixedEnvelope) = Some mixedEnvelopeOnce
  /\ exists twice,
       readOctreeDataInfoFromData referenceCodec freshEnvelope
         (toGzippedByteArray referenceCodec mixedEnvelopeOnce) = Some twice
       /\ id twice = id mixedEnvelopeOnce
       /\ dataVersion twice = dataVersion mixedEnvelopeOnce
       /\ version twice = version mixedEnvelopeOnce
       /\ variantEntityData twice = variantEntityData mixedEnvelopeOnce.
Proof.
  assert (L2 : forall obj, parseEntities referenceCodec (toJson referenceCodec obj) = Some obj)
    by reflexivity.
  assert (H1 : is_Some (gzip referenceCodec (toByteArray referenceCodec mixedEnvelope)))
    by (eexists; reflexivity).
  assert (H2 : is_Some (gzip referenceCodec (toByteArray referenceCodec mixedEnvelopeOnce)))
    by (eexists; reflexivity).
  assert (H3 : readOctreeDataInfoFromData referenceCodec freshEnvelope
                 (toGzippedByteArray referenceCodec mixedEnvelope) = Some mixedEnvelopeOnce)
    by (vm_compute; reflexivity).
  split; [exact referenceCodec_gunzip_gzip|split; [exact L2|
    split; [exact referenceCodec_toUuid|split; [exact referenceCodec_toInt_range|
    split; [exact referenceCodec_toInt|split; [exact H1|split; [exact H2|
    split; [exact H3|]]]]]]]].
  exact (second_round_trip_changes_nothing referenceCodec referenceCodec_gunzip_gzip L2
           referenceCodec_toUuid mixedEnvelope freshEnvelope freshEnvelope
           mixedEnvelopeOnce referenceCodec_toInt_range referenceCodec_toInt H1 H2 H3).
Defined.

End SnapshotCoverage.
